(** * FlexiMart ETL pipeline: a shallow embedding of [etl_pipeline.py]

    The development follows the layout of the source file:
    - cells and text helpers (the values a pandas DataFrame cell can hold),
    - BLOCK 2: the cleaning utilities ([clean_phone], [clean_id],
      [clean_category], [clean_date], [canonicalize_email], ...),
    - BLOCK 3: [FlexiMartETL] (extract and the three transforms),
    - the PostgreSQL store described by [DDL_STATEMENTS] and the SQL
      statements the loader sends to it,
    - BLOCK 4: [Loader],
    - BLOCK 5: [run],
    followed by the properties of the pipeline.

    Text is modelled as ASCII strings; a Python [float] is a binary64
    primitive float; a Python [int] is a [Z]. *)

From Stdlib Require Import ZArith String Ascii List Lia DecimalString DecimalPos Bool.
From Stdlib Require Import PrimFloat FloatOps Uint63 SpecFloat.
From stdpp Require Import base option list sorting gmap strings.

Open Scope string_scope.
Open Scope Z_scope.

(** ** Cells *)

(** The value of one DataFrame cell.  A missing CSV field is read by
    [pd.read_csv] as the float NaN, [VFloat nan]; Python's [None] is
    [VNone]. *)
Inductive cell :=
  | VNone
  | VInt (z : Z)
  | VFloat (f : float)
  | VStr (s : string).

#[global] Instance cell_inhabited : Inhabited cell := populate (VFloat nan).

Definition NaN : cell := VFloat nan.

(** [pd.isna] / [pd.notna] on a scalar. *)
Definition isna (c : cell) : bool :=
  match c with
  | VNone => true
  | VFloat f => is_nan f
  | _ => false
  end.

Definition notna (c : cell) : bool := negb (isna c).

(** ** Text helpers (ASCII) *)

Definition chars (s : string) : list ascii := list_ascii_of_string s.
Definition text (l : list ascii) : string := string_of_list_ascii l.

(** [str.isdigit] *)
Definition isdigit (a : ascii) : bool :=
  let n := nat_of_ascii a in (48 <=? n)%nat && (n <=? 57)%nat.

(** [str.isspace], which is also what [\s] matches. *)
Definition isspace (a : ascii) : bool :=
  let n := nat_of_ascii a in
  ((9 <=? n)%nat && (n <=? 13)%nat) || ((28 <=? n)%nat && (n <=? 32)%nat).

Definition isupper (a : ascii) : bool :=
  let n := nat_of_ascii a in (65 <=? n)%nat && (n <=? 90)%nat.

Definition islower (a : ascii) : bool :=
  let n := nat_of_ascii a in (97 <=? n)%nat && (n <=? 122)%nat.

Definition lower_char (a : ascii) : ascii :=
  if isupper a then ascii_of_nat (nat_of_ascii a + 32) else a.

Definition upper_char (a : ascii) : ascii :=
  if islower a then ascii_of_nat (nat_of_ascii a - 32) else a.

(** [s.lower()] *)
Definition lower (l : list ascii) : list ascii := map lower_char l.

Fixpoint lstrip (l : list ascii) : list ascii :=
  match l with
  | a :: l' => if isspace a then lstrip l' else l
  | [] => []
  end.

(** [s.strip()] *)
Definition strip (l : list ascii) : list ascii :=
  rev (lstrip (rev (lstrip l))).

(** [s.capitalize()] *)
Definition capitalize (l : list ascii) : list ascii :=
  match l with
  | a :: l' => upper_char a :: lower l'
  | [] => []
  end.

(** ["".join(filter(str.isdigit, s))] *)
Definition digits_of (l : list ascii) : list ascii := filter isdigit l.

Definition digit_val (a : ascii) : Z := Z.of_nat (nat_of_ascii a) - 48.

(** [int(s)] on a string of decimal digits. *)
Definition int_of_digits (l : list ascii) : Z :=
  fold_left (fun acc a => 10 * acc + digit_val a) l 0.

(** [str(n)] on an integer. *)
Definition str_of_int (z : Z) : string := NilZero.string_of_int (Z.to_int z).

(** [n] rendered in decimal, left-padded with zeros to [w] characters
    (the [%0wd] of [strftime]). *)
Definition zero_pad (w : nat) (z : Z) : string :=
  let s := chars (str_of_int z) in
  text (repeat "0"%char (w - length s) ++ s).

(** ** Floats *)

Definition int64_min : Z := - 2 ^ 63.
Definition int64_max : Z := 2 ^ 63 - 1.

(** [float(n)] for an int64 [n]; beyond that range the conversion keeps
    the 62 leading bits. *)
Definition float_of_Z (z : Z) : float :=
  let a := Z.abs z in
  let m :=
    if a <? 2 ^ 62 then of_uint63 (Uint63.of_Z a)
    else let k := Z.log2 a - 61 in
         Z.ldexp (of_uint63 (Uint63.of_Z (Z.shiftr a k))) k in
  if z <? 0 then PrimFloat.opp m else m.

(** The integer part of a finite float (rounding toward zero); [None] on
    NaN and the infinities. *)
Definition trunc_float (f : float) : option Z :=
  match Prim2SF f with
  | S754_zero _ => Some 0
  | S754_finite s m e =>
      let a := if 0 <=? e then Z.pos m * 2 ^ e else Z.shiftr (Z.pos m) (- e) in
      Some (if s then - a else a)
  | _ => None
  end.

(** [numpy]'s cast of a float64 to int64 behind [Series.astype(int)]:
    pandas raises on NaN and the infinities ([None]); a finite value is
    truncated, and one outside int64 becomes the smallest int64. *)
Definition astype_int (f : float) : option Z :=
  match trunc_float f with
  | Some z => Some (if (int64_min <=? z) && (z <=? int64_max) then z else int64_min)
  | None => None
  end.

(** [Series.fillna(v)] on one float. *)
Definition fillna (v f : float) : float := if is_nan f then v else f.

(** ** BLOCK 2: cleaning utilities *)

Definition of_text (o : option string) : cell :=
  match o with Some s => VStr s | None => VNone end.

Definition of_id (o : option Z) : cell :=
  match o with Some z => VInt z | None => NaN end.

(** [uuid.uuid4().hex[:8]]: the eight leading hexadecimal digits of a
    random 128-bit number, here the 32-bit number [x]. *)
Definition hex_digit (n : N) : ascii :=
  ascii_of_N (if (n <? 10)%N then 48 + n else 87 + n)%N.

Fixpoint hex_digits (k : nat) (x : N) (acc : list ascii) : list ascii :=
  match k with
  | O => acc
  | S k' => hex_digits k' (x / 16)%N (hex_digit (x mod 16)%N :: acc)
  end.

Definition hex8 (x : N) : string := text (hex_digits 8 x []).

Definition placeholder_email (suffix : string) : string :=
  "unknown+" ++ suffix ++ "@example.com".

Fixpoint first_some {A B} (f : A -> option B) (l : list A) : option B :=
  match l with
  | [] => None
  | x :: l' => match f x with Some y => Some y | None => first_some f l' end
  end.

(** *** Dates *)

Definition char_is (c : ascii) (a : ascii) : bool := Ascii.eqb c a.

Definition char_in (lo hi : ascii) (a : ascii) : bool :=
  (nat_of_ascii lo <=? nat_of_ascii a)%nat && (nat_of_ascii a <=? nat_of_ascii hi)%nat.

(** A sequence of character classes, matched against a prefix. *)
Fixpoint take_classes (cs : list (ascii -> bool)) (s : list ascii)
  : option (list ascii * list ascii) :=
  match cs with
  | [] => Some ([], s)
  | c :: cs' =>
      match s with
      | a :: s' =>
          if c a then
            match take_classes cs' s' with
            | Some (m, rest) => Some (a :: m, rest)
            | None => None
            end
          else None
      | [] => None
      end
  end.

(** [re.match(r"^\d{4}-\d{2}-\d{2}$", s)]; [$] also matches just before
    a final newline. *)
Definition iso_pattern : list (ascii -> bool) :=
  [isdigit; isdigit; isdigit; isdigit; char_is "-"; isdigit; isdigit;
   char_is "-"; isdigit; isdigit].

Definition matches_iso (s : list ascii) : bool :=
  match take_classes iso_pattern s with
  | Some (_, []) => true
  | Some (_, [a]) => Ascii.eqb a "010"
  | _ => false
  end.

(** The directives of [datetime.strptime] used by [explicit_formats],
    with the alternatives of the regular expression [_strptime] builds
    for each, in its order:
    [%Y] is [\d\d\d\d], [%m] is [1[0-2]|0[1-9]|[1-9]] and
    [%d] is [3[0-1]|[1-2]\d|0[1-9]|[1-9]| [1-9]]. *)
Inductive directive := DY | Dm | Dd | DLit (a : ascii).

Definition alternatives (d : directive) : list (list (ascii -> bool)) :=
  match d with
  | DY => [[isdigit; isdigit; isdigit; isdigit]]
  | Dm => [[char_is "1"; char_in "0" "2"]; [char_is "0"; char_in "1" "9"];
           [char_in "1" "9"]]
  | Dd => [[char_is "3"; char_in "0" "1"]; [char_in "1" "2"; isdigit];
           [char_is "0"; char_in "1" "9"]; [char_in "1" "9"];
           [char_is " "; char_in "1" "9"]]
  | DLit a => [[char_is a]]
  end.

Record date := { year : Z; month : Z; day : Z }.

Definition set_field (d : directive) (v : Z) (dt : date) : date :=
  match d with
  | DY => {| year := v; month := month dt; day := day dt |}
  | Dm => {| year := year dt; month := v; day := day dt |}
  | Dd => {| year := year dt; month := month dt; day := v |}
  | DLit _ => dt
  end.

(** The regular-expression match of [_strptime]: alternatives are tried
    in order and the first one after which the rest of the format
    matches is taken; what is left of the string is returned. *)
Fixpoint match_format (fmt : list directive) (s : list ascii) (dt : date)
  : option (date * list ascii) :=
  match fmt with
  | [] => Some (dt, s)
  | d :: fmt' =>
      first_some
        (fun alt =>
           match take_classes alt s with
           | Some (m, rest) =>
               match_format fmt' rest (set_field d (int_of_digits (digits_of m)) dt)
           | None => None
           end)
        (alternatives d)
  end.

Definition is_leap (y : Z) : bool :=
  ((y mod 4 =? 0) && negb (y mod 100 =? 0)) || (y mod 400 =? 0).

Definition days_in_month (y m : Z) : Z :=
  if m =? 2 then (if is_leap y then 29 else 28)
  else if (m =? 4) || (m =? 6) || (m =? 9) || (m =? 11) then 30
  else 31.

(** The range checks of the [datetime] constructor. *)
Definition valid_date (dt : date) : bool :=
  (1 <=? year dt) && (year dt <=? 9999) &&
  (1 <=? month dt) && (month dt <=? 12) &&
  (1 <=? day dt) && (day dt <=? days_in_month (year dt) (month dt)).

(** [datetime.strptime(s, fmt)]; [None] stands for its [ValueError]
    (no match, unconverted data left over, or a day out of range). *)
Definition strptime (s : list ascii) (fmt : list directive) : option date :=
  match match_format fmt s {| year := 1900; month := 1; day := 1 |} with
  | Some (dt, []) => if valid_date dt then Some dt else None
  | _ => None
  end.

(** [dt.strftime("%Y-%m-%d")] *)
Definition strftime (dt : date) : string :=
  zero_pad 4 (year dt) ++ "-" ++ zero_pad 2 (month dt) ++ "-" ++ zero_pad 2 (day dt).

Definition explicit_formats : list (list directive) :=
  [ [DY; DLit "-"; Dm; DLit "-"; Dd];
    [DY; DLit "/"; Dm; DLit "/"; Dd];
    [DY; DLit "."; Dm; DLit "."; Dd];
    [Dd; DLit "/"; Dm; DLit "/"; DY];
    [Dd; DLit "-"; Dm; DLit "-"; DY];
    [Dd; DLit "."; Dm; DLit "."; DY];
    [Dm; DLit "/"; Dd; DLit "/"; DY];
    [Dm; DLit "-"; Dd; DLit "-"; DY];
    [Dm; DLit "."; Dd; DLit "."; DY] ].

(** [re.split(r"\D+", s)]: the maximal runs of digits, with an empty
    token where the string starts or ends with a non-digit. *)
Fixpoint split_nondigits (s : list ascii) (cur : list ascii) (in_sep : bool)
  : list (list ascii) :=
  match s with
  | [] => [rev cur]
  | a :: s' =>
      if isdigit a then split_nondigits s' (a :: cur) false
      else if in_sep then split_nondigits s' cur true
      else rev cur :: split_nondigits s' [] true
  end.

(** [int(tok)] on a token of [re.split]: [ValueError] on the empty one. *)
Definition int_of_token (t : list ascii) : option Z :=
  match t with [] => None | _ => Some (int_of_digits t) end.

(** [_infer_dayfirst_from_string].  The first pattern,
    [^\s*(\d{4})\D+(\d{1,2})\D+(\d{1,2})\s*$], holds of a stripped string
    exactly when it splits into three digit runs of 4, 1-2 and 1-2
    characters. *)
Definition _infer_dayfirst_from_string (s0 : list ascii) : option bool :=
  let s := strip s0 in
  match s with
  | [] => None
  | _ =>
      let tokens := split_nondigits s [] false in
      let short t := (1 <=? length t)%nat && (length t <=? 2)%nat in
      let year_first :=
        match tokens with
        | [y; m; d] => (length y =? 4)%nat && short m && short d
        | _ => false
        end in
      if year_first then None
      else
        match tokens with
        | t0 :: t1 :: _ =>
            match int_of_token t0, int_of_token t1 with
            | Some a, Some b =>
                if (12 <? a) && (b <=? 12) then Some true
                else if (12 <? b) && (a <=? 12) then Some false
                else None
            | _, _ => None
            end
        | _ => None
        end
  end.

(** ** Exceptions *)

Inductive exn :=
  | MissingColumns (df_name : string) (missing : list string)
      (** the [ValueError] of [assert_required_columns] *)
  | ValueError (what : string)
  | KeyError (column : string)
  | UniqueViolation (constraint : string)
  | NotNullViolation (column : string)
  | ForeignKeyViolation (constraint : string)
  | DataError (column : string)
      (** a value outside the column's type: text too long, number out
          of range, malformed date *)
  | InFailedSqlTransaction.

Inductive result (A : Type) :=
  | Ok (a : A)
  | Raise (e : exn).

Arguments Ok {A} a.
Arguments Raise {A} e.

#[global] Instance result_ret : MRet result := fun A a => Ok a.
#[global] Instance result_bind : MBind result :=
  fun A B f m => match m with Ok a => f a | Raise e => Raise e end.

Definition guard_or (b : bool) (e : exn) : result unit :=
  if b then Ok tt else Raise e.

(** ** The store: the schema of [DDL_STATEMENTS] *)

Module customers.
Record row := {
  customer_id : Z;
  first_name : string;
  last_name : string;
  email : string;
  phone : option string;
  city : option string;
  registration_date : option string }.
End customers.

Module products.
Record row := {
  product_id : Z;
  product_name : string;
  category : string;
  price : float;
  stock_quantity : option Z }.
End products.

Module orders.
Record row := {
  order_id : Z;
  customer_id : Z;
  order_date : string;
  total_amount : float;
  status : option string }.
End orders.

Module order_items.
Record row := {
  order_item_id : Z;
  order_id : Z;
  product_id : Z;
  quantity : Z;
  unit_price : float;
  subtotal : float }.
End order_items.

Record tables := {
  customers : list customers.row;
  products : list products.row;
  orders : list orders.row;
  order_items : list order_items.row }.

(** The next value of the identity sequence behind each
    [GENERATED BY DEFAULT AS IDENTITY] key. *)
Record sequences := {
  customers_seq : Z;
  products_seq : Z;
  orders_seq : Z;
  order_items_seq : Z }.

Record store := { data : tables; identities : sequences }.

Definition empty_tables : tables :=
  {| customers := []; products := []; orders := []; order_items := [] |}.

Definition empty_store : store :=
  {| data := empty_tables;
     identities := {| customers_seq := 1; products_seq := 1;
                      orders_seq := 1; order_items_seq := 1 |} |}.

(** A column of an [INSERT] is either left to its default or given a
    value; a value is [None] for SQL [NULL]. *)
Inductive supplied (A : Type) :=
  | Default
  | Value (v : A).

Arguments Default {A}.
Arguments Value {A} v.

(** *** Column types *)

Definition not_null {A} (column : string) (v : option A) : result A :=
  match v with Some a => Ok a | None => Raise (NotNullViolation column) end.

(** [VARCHAR(n)]: a longer text is an error unless only spaces exceed
    [n], which are cut off. *)
Definition varchar (n : nat) (column : string) (s : string) : result string :=
  let l := chars s in
  if (length l <=? n)%nat then Ok s
  else if forallb (char_is " ") (skipn n l) then Ok (text (firstn n l))
  else Raise (DataError column).

Definition nullable {A} (check : A -> result A) (v : option A) : result (option A) :=
  match v with
  | Some a => a' ← check a; Ok (Some a')
  | None => Ok None
  end.

Definition bigint (column : string) (z : Z) : result Z :=
  if (int64_min <=? z) && (z <=? int64_max) then Ok z else Raise (DataError column).

Definition integer (column : string) (z : Z) : result Z :=
  if (- 2 ^ 31 <=? z) && (z <? 2 ^ 31) then Ok z else Raise (DataError column).

(** [NUMERIC(10,2)]: NaN is a value of the type; anything that rounds to
    eight or fewer integer digits fits.  The float is kept as sent. *)
Definition numeric_10_2 (column : string) (f : float) : result float :=
  if is_nan f || (PrimFloat.abs f <? 0x1.7d783fffae148p+26)%float then Ok f
  else Raise (DataError column).

(** [DATE], for the ISO text the pipeline sends. *)
Definition date_in (column : string) (s : string) : result string :=
  match strptime (chars s) [DY; DLit "-"; Dm; DLit "-"; Dd] with
  | Some _ => if matches_iso (chars s) then Ok s else Raise (DataError column)
  | None => Raise (DataError column)
  end.

(** *** Statements

    A statement maps the tables seen by the transaction and the
    sequences to the new sequences and either the new tables or an
    error.  A sequence value once drawn stays drawn. *)
Definition statement := tables -> sequences -> sequences * result tables.

Definition has_customer (t : tables) (id : Z) : bool :=
  existsb (fun r => customers.customer_id r =? id) (customers t).

Definition has_email (t : tables) (e : string) : bool :=
  existsb (fun r => String.eqb (customers.email r) e) (customers t).

Definition has_product (t : tables) (id : Z) : bool :=
  existsb (fun r => products.product_id r =? id) (products t).

Definition has_order (t : tables) (id : Z) : bool :=
  existsb (fun r => orders.order_id r =? id) (orders t).

Definition has_order_item (t : tables) (id : Z) : bool :=
  existsb (fun r => order_items.order_item_id r =? id) (order_items t).

Definition add_customer (r : customers.row) (t : tables) : tables :=
  {| customers := customers t ++ [r]; products := products t;
     orders := orders t; order_items := order_items t |}.

Definition add_product (r : products.row) (t : tables) : tables :=
  {| customers := customers t; products := products t ++ [r];
     orders := orders t; order_items := order_items t |}.

Definition add_order (r : orders.row) (t : tables) : tables :=
  {| customers := customers t; products := products t;
     orders := orders t ++ [r]; order_items := order_items t |}.

Definition add_order_item (r : order_items.row) (t : tables) : tables :=
  {| customers := customers t; products := products t;
     orders := orders t; order_items := order_items t ++ [r] |}.

Definition next_customer_id (id : supplied (option Z)) (q : sequences)
  : option Z * sequences :=
  match id with
  | Value v => (v, q)
  | Default =>
      (Some (customers_seq q),
       {| customers_seq := customers_seq q + 1; products_seq := products_seq q;
          orders_seq := orders_seq q; order_items_seq := order_items_seq q |})
  end.

Definition next_product_id (id : supplied (option Z)) (q : sequences)
  : option Z * sequences :=
  match id with
  | Value v => (v, q)
  | Default =>
      (Some (products_seq q),
       {| customers_seq := customers_seq q; products_seq := products_seq q + 1;
          orders_seq := orders_seq q; order_items_seq := order_items_seq q |})
  end.

Definition next_order_item_id (q : sequences) : Z * sequences :=
  (order_items_seq q,
   {| customers_seq := customers_seq q; products_seq := products_seq q;
      orders_seq := orders_seq q; order_items_seq := order_items_seq q + 1 |}).

(** [INSERT INTO customers (...) [OVERRIDING SYSTEM VALUE] VALUES (...)
    ON CONFLICT (email) DO NOTHING].  The row is checked against the
    column types and NOT NULL, then against the arbiter index on
    [email], and only then entered in the primary-key index. *)
Definition insert_customers
    (id : supplied (option Z))
    (first_name last_name email phone city registration_date : option string)
  : statement :=
  fun t q =>
    let '(id, q') := next_customer_id id q in
    (q',
     id ← not_null "customer_id" id ≫= bigint "customer_id";
     fn ← not_null "first_name" first_name ≫= varchar 50 "first_name";
     ln ← not_null "last_name" last_name ≫= varchar 50 "last_name";
     em ← not_null "email" email ≫= varchar 100 "email";
     ph ← nullable (varchar 20 "phone") phone;
     ci ← nullable (varchar 50 "city") city;
     rd ← nullable (date_in "registration_date") registration_date;
     if has_email t em then Ok t
     else if has_customer t id then Raise (UniqueViolation "customers_pkey")
     else Ok (add_customer
                {| customers.customer_id := id; customers.first_name := fn;
                   customers.last_name := ln; customers.email := em;
                   customers.phone := ph; customers.city := ci;
                   customers.registration_date := rd |} t)).

(** [INSERT INTO products (...) [OVERRIDING SYSTEM VALUE] VALUES (...)],
    with [ON CONFLICT DO NOTHING] when [ignore_conflict]. *)
Definition insert_products
    (ignore_conflict : bool)
    (id : supplied (option Z))
    (product_name category : option string) (price : option float)
    (stock_quantity : option Z)
  : statement :=
  fun t q =>
    let '(id, q') := next_product_id id q in
    (q',
     id ← not_null "product_id" id ≫= bigint "product_id";
     pn ← not_null "product_name" product_name ≫= varchar 100 "product_name";
     ca ← not_null "category" category ≫= varchar 50 "category";
     pr ← not_null "price" price ≫= numeric_10_2 "price";
     sq ← nullable (integer "stock_quantity") stock_quantity;
     if has_product t id then
       if ignore_conflict then Ok t else Raise (UniqueViolation "products_pkey")
     else Ok (add_product
                {| products.product_id := id; products.product_name := pn;
                   products.category := ca; products.price := pr;
                   products.stock_quantity := sq |} t)).

(** [INSERT INTO orders (order_id, customer_id, order_date, total_amount,
    status) OVERRIDING SYSTEM VALUE VALUES (...) ON CONFLICT (order_id)
    DO NOTHING]; the foreign key is checked for a row that is entered. *)
Definition insert_orders
    (order_id customer_id : option Z) (order_date : option string)
    (total_amount : option float) (status : supplied (option string))
  : statement :=
  fun t q =>
    (q,
     id ← not_null "order_id" order_id ≫= bigint "order_id";
     cu ← not_null "customer_id" customer_id ≫= bigint "customer_id";
     da ← not_null "order_date" order_date ≫= date_in "order_date";
     to ← not_null "total_amount" total_amount ≫= numeric_10_2 "total_amount";
     st ← nullable (varchar 20 "status")
            (match status with Default => Some "Pending" | Value v => v end);
     if has_order t id then Ok t
     else if has_customer t cu then
       Ok (add_order
             {| orders.order_id := id; orders.customer_id := cu;
                orders.order_date := da; orders.total_amount := to;
                orders.status := st |} t)
     else Raise (ForeignKeyViolation "fk_orders_customer")).

(** [INSERT INTO order_items (order_id, product_id, quantity, unit_price,
    subtotal) VALUES (...)] *)
Definition insert_order_items
    (order_id product_id quantity : option Z) (unit_price subtotal : option float)
  : statement :=
  fun t q =>
    let '(id, q') := next_order_item_id q in
    (q',
     id ← bigint "order_item_id" id;
     oi ← not_null "order_id" order_id ≫= bigint "order_id";
     pi ← not_null "product_id" product_id ≫= bigint "product_id";
     qu ← not_null "quantity" quantity ≫= integer "quantity";
     up ← not_null "unit_price" unit_price ≫= numeric_10_2 "unit_price";
     su ← not_null "subtotal" subtotal ≫= numeric_10_2 "subtotal";
     if has_order_item t id then Raise (UniqueViolation "order_items_pkey")
     else if negb (has_order t oi) then Raise (ForeignKeyViolation "fk_items_order")
     else if negb (has_product t pi) then Raise (ForeignKeyViolation "fk_items_product")
     else Ok (add_order_item
                {| order_items.order_item_id := id; order_items.order_id := oi;
                   order_items.product_id := pi; order_items.quantity := qu;
                   order_items.unit_price := up; order_items.subtotal := su |} t)).

(** *** Connections

    A psycopg2 connection runs every statement in the open transaction.
    A failed statement aborts the transaction: nothing more runs in it,
    and the next [commit] discards it. *)
Record connection := {
  committed : tables;
  pending : tables;
  aborted : bool;
  seqs : sequences }.

Definition connect (s : store) : connection :=
  {| committed := data s; pending := data s; aborted := false;
     seqs := identities s |}.

(** [cur.execute(sql, values)] *)
Definition execute (stmt : statement) (c : connection) : connection * result unit :=
  if aborted c then (c, Raise InFailedSqlTransaction)
  else
    let '(q, r) := stmt (pending c) (seqs c) in
    match r with
    | Ok t =>
        ({| committed := committed c; pending := t; aborted := false; seqs := q |},
         Ok tt)
    | Raise e =>
        ({| committed := committed c; pending := pending c; aborted := true;
            seqs := q |},
         Raise e)
    end.

(** [execute_batch(cur, sql, rows, page_size)]: the statements run one
    after the other, whatever the page size, up to the first error. *)
Fixpoint execute_batch (stmts : list statement) (c : connection)
  : connection * result unit :=
  match stmts with
  | [] => (c, Ok tt)
  | stmt :: stmts' =>
      match execute stmt c with
      | (c', Ok _) => execute_batch stmts' c'
      | (c', Raise e) => (c', Raise e)
      end
  end.

(** [cur.execute("SELECT ..."); cur.fetchall()] *)
Definition fetchall {A} (query : tables -> A) (c : connection)
  : connection * result A :=
  if aborted c then (c, Raise InFailedSqlTransaction)
  else (c, Ok (query (pending c))).

(** [conn.commit()] *)
Definition commit (c : connection) : connection :=
  let t := if aborted c then committed c else pending c in
  {| committed := t; pending := t; aborted := false; seqs := seqs c |}.

(** What is left in the store once the connection is closed. *)
Definition disconnect (c : connection) : store :=
  {| data := committed c; identities := seqs c |}.

(** ** DataFrames *)

(** A row maps column names to cells; a frame lists its columns and
    holds its rows in index order. *)
Abbreviation row := (gmap string cell).

Record frame := { columns : list string; rows : list row }.

(** [c in df.columns] *)
Definition has_column (c : string) (df : frame) : bool :=
  existsb (String.eqb c) (columns df).

(** [df[c] = ...], the new value computed row by row. *)
Definition assign (c : string) (g : row -> cell) (df : frame) : frame :=
  {| columns := if has_column c df then columns df else columns df ++ [c];
     rows := map (fun r => <[c := g r]> r) (rows df) |}.

Definition with_rows (df : frame) (l : list row) : frame :=
  {| columns := columns df; rows := l |}.

(** Equality of two cells as pandas compares keys: missing values are
    all alike, and so are the two zeros. *)
Definition cell_eqb (a b : cell) : bool :=
  match a, b with
  | VInt x, VInt y => x =? y
  | VFloat x, VFloat y => (is_nan x && is_nan y) || (x =? y)%float
  | VStr x, VStr y => String.eqb x y
  | VNone, VNone => true
  | VNone, VFloat y => is_nan y
  | VFloat x, VNone => is_nan x
  | _, _ => false
  end.

Definition same_on (cols : list string) (r1 r2 : row) : bool :=
  forallb (fun c => cell_eqb (r1 !!! c) (r2 !!! c)) cols.

(** [drop_duplicates(keep="first")] for the row comparison [same]: a row
    stays, and the later rows like it go. *)
Fixpoint drop_duplicates {A} (same : A -> A -> bool) (l : list A) : list A :=
  match l with
  | [] => []
  | x :: l' => x :: filter (fun y => negb (same x y)) (drop_duplicates same l')
  end.

(** [df.dropna(subset=cols)] *)
Definition dropna (cols : list string) (l : list row) : list row :=
  filter (fun r => forallb (fun c => notna (r !!! c)) cols) l.

(** [left.merge(right[[key, c]], on=key, how="left")]: every left row,
    in order, once per right row with the same key, and once with a
    missing [c] when there is none. *)
Definition merge_left (key c : string) (left right : list row) : list row :=
  flat_map
    (fun r =>
       match filter (fun k => cell_eqb (k !!! key) (r !!! key)) right with
       | [] => [<[c := NaN]> r]
       | ms => map (fun k => <[c := k !!! c]> r) ms
       end)
    left.

(** The aggregation ["first"] of a group: its first value that is not
    missing. *)
Definition first_valid (l : list cell) : cell :=
  match filter notna l with
  | c :: _ => c
  | [] => NaN
  end.

(** The aggregation ["sum"] of a float column: missing values are
    skipped. *)
Definition as_float (c : cell) : float :=
  match c with
  | VFloat f => f
  | VInt z => float_of_Z z
  | _ => nan
  end.

Definition series_sum (l : list cell) : float :=
  fold_left PrimFloat.add
    (filter (fun f => negb (is_nan f)) (map as_float l)) 0%float.

(** ** Configuration and input *)

Record Config := { batch_size : nat; country_code : string }.

Definition default_config : Config :=
  {| batch_size := 1000; country_code := "+91-" |}.

(** The three CSV files as [pd.read_csv] returns them. *)
Record files := {
  customers_file : frame;
  products_file : frame;
  sales_file : frame }.

Section Pipeline.

(** Library calls whose results are taken as given. *)

(** [str(x)] on a float. *)
Variable repr_float : float -> string.

(** [pd.to_numeric(text, errors="coerce")] on one string: the number, or
    [None] where the text is not one. *)
Variable parse_number : string -> option float.

(** [pd.to_datetime(s, dayfirst=hint, errors="coerce")]: the date, or
    [None] for [NaT] and for an exception. *)
Variable to_datetime : string -> option bool -> option date.

(** [str(x)] *)
Definition py_str (c : cell) : list ascii :=
  match c with
  | VNone => chars "None"
  | VInt z => chars (str_of_int z)
  | VFloat f => chars (repr_float f)
  | VStr s => chars s
  end.

(** [int(x)]: [None] stands for the exception ([float] NaN or infinity,
    [None], text that is not a run of digits). *)
Definition py_int (c : cell) : option Z :=
  match c with
  | VNone => None
  | VInt z => Some z
  | VFloat f => trunc_float f
  | VStr s =>
      let l := chars s in
      if negb (length l =? 0)%nat && forallb isdigit l
      then Some (int_of_digits l) else None
  end.

(** [float(x)] *)
Definition py_float (c : cell) : option float :=
  match c with
  | VNone => None
  | VInt z => Some (float_of_Z z)
  | VFloat f => Some f
  | VStr s => parse_number s
  end.

Definition clean_phone (num : cell) (country_code : string) : option string :=
  if isna num then None
  else
    let digits := digits_of (py_str num) in
    if (10 <=? length digits)%nat
    then Some (country_code ++ text (skipn (length digits - 10) digits))
    else None.

Definition clean_id (val : cell) : option Z :=
  if isna val then None
  else
    let digits := digits_of (py_str val) in
    match digits with
    | [] => None
    | _ => Some (int_of_digits digits)
    end.

Definition clean_category (cat : cell) : string :=
  if isna cat then "Unknown"
  else text (capitalize (lower (strip (py_str cat)))).

Definition clean_date (d : cell) : option string :=
  if isna d then None
  else
    let s := strip (py_str d) in
    match s with
    | [] => None
    | _ =>
        if matches_iso s then Some (text s)
        else
          match first_some (strptime s) explicit_formats with
          | Some dt => Some (strftime dt)
          | None =>
              let hint := _infer_dayfirst_from_string s in
              match to_datetime (text s) hint with
              | Some dt => Some (strftime dt)
              | None => None
              end
          end
    end.

Definition canonicalize_email (email : cell) : option string :=
  if isna email then None
  else
    let s := lower (strip (py_str email)) in
    let s := filter (fun a => negb (isspace a)) s in
    match s with
    | [] => None
    | _ => Some (text s)
    end.

(** [uuid.uuid4()]: the run's random numbers, in the order drawn. *)
Variable uuid4 : nat -> N.

Variable cfg : Config.

(** [synthesize_email(row)], given the number of draws made so far:
    the address and the new number of draws. *)
Definition synthesize_email (r : row) (n : nat) : result (string * nat) :=
  let cid := r !!! "customer_id" in
  if notna cid then
    match py_int cid with
    | Some z => Ok (placeholder_email (str_of_int z), n)
    | None => Raise (ValueError "int")
    end
  else Ok (placeholder_email (hex8 (uuid4 n)), S n).

Definition required_customers : list string :=
  ["first_name"; "last_name"; "email"; "phone"; "city"; "registration_date";
   "customer_id"].

Definition required_products : list string :=
  ["product_name"; "category"; "price"; "stock_quantity"].

Definition required_sales : list string :=
  ["transaction_id"; "transaction_date"; "customer_id"; "product_id";
   "quantity"; "unit_price"].

Definition assert_required_columns
    (df : frame) (required : list string) (df_name : string) : result unit :=
  match filter (fun c => negb (has_column c df)) required with
  | [] => Ok tt
  | missing => Raise (MissingColumns df_name missing)
  end.

(** ** BLOCK 3: [FlexiMartETL] *)

(** The working frames of the ETL object. *)
Record FlexiMartETL := {
  df_customers : frame;
  df_products : frame;
  df_sales : frame }.

Definition extract (f : files) : result FlexiMartETL :=
  assert_required_columns (customers_file f) required_customers "customers_raw.csv" ;;
  assert_required_columns (products_file f) required_products "products_raw.csv" ;;
  assert_required_columns (sales_file f) required_sales "sales_raw.csv" ;;
  Ok {| df_customers := customers_file f; df_products := products_file f;
        df_sales := sales_file f |}.

(** The row-wise [apply] that fills the missing addresses, top to
    bottom. *)
Fixpoint fill_emails (l : list row) (n : nat) : result (list row * nat) :=
  match l with
  | [] => Ok ([], n)
  | r :: l' =>
      match r !!! "email" with
      | VNone =>
          '(e, n1) ← synthesize_email r n;
          '(l1, n2) ← fill_emails l' n1;
          Ok (<["email" := VStr e]> r :: l1, n2)
      | e =>
          '(l1, n2) ← fill_emails l' n;
          Ok (<["email" := e]> r :: l1, n2)
      end
  end.

Definition email_eqb (r1 r2 : row) : bool :=
  cell_eqb (r1 !!! "email") (r2 !!! "email").

Definition transform_customers (df : frame) (n : nat) : result (frame * nat) :=
  let df := assign "customer_id" (fun r => of_id (clean_id (r !!! "customer_id"))) df in
  let df := assign "email" (fun r => of_text (canonicalize_email (r !!! "email"))) df in
  '(l, n') ← fill_emails (rows df) n;
  let df := with_rows df l in
  let df := assign "phone"
              (fun r => of_text (clean_phone (r !!! "phone") (country_code cfg))) df in
  let df := assign "registration_date"
              (fun r => of_text (clean_date (r !!! "registration_date"))) df in
  Ok (with_rows df (drop_duplicates email_eqb (rows df)), n').

(** [pd.to_numeric(x, errors="coerce")] on one cell. *)
Definition to_numeric (c : cell) : cell :=
  match c with
  | VNone => NaN
  | VInt z => VInt z
  | VFloat f => VFloat f
  | VStr s => match parse_number s with Some f => VFloat f | None => NaN end
  end.

(** [pd.to_numeric(col, errors="coerce").fillna(0.0).astype(float)] *)
Definition coerce_float (c : cell) : float :=
  match to_numeric c with
  | VInt z => float_of_Z z
  | VFloat f => fillna 0%float f
  | _ => 0%float
  end.

(** [pd.to_numeric(col, errors="coerce").fillna(0).astype(int)] *)
Definition coerce_int (c : cell) : result Z :=
  match to_numeric c with
  | VInt z => Ok z
  | VFloat f =>
      match astype_int (fillna 0%float f) with
      | Some z => Ok z
      | None => Raise (ValueError "astype")
      end
  | _ => Ok 0
  end.

(** A column assignment whose cast can raise. *)
Fixpoint assign_rows (c : string) (g : row -> result cell) (l : list row)
  : result (list row) :=
  match l with
  | [] => Ok []
  | r :: l' =>
      v ← g r;
      l1 ← assign_rows c g l';
      Ok (<[c := v]> r :: l1)
  end.

Definition try_assign (c : string) (g : row -> result cell) (df : frame)
  : result frame :=
  l ← assign_rows c g (rows df);
  Ok {| columns := if has_column c df then columns df else columns df ++ [c];
        rows := l |}.

Definition transform_products (df : frame) : result frame :=
  let df := assign "price" (fun r => VFloat (coerce_float (r !!! "price"))) df in
  df ← try_assign "stock_quantity"
         (fun r => z ← coerce_int (r !!! "stock_quantity"); Ok (VInt z)) df;
  let df := assign "category" (fun r => VStr (clean_category (r !!! "category"))) df in
  let df := with_rows df (drop_duplicates (same_on (columns df)) (rows df)) in
  Ok (if has_column "product_id" df
      then assign "product_id" (fun r => of_id (clean_id (r !!! "product_id"))) df
      else df).

Definition transform_sales_initial (customers_df df : frame) : result frame :=
  let df := assign "customer_id" (fun r => of_id (clean_id (r !!! "customer_id"))) df in
  let df := assign "product_id" (fun r => of_id (clean_id (r !!! "product_id"))) df in
  let df := assign "transaction_id" (fun r => of_id (clean_id (r !!! "transaction_id"))) df in
  let df := with_rows df (dropna ["customer_id"; "product_id"] (rows df)) in
  let df := with_rows df (drop_duplicates (same_on (columns df)) (rows df)) in
  let df := assign "transaction_date"
              (fun r => of_text (clean_date (r !!! "transaction_date"))) df in
  df ← try_assign "quantity"
         (fun r => z ← coerce_int (r !!! "quantity"); Ok (VInt z)) df;
  let df := assign "unit_price" (fun r => VFloat (coerce_float (r !!! "unit_price"))) df in
  let df := assign "subtotal"
              (fun r => VFloat (as_float (r !!! "quantity") * as_float (r !!! "unit_price"))%float)
              df in
  (* the merge renames a column both sides have, and the lookup of
     "email" that follows fails *)
  guard_or (negb (has_column "email" df)) (KeyError "email") ;;
  let df := {| columns := columns df ++ ["email"];
               rows := merge_left "customer_id" "email" (rows df) (rows customers_df) |} in
  Ok (assign "email" (fun r => of_text (canonicalize_email (r !!! "email"))) df).

(** ** BLOCK 4: [Loader] *)

(** A loader step runs against the open connection. *)
Definition io (A : Type) : Type := connection -> connection * result A.

#[local] Instance io_ret : MRet io := fun A a c => (c, Ok a).
#[local] Instance io_bind : MBind io :=
  fun A B f m c =>
    match m c with
    | (c', Ok a) => f a c'
    | (c', Raise e) => (c', Raise e)
    end.

Definition lift {A} (r : result A) : io A := fun c => (c, r).

Definition do_commit : io unit := fun c => (commit c, Ok tt).

(** [try: ... except Exception: log] *)
Definition attempt (m : io unit) : io unit :=
  fun c => (fst (m c), Ok tt).

(** The value psycopg2 sends for a cell bound to a text or date
    column. *)
Definition sql_text (c : cell) : option string :=
  match c with
  | VNone => None
  | VStr s => Some s
  | VInt z => Some (str_of_int z)
  | VFloat f => Some (repr_float f)
  end.

Definition int_of (what : string) (c : cell) : result Z :=
  match py_int c with Some z => Ok z | None => Raise (ValueError what) end.

Definition float_of (what : string) (c : cell) : result float :=
  match py_float c with Some f => Ok f | None => Raise (ValueError what) end.

(** The dict comprehension of [fetch_customer_id_by_email] over the
    rows of [customers]: a later row replaces an earlier one with the
    same key.  The key [None] is left out, as no lookup uses it. *)
Definition email_to_id (rows : list customers.row) : gmap string Z :=
  fold_left
    (fun m r =>
       match canonicalize_email (VStr (customers.email r)) with
       | Some e => <[e := customers.customer_id r]> m
       | None => m
       end)
    rows ∅.

Definition fetch_customer_id_by_email : io (gmap string Z) :=
  fetchall (fun t => email_to_id (customers t)).

Definition upsert_customers (df : frame) : io unit :=
  let with_id := filter (fun r => notna (r !!! "customer_id")) (rows df) in
  let without_id := filter (fun r => isna (r !!! "customer_id")) (rows df) in
  rows_with ← lift (mapM
    (fun r =>
       id ← int_of "customer_id" (r !!! "customer_id");
       Ok (insert_customers (Value (Some id))
             (sql_text (r !!! "first_name")) (sql_text (r !!! "last_name"))
             (sql_text (r !!! "email")) (sql_text (r !!! "phone"))
             (sql_text (r !!! "city")) (sql_text (r !!! "registration_date"))))
    with_id);
  let rows_without :=
    map (fun r =>
           insert_customers Default
             (sql_text (r !!! "first_name")) (sql_text (r !!! "last_name"))
             (sql_text (r !!! "email")) (sql_text (r !!! "phone"))
             (sql_text (r !!! "city")) (sql_text (r !!! "registration_date")))
        without_id in
  execute_batch rows_with ;;
  execute_batch rows_without ;;
  do_commit.

(** The loop over the rows with a missing address: each gets a fresh
    placeholder. *)
Fixpoint fill_stubs (l : list row) (n : nat) : list row * list string * nat :=
  match l with
  | [] => ([], [], n)
  | r :: l' =>
      if isna (r !!! "email") then
        let new_email := placeholder_email (hex8 (uuid4 n)) in
        let '(l1, stubs, n') := fill_stubs l' (S n) in
        (<["email" := VStr new_email]> r :: l1, new_email :: stubs, n')
      else
        let '(l1, stubs, n') := fill_stubs l' n in
        (r :: l1, stubs, n')
  end.

Definition insert_stub (em : string) : statement :=
  insert_customers Default (Some "Guest") (Some "Customer") (Some em)
    None None None.

Fixpoint insert_stubs (ems : list string) : io unit :=
  match ems with
  | [] => mret tt
  | em :: ems' => attempt (execute (insert_stub em)) ;; insert_stubs ems'
  end.

(** [sales_df["email"].map(email_to_db_cid)] on one cell. *)
Definition map_email (m : gmap string Z) (c : cell) : cell :=
  match c with
  | VStr s => of_id (m !! s)
  | _ => NaN
  end.

(** [set(stub_emails)] is walked in the order of first occurrence. *)
Definition remap_sales_customer_ids (sales_df : frame) (n : nat)
  : io (frame * nat) :=
  email_to_db_cid ← fetch_customer_id_by_email;
  '(sales_df, email_to_db_cid, n) ←
    (if existsb (fun r => isna (r !!! "email")) (rows sales_df) then
       let '(l, stub_emails, n') := fill_stubs (rows sales_df) n in
       insert_stubs (remove_dups stub_emails) ;;
       do_commit ;;
       email_to_db_cid ← fetch_customer_id_by_email;
       mret (with_rows sales_df l, email_to_db_cid, n')
     else mret (sales_df, email_to_db_cid, n));
  let sales_df :=
    assign "customer_id" (fun r => map_email email_to_db_cid (r !!! "email")) sales_df in
  mret (with_rows sales_df (dropna ["customer_id"] (rows sales_df)), n).

Definition load_products (df : frame) : io unit :=
  let has_pid := has_column "product_id" df in
  let with_id :=
    if has_pid then filter (fun r => notna (r !!! "product_id")) (rows df) else [] in
  let without_id :=
    if has_pid then filter (fun r => isna (r !!! "product_id")) (rows df) else rows df in
  rows_with ← lift (mapM
    (fun r =>
       id ← (if negb (isna (r !!! "product_id"))
             then z ← int_of "product_id" (r !!! "product_id"); Ok (Some z)
             else Ok None);
       pr ← float_of "price" (r !!! "price");
       sq ← int_of "stock_quantity" (r !!! "stock_quantity");
       Ok (insert_products true (Value id)
             (sql_text (r !!! "product_name")) (sql_text (r !!! "category"))
             (Some pr) (Some sq)))
    with_id);
  rows_without ← lift (mapM
    (fun r =>
       pr ← float_of "price" (r !!! "price");
       sq ← int_of "stock_quantity" (r !!! "stock_quantity");
       Ok (insert_products false Default
             (sql_text (r !!! "product_name")) (sql_text (r !!! "category"))
             (Some pr) (Some sq)))
    without_id);
  execute_batch rows_with ;;
  execute_batch rows_without ;;
  do_commit.

(** The key of a sales line in [groupby("transaction_id")]: the
    integer [clean_id] left in the column; a line with a missing id is
    in no group. *)
Definition group_key (r : row) : option Z :=
  match r !!! "transaction_id" with
  | VInt z => Some z
  | _ => None
  end.

Definition in_group (k : Z) (r : row) : bool :=
  match group_key r with Some z => z =? k | None => false end.

(** [sales_df.groupby("transaction_id").agg({"customer_id": "first",
    "transaction_date": "first", "subtotal": "sum"}).reset_index()]
    with its columns renamed: one row per key, keys ascending. *)
Definition build_order (l : list row) (k : Z) : row :=
  let g := filter (in_group k) l in
  {[ "order_id" := VInt k;
     "customer_id" := first_valid (map (fun r => r !!! "customer_id") g);
     "order_date" := first_valid (map (fun r => r !!! "transaction_date") g);
     "total_amount" := VFloat (series_sum (map (fun r => r !!! "subtotal") g)) ]}.

Definition build_orders (l : list row) : list row :=
  map (build_order l) (merge_sort Z.le (remove_dups (omap group_key l))).

Definition order_statement (r : row) : result statement :=
  oid ← int_of "order_id" (r !!! "order_id");
  cid ← int_of "customer_id" (r !!! "customer_id");
  tot ← float_of "total_amount" (r !!! "total_amount");
  Ok (insert_orders (Some oid) (Some cid) (sql_text (r !!! "order_date"))
        (Some tot) (Value (Some "Completed"))).

Definition item_statement (r : row) : result statement :=
  oid ← int_of "order_id" (r !!! "transaction_id");
  pid ← int_of "product_id" (r !!! "product_id");
  qty ← int_of "quantity" (r !!! "quantity");
  up ← float_of "unit_price" (r !!! "unit_price");
  st ← float_of "subtotal" (r !!! "subtotal");
  Ok (insert_order_items (Some oid) (Some pid) (Some qty) (Some up) (Some st)).

(** [order_items["order_id"].isin(existing_orders)] *)
Definition isin_orders (existing : list Z) (r : row) : bool :=
  match group_key r with
  | Some z => existsb (Z.eqb z) existing
  | None => false
  end.

Definition load_orders_and_items (sales_df : frame) : io (nat * nat) :=
  let orders_df := build_orders (rows sales_df) in
  let order_items_df := rows sales_df in
  order_rows ← lift (mapM order_statement orders_df);
  execute_batch order_rows ;;
  do_commit ;;
  let loaded_orders := length order_rows in
  existing_orders ← fetchall (fun t => map orders.order_id (orders t));
  let order_items_df := filter (isin_orders existing_orders) order_items_df in
  item_rows ← lift (mapM item_statement order_items_df);
  execute_batch item_rows ;;
  do_commit ;;
  mret (loaded_orders, length item_rows).

(** ** BLOCK 5: orchestration *)

(** How a run ends: the exception it raised, if any, the store it
    leaves, and whether [loader.open()] was reached. *)
Record outcome := {
  raised : option exn;
  final : store;
  opened : bool }.

(** The extract and transform stages of [run]; the first draw of
    [uuid4] is the run id. *)
Definition extract_transform (f : files) : result (FlexiMartETL * nat) :=
  etl ← extract f;
  '(customers_df, n) ← transform_customers (df_customers etl) 1;
  products_df ← transform_products (df_products etl);
  sales_df ← transform_sales_initial customers_df (df_sales etl);
  Ok ({| df_customers := customers_df; df_products := products_df;
         df_sales := sales_df |}, n).

(** The load stages of [run]. *)
Definition load (etl : FlexiMartETL) (n : nat) : io unit :=
  upsert_customers (df_customers etl) ;;
  load_products (df_products etl) ;;
  '(remapped_sales, _) ← remap_sales_customer_ids (df_sales etl) n;
  load_orders_and_items remapped_sales ;;
  mret tt.

(** [run()].  [loader.open()] connects and creates the tables that do
    not exist yet; [loader.close()], in the [finally] clause, commits
    and closes the connection if there is one. *)
Definition run (f : files) (s : store) : outcome :=
  match extract_transform f with
  | Raise e => {| raised := Some e; final := s; opened := false |}
  | Ok (etl, n) =>
      let '(c, r) := load etl n (commit (connect s)) in
      {| raised := match r with Ok _ => None | Raise e => Some e end;
         final := disconnect (commit c);
         opened := true |}
  end.

(** * Vocabulary of the properties *)

(** Every order item points to an order and a product of the store, and
    every order to a customer of the store. *)
Definition referential_integrity (t : tables) : Prop :=
  (forall i, i ∈ order_items t ->
     (exists o, o ∈ orders t /\ orders.order_id o = order_items.order_id i) /\
     (exists p, p ∈ products t /\ products.product_id p = order_items.product_id i)) /\
  (forall o, o ∈ orders t ->
     exists c, c ∈ customers t /\ customers.customer_id c = orders.customer_id o).

(** The orders of [t] that were not in [t0] carry the status
    ['Completed']. *)
Definition new_orders_completed (t0 t : tables) : Prop :=
  forall o, o ∈ orders t -> o ∈ orders t0 \/ orders.status o = Some "Completed".

(** Some required column is absent from one of the three files. *)
Definition missing_required_column (f : files) : Prop :=
  (exists c, c ∈ required_customers /\ has_column c (customers_file f) = false) \/
  (exists c, c ∈ required_products /\ has_column c (products_file f) = false) \/
  (exists c, c ∈ required_sales /\ has_column c (sales_file f) = false).


(** The number of rows of the four tables. *)
Definition row_counts (s : store) : nat * nat * nat * nat :=
  (length (customers (data s)), length (products (data s)),
   length (orders (data s)), length (order_items (data s))).

(** A sales line that reaches the resolver without an address. *)
Definition lacks_email (r : row) : bool := isna (r !!! "email").

(** The number of lines without an address among the first [i]. *)
Definition absent_before (l : list row) (i : nat) : nat :=
  length (filter (fun r => lacks_email r) (take i l)).

(** The placeholder the resolver gives line [i] of [l] when [n] draws
    of [uuid4] were made before. *)
Definition stub_email (n : nat) (l : list row) (i : nat) : string :=
  placeholder_email (hex8 (uuid4 (n + absent_before l i))).

(** The lines the resolver keeps under the mapping [m]: those whose
    address [m] knows, each with the customer id [m] gives. *)
Definition resolved_lines (m : gmap string Z) (l : list row) : list row :=
  dropna ["customer_id"]
    (map (fun r => <["customer_id" := map_email m (r !!! "email")]> r) l).

(** The frame the resolver returns for the lines [l]. *)
Definition resolved_frame (sales_df : frame) (m : gmap string Z) (l : list row)
  : frame :=
  {| columns := if has_column "customer_id" sales_df then columns sales_df
                else columns sales_df ++ ["customer_id"];
     rows := resolved_lines m l |}.

(** The customers frame as [transform_customers] has it just before
    the call of [drop_duplicates]. *)
Definition cleaned_customers (df : frame) (n : nat) : result (frame * nat) :=
  let df := assign "customer_id" (fun r => of_id (clean_id (r !!! "customer_id"))) df in
  let df := assign "email" (fun r => of_text (canonicalize_email (r !!! "email"))) df in
  '(l, n') ← fill_emails (rows df) n;
  let df := with_rows df l in
  let df := assign "phone"
              (fun r => of_text (clean_phone (r !!! "phone") (country_code cfg))) df in
  let df := assign "registration_date"
              (fun r => of_text (clean_date (r !!! "registration_date"))) df in
  Ok (df, n').



(** Whenever the statement succeeds, [I] holds of the tables it
    leaves. *)
Definition establishes (I : tables -> Prop) (stmt : statement) : Prop :=
  forall t q q' t', stmt t q = (q', Ok t') -> I t'.

(** A character that canonicalisation leaves alone. *)
Definition plain (a : ascii) : bool := negb (isupper a) && negb (isspace a).

(** A minimal guest row. *)
Definition is_guest (em : string) (r : customers.row) : Prop :=
  customers.first_name r = "Guest" /\ customers.last_name r = "Customer" /\
  customers.email r = em /\ customers.phone r = None /\
  customers.city r = None /\ customers.registration_date r = None.

(** The customers and the sales lines as the transforms leave them. *)
Definition customers_after_transform (f : files) : list row :=
  match extract_transform f with
  | Ok (etl, _) => rows (df_customers etl)
  | Raise _ => []
  end.


(** A property of connections that a loader step keeps. *)
Definition keeps {A} (P : connection -> Prop) (m : io A) : Prop :=
  forall c, P c -> P (fst (m c)).

(** An invariant of the tables holds of a connection when it holds of
    what is committed and of what the transaction sees. *)
Definition holds (I : tables -> Prop) (c : connection) : Prop :=
  I (committed c) /\ I (pending c).

Definition statement_keeps (I : tables -> Prop) (stmt : statement) : Prop :=
  forall t q q' t', I t -> stmt t q = (q', Ok t') -> I t'.

(** The statements the loader sends. *)
Inductive loader_statement : statement -> Prop :=
  | ls_customers id fn ln em ph ci rd :
      loader_statement (insert_customers id fn ln em ph ci rd)
  | ls_products ig id pn ca pr sq :
      loader_statement (insert_products ig id pn ca pr sq)
  | ls_orders oid cid da tot :
      loader_statement (insert_orders oid cid da tot (Value (Some "Completed")))
  | ls_order_items oid pid qty up st :
      loader_statement (insert_order_items oid pid qty up st).

(** A text that neither starts nor ends with whitespace. *)
Definition trimmed (l : list ascii) : Prop :=
  match l with [] => True | a :: _ => isspace a = false end /\
  match rev l with [] => True | b :: _ => isspace b = false end.

(** The rows of [t0] are still in [t], in their places: [t] has the
    rows of [t0] and then, possibly, more. *)
Definition extends (t0 t : tables) : Prop :=
  customers t0 `prefix_of` customers t /\
  products t0 `prefix_of` products t /\
  orders t0 `prefix_of` orders t /\
  order_items t0 `prefix_of` order_items t.

(** The primary keys of the four tables and the unique column [email]
    hold no value twice. *)
Definition keys_unique (t : tables) : Prop :=
  NoDup (map customers.customer_id (customers t)) /\
  NoDup (map customers.email (customers t)) /\
  NoDup (map products.product_id (products t)) /\
  NoDup (map orders.order_id (orders t)) /\
  NoDup (map order_items.order_item_id (order_items t)).

(** A statement that fails whatever the tables hold. *)
Definition always_raises (stmt : statement) : Prop :=
  forall t q, exists q' e, stmt t q = (q', Raise e).

(** The line has a transaction id. *)
Definition has_transaction_id (r : row) : bool :=
  match group_key r with Some _ => true | None => false end.

(** ** Example inputs *)

(** In the closed examples the library calls are fixed as follows.  No
    example holds a float where text is expected, text where a number
    is expected, or a date outside the explicit formats, so none of the
    three is ever consulted; [uuid4] draws 0, 1, 2, ... *)
Definition ex_repr_float : float -> string := fun _ => "".
Definition ex_parse_number : string -> option float := fun _ => None.
Definition ex_to_datetime : string -> option bool -> option date := fun _ _ => None.
Definition ex_uuid4 : nat -> N := N.of_nat.

Definition customer_ann : row :=
  list_to_map
    [("customer_id", VInt 5); ("first_name", VStr "Ann"); ("last_name", VStr "Lee");
     ("email", VStr "Ann@X.com"); ("phone", VStr "98765 43210");
     ("city", VStr "Pune"); ("registration_date", VStr "2023-01-15")].

Definition product_pen : row :=
  list_to_map
    [("product_name", VStr "Pen"); ("category", VStr "office");
     ("price", VFloat 2.5); ("stock_quantity", VInt 10)].

Definition sale (transaction_id customer_id : Z) (transaction_date : cell) : row :=
  list_to_map
    [("transaction_id", VInt transaction_id); ("transaction_date", transaction_date);
     ("customer_id", VInt customer_id); ("product_id", VInt 1);
     ("quantity", VInt 2); ("unit_price", VFloat 2.5)].

Definition shop_with_sales (sales : list row) : files :=
  {| customers_file := {| columns := required_customers; rows := [customer_ann] |};
     products_file := {| columns := required_products; rows := [product_pen] |};
     sales_file := {| columns := required_sales; rows := sales |} |}.

(** One customer, one product without a source id, one sale. *)
Definition shop : files := shop_with_sales [sale 1 5 (VStr "2023-02-01")].



(** A product with a negative price. *)
Definition products_negative : frame :=
  {| columns := required_products;
     rows := [ <["price" := VFloat (-5)]> product_pen ] |}.

(** A sales line that carries an address no customer of the store has. *)
Definition sales_unknown_email : frame :=
  {| columns := required_sales ++ ["subtotal"; "email"];
     rows := [ <["email" := VStr "ghost@x.com"]>
               (<["subtotal" := VFloat 5]> (sale 3 5 (VStr "2023-02-01"))) ] |}.

(** The customers file without its [email] column. *)
Definition shop_without_email_column : files :=
  {| customers_file :=
       {| columns := ["first_name"; "last_name"; "phone"; "city";
                      "registration_date"; "customer_id"];
          rows := [delete "email" customer_ann] |};
     products_file := products_file shop;
     sales_file := sales_file shop |}.



(** * Properties *)

(** ** Reasoning about the monads *)

Lemma mapM_Ok_Forall2 {A B} (f : A -> result B) (l : list A) (k : list B) :
  mapM f l = Ok k -> Forall2 (fun x y => f x = Ok y) l k.
Proof.
  revert k. induction l as [|x l IH]; intros k H.
  - injection H as <-. constructor.
  - cbn in H. destruct (f x) as [y|e] eqn:Hx; [|discriminate].
    cbn in H. destruct (mapM f l) as [k'|e] eqn:Hl; [|discriminate].
    injection H as <-. constructor; [exact Hx|]. apply IH. reflexivity.
Qed.

Lemma mapM_Ok_Forall {A B} (P : B -> Prop) (f : A -> result B) l k :
  (forall x y, f x = Ok y -> P y) -> mapM f l = Ok k -> Forall P k.
Proof.
  intros Hf H. apply mapM_Ok_Forall2 in H.
  induction H; constructor; eauto.
Qed.

Lemma keeps_ret {A} P (a : A) : keeps P (mret a).
Proof. intros c H. exact H. Qed.

Lemma keeps_lift {A} P (r : result A) : keeps P (lift r).
Proof. intros c H. exact H. Qed.

Lemma keeps_bind {A B} P (m : io A) (f : A -> io B) :
  keeps P m -> (forall a, keeps P (f a)) -> keeps P (m ≫= f).
Proof.
  intros Hm Hf c H. unfold mbind, io_bind.
  specialize (Hm c H). destruct (m c) as [c' [a|e]]; cbn in *.
  - apply Hf. exact Hm.
  - exact Hm.
Qed.

Lemma keeps_attempt P (m : io unit) : keeps P m -> keeps P (attempt m).
Proof. intros Hm c H. apply Hm. exact H. Qed.

Lemma keeps_fetchall {A} P (query : tables -> A) : keeps P (fetchall query).
Proof. intros c H. unfold fetchall. destruct (aborted c); exact H. Qed.

Lemma keeps_commit I : keeps (holds I) do_commit.
Proof.
  intros c [H1 H2]. unfold do_commit, commit, holds; cbn.
  destruct (aborted c); split; assumption.
Qed.

Lemma keeps_execute I stmt :
  statement_keeps I stmt -> keeps (holds I) (execute stmt).
Proof.
  intros Hs c [H1 H2]. unfold execute.
  destruct (aborted c); [split; assumption|].
  destruct (stmt (pending c) (seqs c)) as [q [t|e]] eqn:E; cbn; split; try assumption.
  eapply Hs; eassumption.
Qed.

Lemma keeps_execute_batch I stmts :
  Forall (statement_keeps I) stmts -> keeps (holds I) (execute_batch stmts).
Proof.
  induction 1 as [|stmt stmts Hs _ IH]; intros c H; cbn; [exact H|].
  pose proof (keeps_execute I stmt Hs c H) as H1.
  destruct (execute stmt c) as [c' [[]|e]]; cbn in *.
  - apply IH. exact H1.
  - exact H1.
Qed.

Lemma result_bind_Ok {A B} (m : result A) (f : A -> result B) b :
  m ≫= f = Ok b -> exists a, m = Ok a /\ f a = Ok b.
Proof. destruct m as [a|e]; cbn; [eauto|discriminate]. Qed.

Lemma order_statement_loader r stmt :
  order_statement r = Ok stmt -> loader_statement stmt.
Proof.
  unfold order_statement. intros H.
  apply result_bind_Ok in H as (oid & _ & H).
  apply result_bind_Ok in H as (cid & _ & H).
  apply result_bind_Ok in H as (tot & _ & H).
  injection H as <-. constructor.
Qed.

Lemma item_statement_loader r stmt :
  item_statement r = Ok stmt -> loader_statement stmt.
Proof.
  unfold item_statement. intros H.
  apply result_bind_Ok in H as (oid & _ & H).
  apply result_bind_Ok in H as (pid & _ & H).
  apply result_bind_Ok in H as (qty & _ & H).
  apply result_bind_Ok in H as (up & _ & H).
  apply result_bind_Ok in H as (st & _ & H).
  injection H as <-. constructor.
Qed.

Section Invariant.

(** An invariant of the tables that every statement of the loader
    keeps is kept by every step of the loader. *)
Variable I : tables -> Prop.
Hypothesis I_kept : forall stmt, loader_statement stmt -> statement_keeps I stmt.

Lemma keeps_loader_batch stmts :
  Forall loader_statement stmts -> keeps (holds I) (execute_batch stmts).
Proof.
  intros H. apply keeps_execute_batch.
  eapply Forall_impl; [exact H|]. exact I_kept.
Qed.

Lemma keeps_upsert_customers df : keeps (holds I) (upsert_customers df).
Proof.
  unfold upsert_customers. intros c H. unfold mbind at 1, io_bind, lift.
  match goal with |- context [mapM ?f ?l] => destruct (mapM f l) as [sw|e] eqn:E end;
    [|exact H].
  revert c H. apply keeps_bind; [|intros _; apply keeps_bind; [|intros _; apply keeps_commit]].
  - apply keeps_loader_batch. eapply mapM_Ok_Forall; [|exact E].
    intros r stmt Hr. apply result_bind_Ok in Hr as (id & _ & Hr).
    injection Hr as <-. constructor.
  - apply keeps_loader_batch. apply Forall_forall. intros stmt Hin.
    apply list_elem_of_In, in_map_iff in Hin as (r & <- & _). constructor.
Qed.

Lemma keeps_load_products df : keeps (holds I) (load_products df).
Proof.
  unfold load_products. intros c H. unfold mbind at 1, io_bind, lift.
  match goal with |- context [mapM ?f ?l] => destruct (mapM f l) as [sw|e] eqn:E end;
    [|exact H].
  unfold mbind at 1.
  match goal with |- context [mapM ?f ?l] => destruct (mapM f l) as [so|e] eqn:E' end;
    [|exact H].
  revert c H. apply keeps_bind; [|intros _; apply keeps_bind; [|intros _; apply keeps_commit]].
  - apply keeps_loader_batch. eapply mapM_Ok_Forall; [|exact E].
    intros r stmt Hr. apply result_bind_Ok in Hr as (id & _ & Hr).
    apply result_bind_Ok in Hr as (pr & _ & Hr).
    apply result_bind_Ok in Hr as (sq & _ & Hr).
    injection Hr as <-. constructor.
  - apply keeps_loader_batch. eapply mapM_Ok_Forall; [|exact E'].
    intros r stmt Hr.
    apply result_bind_Ok in Hr as (pr & _ & Hr).
    apply result_bind_Ok in Hr as (sq & _ & Hr).
    injection Hr as <-. constructor.
Qed.

Lemma keeps_insert_stubs ems : keeps (holds I) (insert_stubs ems).
Proof.
  induction ems as [|em ems IH]; cbn [insert_stubs]; [apply keeps_ret|].
  apply keeps_bind; [|intros _; exact IH].
  apply keeps_attempt, keeps_execute, I_kept. constructor.
Qed.

Lemma keeps_remap sales_df n :
  keeps (holds I) (remap_sales_customer_ids sales_df n).
Proof.
  unfold remap_sales_customer_ids.
  apply keeps_bind; [apply keeps_fetchall|]. intros m0.
  apply keeps_bind.
  - destruct (existsb _ _); [|apply keeps_ret].
    destruct (fill_stubs _ _) as [[l stubs] n'].
    apply keeps_bind; [apply keeps_insert_stubs|]. intros _.
    apply keeps_bind; [apply keeps_commit|]. intros _.
    apply keeps_bind; [apply keeps_fetchall|]. intros m1. apply keeps_ret.
  - intros [[df m] k]. apply keeps_ret.
Qed.

Lemma keeps_load_orders_and_items sales_df :
  keeps (holds I) (load_orders_and_items sales_df).
Proof.
  unfold load_orders_and_items. intros c H. unfold mbind at 1, io_bind, lift.
  match goal with |- context [mapM ?f ?l] => destruct (mapM f l) as [so|e] eqn:E end;
    [|exact H].
  revert c H.
  apply keeps_bind.
  { apply keeps_loader_batch. eapply mapM_Ok_Forall; [|exact E].
    intros r stmt. apply order_statement_loader. }
  intros _. apply keeps_bind; [apply keeps_commit|]. intros _.
  apply keeps_bind; [apply keeps_fetchall|]. intros existing.
  intros c H. unfold mbind at 1, io_bind, lift.
  match goal with |- context [mapM ?f ?l] => destruct (mapM f l) as [si|e] eqn:E' end;
    [|exact H].
  revert c H.
  apply keeps_bind.
  { apply keeps_loader_batch. eapply mapM_Ok_Forall; [|exact E'].
    intros r stmt. apply item_statement_loader. }
  intros _. apply keeps_bind; [apply keeps_commit|]. intros _. apply keeps_ret.
Qed.

Lemma keeps_load etl n : keeps (holds I) (load etl n).
Proof.
  unfold load.
  apply keeps_bind; [apply keeps_upsert_customers|]. intros _.
  apply keeps_bind; [apply keeps_load_products|]. intros _.
  apply keeps_bind; [apply keeps_remap|]. intros [df k].
  apply keeps_bind; [apply keeps_load_orders_and_items|]. intros _.
  apply keeps_ret.
Qed.

(** Whatever the input and however the run ends, the store it leaves
    satisfies the invariant if the store it found did. *)
Lemma run_keeps f s : I (data s) -> I (data (final (run f s))).
Proof.
  intros H. unfold run.
  destruct (extract_transform f) as [[etl n]|e]; [|exact H].
  pose proof (keeps_load etl n (commit (connect s))) as K.
  destruct (load etl n (commit (connect s))) as [c r]. cbn in *.
  assert (holds I c) as [H1 H2].
  { apply K. unfold holds, commit, connect; cbn. split; exact H. }
  unfold commit. destruct (aborted c); assumption.
Qed.

End Invariant.

(** ** What a statement that succeeds does to the tables *)

Ltac bind_inv H :=
  repeat match type of H with
         | (_ ≫= _) = Ok _ =>
             let a := fresh "v" in let E := fresh "E" in
             apply result_bind_Ok in H as (a & E & H)
         end.

Lemma has_customer_spec t id :
  has_customer t id = true <->
  exists c, c ∈ customers t /\ customers.customer_id c = id.
Proof.
  unfold has_customer. rewrite existsb_exists. split.
  - intros (c & Hc & E). exists c. split; [apply list_elem_of_In, Hc | lia].
  - intros (c & Hc & E). exists c. split; [apply list_elem_of_In, Hc | lia].
Qed.

Lemma has_product_spec t id :
  has_product t id = true <->
  exists p, p ∈ products t /\ products.product_id p = id.
Proof.
  unfold has_product. rewrite existsb_exists. split.
  - intros (c & Hc & E). exists c. split; [apply list_elem_of_In, Hc | lia].
  - intros (c & Hc & E). exists c. split; [apply list_elem_of_In, Hc | lia].
Qed.

Lemma has_order_spec t id :
  has_order t id = true <->
  exists o, o ∈ orders t /\ orders.order_id o = id.
Proof.
  unfold has_order. rewrite existsb_exists. split.
  - intros (c & Hc & E). exists c. split; [apply list_elem_of_In, Hc | lia].
  - intros (c & Hc & E). exists c. split; [apply list_elem_of_In, Hc | lia].
Qed.

Lemma has_email_spec t e :
  has_email t e = true <->
  exists c, c ∈ customers t /\ customers.email c = e.
Proof.
  unfold has_email. rewrite existsb_exists. split.
  - intros (c & Hc & E). exists c. split; [apply list_elem_of_In, Hc|].
    apply String.eqb_eq, E.
  - intros (c & Hc & E). exists c. split; [apply list_elem_of_In, Hc|].
    apply String.eqb_eq, E.
Qed.

Lemma not_null_bind_Ok {A} c (x : option A) (chk : A -> result A) v :
  not_null c x ≫= chk = Ok v -> exists a, x = Some a /\ chk a = Ok v.
Proof. destruct x as [a|]; cbn; [eauto|discriminate]. Qed.

Lemma bigint_Ok c z v : bigint c z = Ok v -> v = z.
Proof. unfold bigint. destruct (_ && _); [congruence|discriminate]. Qed.

Ltac fields_inv :=
  repeat match goal with
         | H : not_null _ _ ≫= _ = Ok _ |- _ =>
             apply not_null_bind_Ok in H as (? & -> & H)
         | H : bigint _ _ = Ok _ |- _ => apply bigint_Ok in H; subst
         end.

Lemma insert_customers_Ok id fn ln em ph ci rd t q q' t' :
  insert_customers id fn ln em ph ci rd t q = (q', Ok t') ->
  t' = t \/
  exists r, t' = add_customer r t /\
            has_email t (customers.email r) = false /\
            has_customer t (customers.customer_id r) = false /\
            (exists e, em = Some e /\ varchar 100 "email" e = Ok (customers.email r)) /\
            (exists f, fn = Some f /\ varchar 50 "first_name" f = Ok (customers.first_name r)) /\
            (exists l, ln = Some l /\ varchar 50 "last_name" l = Ok (customers.last_name r)).
Proof.
  unfold insert_customers. destruct (next_customer_id id q) as [i q1].
  intros H. injection H as _ H. bind_inv H. fields_inv.
  match type of H with context [has_email t ?e] =>
    destruct (has_email t e) eqn:He; [left; congruence|] end.
  match type of H with context [has_customer t ?e] =>
    destruct (has_customer t e) eqn:Hc; [discriminate|] end.
  injection H as <-. right. eexists. split; [reflexivity|]. cbn.
  repeat split; eauto.
Qed.

Lemma insert_products_Ok ig id pn ca pr sq t q q' t' :
  insert_products ig id pn ca pr sq t q = (q', Ok t') ->
  t' = t \/
  exists r, t' = add_product r t /\ has_product t (products.product_id r) = false.
Proof.
  unfold insert_products. destruct (next_product_id id q) as [i q1].
  intros H. injection H as _ H. bind_inv H. fields_inv.
  match type of H with context [has_product t ?e] =>
    destruct (has_product t e) eqn:Hp end.
  - destruct ig; [left; congruence | discriminate].
  - injection H as <-. right. eexists. split; [reflexivity|]. exact Hp.
Qed.

Lemma insert_orders_Ok oid cid da tot st t q q' t' :
  insert_orders oid cid da tot st t q = (q', Ok t') ->
  t' = t \/
  exists r, t' = add_order r t /\
            has_order t (orders.order_id r) = false /\
            has_customer t (orders.customer_id r) = true /\
            oid = Some (orders.order_id r) /\
            cid = Some (orders.customer_id r) /\
            nullable (varchar 20 "status")
              (match st with Default => Some "Pending" | Value v => v end)
            = Ok (orders.status r).
Proof.
  unfold insert_orders. intros H. injection H as _ H. bind_inv H. fields_inv.
  match type of H with context [has_order t ?e] =>
    destruct (has_order t e) eqn:Ho; [left; congruence|] end.
  match type of H with context [has_customer t ?e] =>
    destruct (has_customer t e) eqn:Hc; [|discriminate] end.
  injection H as <-. right. eexists. split; [reflexivity|]. cbn.
  repeat split; eauto.
Qed.

Lemma insert_order_items_Ok oid pid qty up su t q q' t' :
  insert_order_items oid pid qty up su t q = (q', Ok t') ->
  exists r, t' = add_order_item r t /\
            has_order t (order_items.order_id r) = true /\
            has_product t (order_items.product_id r) = true /\
            oid = Some (order_items.order_id r) /\
            pid = Some (order_items.product_id r).
Proof.
  unfold insert_order_items. destruct (next_order_item_id q) as [i q1].
  intros H. injection H as _ H. bind_inv H. fields_inv.
  match type of H with context [has_order_item t ?e] =>
    destruct (has_order_item t e) eqn:Hi; [discriminate|] end.
  match type of H with context [has_order t ?e] =>
    destruct (has_order t e) eqn:Ho; [|discriminate] end.
  match type of H with context [has_product t ?e] =>
    destruct (has_product t e) eqn:Hp; [|discriminate] end.
  injection H as <-. eexists. split; [reflexivity|]. cbn.
  repeat split; eauto.
Qed.

(** ** Referential integrity *)

Lemma referential_integrity_kept stmt :
  loader_statement stmt -> statement_keeps referential_integrity stmt.
Proof.
  intros Hs t q q' t' [Hi Ho] H. destruct Hs.
  - apply insert_customers_Ok in H as [->|(r & -> & _)]; [split; assumption|].
    split; [exact Hi|]. intros o Hin. destruct (Ho o Hin) as (c & Hc & E).
    exists c. split; [|exact E]. cbn. apply elem_of_app. left. exact Hc.
  - apply insert_products_Ok in H as [->|(r & -> & _)]; [split; assumption|].
    split; [|exact Ho]. intros i Hin. destruct (Hi i Hin) as [H1 (p & Hp & E)].
    split; [exact H1|]. exists p. split; [|exact E].
    cbn. apply elem_of_app. left. exact Hp.
  - apply insert_orders_Ok in H as [->|(r & -> & _ & Hc & _)]; [split; assumption|].
    split.
    + intros i Hin. destruct (Hi i Hin) as [(o & Hin' & E) H2].
      split; [|exact H2]. exists o. split; [|exact E].
      cbn. apply elem_of_app. left. exact Hin'.
    + intros o Hin. cbn in Hin. apply elem_of_app in Hin as [Hin|Hin].
      * apply Ho, Hin.
      * apply list_elem_of_singleton in Hin as ->.
        apply has_customer_spec in Hc. exact Hc.
  - apply insert_order_items_Ok in H as (r & -> & Hord & Hprod & _).
    split; [|exact Ho]. intros i Hin. cbn in Hin.
    apply elem_of_app in Hin as [Hin|Hin]; [apply Hi, Hin|].
    apply list_elem_of_singleton in Hin as ->.
    apply has_order_spec in Hord. apply has_product_spec in Hprod.
    split; assumption.
Qed.

(** C1 (referential integrity of the final store).  Whatever the three
    files hold and however the run ends, if the store the run finds
    satisfies referential integrity then so does the store it leaves:
    every persisted order item has its [order_id] in [orders] and its
    [product_id] in [products], and every persisted order has its
    [customer_id] in [customers]. *)
Theorem run_referential_integrity f s :
  referential_integrity (data s) ->
  referential_integrity (data (final (run f s))).
Proof.
  apply run_keeps. exact referential_integrity_kept.
Qed.

(** ** Order status *)

Lemma new_orders_completed_kept t0 stmt :
  loader_statement stmt -> statement_keeps (new_orders_completed t0) stmt.
Proof.
  intros Hs t q q' t' Hinv H. destruct Hs.
  - apply insert_customers_Ok in H as [->|(r & -> & _)]; exact Hinv.
  - apply insert_products_Ok in H as [->|(r & -> & _)]; exact Hinv.
  - apply insert_orders_Ok in H as [->|(r & -> & _ & _ & _ & _ & Hst)];
      [exact Hinv|].
    intros o Hin. cbn in Hin. apply elem_of_app in Hin as [Hin|Hin].
    + apply Hinv, Hin.
    + apply list_elem_of_singleton in Hin as ->. right.
      vm_compute in Hst. injection Hst as Hst. symmetry. exact Hst.
  - apply insert_order_items_Ok in H as (r & -> & _). exact Hinv.
Qed.

(** C10 (status of the orders the pipeline inserts).  Every order row
    of the store a run leaves either was already in the store the run
    found or has the status ['Completed']: the schema default
    ['Pending'] is never what a row inserted by the pipeline carries. *)
Theorem run_orders_completed f s :
  new_orders_completed (data s) (data (final (run f s))).
Proof.
  apply (run_keeps (new_orders_completed (data s))).
  - intros stmt. apply new_orders_completed_kept.
  - intros o Hin. left. exact Hin.
Qed.

(** ** Dates *)

(** C5 (the exact-ISO fast path of [clean_date]).  A string of the shape
    YYYY-MM-DD is returned as it is: ["2023-07-04"] comes back
    unchanged, and so does ["2023-02-30"], although it is no calendar
    date ([strptime] with [%Y-%m-%d] rejects it). *)
Theorem clean_date_iso_shape_unchecked :
  clean_date (VStr "2023-07-04") = Some "2023-07-04" /\
  clean_date (VStr "2023-02-30") = Some "2023-02-30" /\
  strptime (chars "2023-02-30") [DY; DLit "-"; Dm; DLit "-"; Dd] = None.
Proof. repeat split; vm_compute; reflexivity. Qed.

(** ** Extraction *)

Lemma assert_required_columns_missing df required name c :
  c ∈ required -> has_column c df = false ->
  exists missing, assert_required_columns df required name
                  = Raise (MissingColumns name missing).
Proof.
  intros Hin Hc. unfold assert_required_columns.
  destruct (filter _ required) as [|m l] eqn:E.
  - exfalso. assert (c ∈ filter (fun c => negb (has_column c df)) required) as H.
    { apply list_elem_of_filter. split; [|exact Hin]. rewrite Hc. exact I. }
    rewrite E in H. inversion H.
  - eexists. reflexivity.
Qed.

Lemma assert_required_columns_result df required name :
  assert_required_columns df required name = Ok tt \/
  exists missing, assert_required_columns df required name
                  = Raise (MissingColumns name missing).
Proof.
  unfold assert_required_columns. destruct (filter _ required); eauto.
Qed.

(** C9 (a missing required column is fatal before any load).  When a
    required column is absent from one of the three files, [run] ends
    with the error of [assert_required_columns], the store is exactly
    the store it found, and the connection was never opened. *)
Theorem run_missing_column_fatal f s :
  missing_required_column f ->
  (exists name missing, raised (run f s) = Some (MissingColumns name missing)) /\
  final (run f s) = s /\
  opened (run f s) = false.
Proof.
  intros Hm.
  assert (exists name missing, extract f = Raise (MissingColumns name missing)) as (name & missing & E).
  { unfold extract.
    destruct (assert_required_columns_result (customers_file f) required_customers
                "customers_raw.csv") as [Ec|(m & Ec)]; rewrite Ec; cbn; [|eauto].
    destruct (assert_required_columns_result (products_file f) required_products
                "products_raw.csv") as [Ep|(m & Ep)]; rewrite Ep; cbn; [|eauto].
    destruct (assert_required_columns_result (sales_file f) required_sales
                "sales_raw.csv") as [Es|(m & Es)]; rewrite Es; cbn; [|eauto].
    exfalso. destruct Hm as [(c & Hin & Hc)|[(c & Hin & Hc)|(c & Hin & Hc)]].
    - destruct (assert_required_columns_missing _ _ "customers_raw.csv" c Hin Hc) as (m & E).
      congruence.
    - destruct (assert_required_columns_missing _ _ "products_raw.csv" c Hin Hc) as (m & E).
      congruence.
    - destruct (assert_required_columns_missing _ _ "sales_raw.csv" c Hin Hc) as (m & E).
      congruence. }
  unfold run, extract_transform. rewrite E. cbn. eauto.
Qed.

(** ** Frames *)

Lemma elem_of_map_inv {A B} (f : A -> B) (l : list A) (y : B) :
  y ∈ map f l <-> exists x, y = f x /\ x ∈ l.
Proof.
  rewrite list_elem_of_In, in_map_iff. split.
  - intros (x & <- & H). exists x. split; [reflexivity|apply list_elem_of_In, H].
  - intros (x & -> & H). exists x. split; [reflexivity|apply list_elem_of_In, H].
Qed.

Lemma elem_of_assign c g df r' :
  r' ∈ rows (assign c g df) <-> exists r, r' = <[c := g r]> r /\ r ∈ rows df.
Proof. unfold assign. cbn. apply elem_of_map_inv. Qed.

Lemma elem_of_assign_rows c g l l' r' :
  assign_rows c g l = Ok l' -> r' ∈ l' ->
  exists r v, r ∈ l /\ g r = Ok v /\ r' = <[c := v]> r.
Proof.
  revert l'. induction l as [|r l IH]; intros l' H Hin; cbn in H.
  - injection H as <-. inversion Hin.
  - apply result_bind_Ok in H as (v & Hv & H).
    apply result_bind_Ok in H as (l1 & Hl & H). injection H as <-.
    apply elem_of_cons in Hin as [->|Hin].
    + exists r, v. split; [left|]. split; [exact Hv|reflexivity].
    + destruct (IH l1 Hl Hin) as (r0 & v0 & H0 & Hg & E).
      exists r0, v0. split; [right; exact H0|]. split; assumption.
Qed.

Lemma elem_of_drop_duplicates {A} (same : A -> A -> bool) l x :
  x ∈ drop_duplicates same l -> x ∈ l.
Proof.
  induction l as [|y l IH]; cbn; intros H; [exact H|].
  apply elem_of_cons in H as [->|H]; [left|right].
  apply list_elem_of_filter in H as [_ H]. apply IH, H.
Qed.

(** ** Products *)

Lemma to_numeric_numeric c :
  (exists z, to_numeric c = VInt z) \/ (exists x, to_numeric c = VFloat x).
Proof.
  destruct c as [|z|x|w]; cbn; eauto.
  destruct (parse_number w); right; eexists; reflexivity.
Qed.

Lemma coerce_float_spec c :
  coerce_float c =
  if isna (to_numeric c) then 0%float else as_float (to_numeric c).
Proof.
  unfold coerce_float.
  destruct (to_numeric_numeric c) as [[z ->]|[x ->]]; reflexivity.
Qed.

Lemma coerce_int_missing c z :
  coerce_int c = Ok z -> isna (to_numeric c) = true -> z = 0.
Proof.
  unfold coerce_int.
  destruct (to_numeric_numeric c) as [[k ->]|[x ->]]; cbn; intros H Hn.
  - discriminate.
  - unfold fillna in H. rewrite Hn in H. vm_compute in H. congruence.
Qed.

(** C8, amended (price and stock after the product transform).  Every
    row the product transform returns comes from a row of the file; its
    price is a float, 0.0 exactly when the raw price is missing or is
    no number and the number itself otherwise, whatever its sign; its
    stock quantity is an int, 0 when the raw stock is missing or is no
    number. *)
Theorem transform_products_price_stock df df' r' :
  transform_products df = Ok df' -> r' ∈ rows df' ->
  exists r, r ∈ rows df /\
    r' !!! "price" =
      VFloat (if isna (to_numeric (r !!! "price")) then 0%float
              else as_float (to_numeric (r !!! "price"))) /\
    exists z, r' !!! "stock_quantity" = VInt z /\
              coerce_int (r !!! "stock_quantity") = Ok z /\
              (isna (to_numeric (r !!! "stock_quantity")) = true -> z = 0).
Proof.
  unfold transform_products. intros H Hin.
  apply result_bind_Ok in H as (df2 & H2 & H). injection H as <-.
  unfold try_assign in H2. apply result_bind_Ok in H2 as (l2 & Hl2 & H2).
  injection H2 as <-.
  set (df3 := assign "category" _ _) in *.
  assert (exists r3, r3 ∈ rows df3 /\ r' !!! "price" = r3 !!! "price" /\
                     r' !!! "stock_quantity" = r3 !!! "stock_quantity")
    as (r3 & H3 & Ep & Es).
  { destruct (has_column "product_id" _).
    - apply elem_of_assign in Hin as (r3 & -> & Hin). cbn in Hin.
      apply elem_of_drop_duplicates in Hin. exists r3. split; [exact Hin|].
      split; apply lookup_total_insert_ne; discriminate.
    - cbn in Hin. apply elem_of_drop_duplicates in Hin. eauto. }
  apply elem_of_assign in H3 as (r2 & -> & H3). cbn in H3.
  destruct (elem_of_assign_rows _ _ _ _ _ Hl2 H3) as (r1 & v & H1 & Hv & ->).
  apply result_bind_Ok in Hv as (z & Hz & Hv). injection Hv as <-.
  apply elem_of_assign in H1 as (r & -> & Hr).
  rewrite lookup_total_insert_ne in Hz by discriminate.
  exists r. split; [exact Hr|]. split.
  - rewrite Ep. rewrite !lookup_total_insert_ne by discriminate.
    rewrite lookup_total_insert_eq. rewrite coerce_float_spec. reflexivity.
  - exists z. split; [|split].
    + rewrite Es. rewrite lookup_total_insert_ne by discriminate.
      apply lookup_total_insert_eq.
    + exact Hz.
    + intros Hn. eapply coerce_int_missing; eassumption.
Qed.

(** ** Orders built from the resolved sales lines *)

Lemma build_order_id l k : build_order l k !!! "order_id" = VInt k.
Proof. unfold build_order. apply lookup_total_insert_eq. Qed.







Lemma group_keys_spec l k :
  k ∈ merge_sort Z.le (remove_dups (omap group_key l)) <->
  exists r, r ∈ l /\ group_key r = Some k.
Proof.
  rewrite merge_sort_Permutation, elem_of_remove_dups. apply list_elem_of_omap.
Qed.



(** ** Identity resolution *)

Lemma commit_not_aborted c : aborted (commit c) = false.
Proof. reflexivity. Qed.

Lemma fetch_customer_id_by_email_eq c :
  aborted c = false ->
  fetch_customer_id_by_email c = (c, Ok (email_to_id (customers (pending c)))).
Proof. intros H. unfold fetch_customer_id_by_email, fetchall. rewrite H. reflexivity. Qed.

Lemma insert_stubs_returns ems c : snd (insert_stubs ems c) = Ok tt.
Proof.
  revert c. induction ems as [|em ems IH]; intros c; [reflexivity|].
  cbn [insert_stubs]. unfold mbind, io_bind, attempt. cbn. apply IH.
Qed.

Lemma remap_without_absent sales_df n c :
  aborted c = false ->
  existsb lacks_email (rows sales_df) = false ->
  remap_sales_customer_ids sales_df n c =
  (c, Ok (resolved_frame sales_df (email_to_id (customers (pending c)))
            (rows sales_df), n)).
Proof.
  intros Hc Hno. unfold remap_sales_customer_ids, mbind, io_bind.
  rewrite (fetch_customer_id_by_email_eq c Hc).
  change (existsb (fun r => isna (r !!! "email")) (rows sales_df))
    with (existsb lacks_email (rows sales_df)).
  rewrite Hno. reflexivity.
Qed.

Lemma remap_with_absent sales_df n c l stubs n' :
  aborted c = false ->
  existsb lacks_email (rows sales_df) = true ->
  fill_stubs (rows sales_df) n = (l, stubs, n') ->
  let c1 := commit (fst (insert_stubs (remove_dups stubs) c)) in
  remap_sales_customer_ids sales_df n c =
  (c1, Ok (resolved_frame sales_df (email_to_id (customers (pending c1))) l, n')).
Proof.
  intros Hc Hyes Hfill c1. unfold remap_sales_customer_ids, mbind, io_bind.
  rewrite (fetch_customer_id_by_email_eq c Hc).
  change (existsb (fun r => isna (r !!! "email")) (rows sales_df))
    with (existsb lacks_email (rows sales_df)).
  rewrite Hyes, Hfill.
  pose proof (insert_stubs_returns (remove_dups stubs) c) as Hret.
  destruct (insert_stubs (remove_dups stubs) c) as [c' r]. cbn in Hret. subst r.
  unfold do_commit. cbn [fst] in c1.
  rewrite (fetch_customer_id_by_email_eq (commit c') (commit_not_aborted c')).
  reflexivity.
Qed.

Lemma absent_before_0 l : absent_before l 0 = 0%nat.
Proof. reflexivity. Qed.

Lemma absent_before_S r l i :
  absent_before (r :: l) (S i) =
  ((if lacks_email r then 1 else 0) + absent_before l i)%nat.
Proof.
  unfold absent_before. cbn [take]. rewrite filter_cons.
  destruct (lacks_email r); cbn; reflexivity.
Qed.

Lemma fill_stubs_lookup l n l' stubs n' i r :
  fill_stubs l n = (l', stubs, n') -> l !! i = Some r ->
  l' !! i = Some (if lacks_email r
                  then <["email" := VStr (stub_email n l i)]> r else r).
Proof.
  revert n l' stubs n' i. induction l as [|r0 l IH]; intros n l' stubs n' i H Hi.
  - destruct i; discriminate.
  - cbn [fill_stubs] in H. fold (lacks_email r0) in H.
    destruct (lacks_email r0) eqn:E0.
    + destruct (fill_stubs l (S n)) as [[l1 stubs1] n1] eqn:E1.
      injection H as <- <- <-. destruct i as [|i].
      * injection Hi as <-. rewrite E0. unfold stub_email.
        rewrite absent_before_0, Nat.add_0_r. reflexivity.
      * cbn in Hi |- *. etransitivity; [exact (IH _ _ _ _ _ E1 Hi)|].
        unfold stub_email. rewrite absent_before_S, E0.
        replace (n + (1 + absent_before l i))%nat
          with (S n + absent_before l i)%nat by lia.
        reflexivity.
    + destruct (fill_stubs l n) as [[l1 stubs1] n1] eqn:E1.
      injection H as <- <- <-. destruct i as [|i].
      * injection Hi as <-. rewrite E0. reflexivity.
      * cbn in Hi |- *. etransitivity; [exact (IH _ _ _ _ _ E1 Hi)|].
        unfold stub_email. rewrite absent_before_S, E0. reflexivity.
Qed.

Lemma fill_stubs_stub l n l' stubs n' i r :
  fill_stubs l n = (l', stubs, n') -> l !! i = Some r ->
  lacks_email r = true -> stub_email n l i ∈ stubs.
Proof.
  revert n l' stubs n' i. induction l as [|r0 l IH]; intros n l' stubs n' i H Hi Hr.
  - destruct i; discriminate.
  - cbn [fill_stubs] in H. fold (lacks_email r0) in H.
    destruct (lacks_email r0) eqn:E0.
    + destruct (fill_stubs l (S n)) as [[l1 stubs1] n1] eqn:E1.
      injection H as <- <- <-. destruct i as [|i].
      * unfold stub_email. rewrite absent_before_0, Nat.add_0_r. left.
      * right. cbn in Hi. pose proof (IH _ _ _ _ _ E1 Hi Hr) as Hin.
        unfold stub_email in *. rewrite absent_before_S, E0.
        replace (n + (1 + absent_before l i))%nat
          with (S n + absent_before l i)%nat by lia.
        exact Hin.
    + destruct (fill_stubs l n) as [[l1 stubs1] n1] eqn:E1.
      injection H as <- <- <-. destruct i as [|i].
      * injection Hi as <-. congruence.
      * cbn in Hi. pose proof (IH _ _ _ _ _ E1 Hi Hr) as Hin.
        unfold stub_email in *. rewrite absent_before_S, E0. exact Hin.
Qed.

Lemma fill_stubs_none l n :
  existsb lacks_email l = false -> fill_stubs l n = (l, [], n).
Proof.
  induction l as [|r l IH]; intros H; [reflexivity|].
  cbn in H. apply orb_false_iff in H as [Hr Hl].
  cbn [fill_stubs]. fold (lacks_email r). rewrite Hr, (IH Hl). reflexivity.
Qed.

Lemma resolved_lines_spec m l r' :
  r' ∈ resolved_lines m l <->
  exists r e cid, r ∈ l /\ r !!! "email" = VStr e /\ m !! e = Some cid /\
                  r' = <["customer_id" := VInt cid]> r.
Proof.
  unfold resolved_lines, dropna. rewrite list_elem_of_filter, elem_of_map_inv.
  split.
  - intros [Hna (r & -> & Hr)]. cbn in Hna. rewrite andb_true_r in Hna.
    rewrite lookup_total_insert_eq in Hna.
    destruct (r !!! "email") as [|z|x|e] eqn:Ee; try (cbn in Hna; contradiction).
    cbn in Hna |- *. destruct (m !! e) as [cid|] eqn:Em; [|cbn in Hna; contradiction].
    exists r, e, cid. repeat split; assumption.
  - intros (r & e & cid & Hr & Ee & Em & ->). split.
    + cbn. rewrite lookup_total_insert_eq. exact I.
    + exists r. split; [|exact Hr]. rewrite Ee. cbn. rewrite Em. reflexivity.
Qed.

Lemma email_fold_Some cs (m : gmap string Z) e cid :
  fold_left
    (fun m r =>
       match canonicalize_email (VStr (customers.email r)) with
       | Some e => <[e := customers.customer_id r]> m
       | None => m
       end) cs m !! e = Some cid ->
  m !! e = Some cid \/
  exists c, c ∈ cs /\ canonicalize_email (VStr (customers.email c)) = Some e /\
            customers.customer_id c = cid.
Proof.
  revert m. induction cs as [|c cs IH]; intros m H; [left; exact H|].
  cbn [fold_left] in H. apply IH in H as [H|(c' & Hin & Hc)].
  - destruct (canonicalize_email (VStr (customers.email c))) as [e'|] eqn:Ec;
      [|left; exact H].
    destruct (decide (e' = e)) as [->|Hne].
    + rewrite lookup_insert_eq in H. injection H as H.
      right. exists c. split; [left|]. split; assumption.
    + rewrite lookup_insert_ne in H by exact Hne. left. exact H.
  - right. exists c'. split; [right; exact Hin|exact Hc].
Qed.

Lemma email_fold_is_Some cs (m : gmap string Z) e :
  is_Some (m !! e) \/
  (exists c, c ∈ cs /\ canonicalize_email (VStr (customers.email c)) = Some e) ->
  is_Some
    (fold_left
       (fun m r =>
          match canonicalize_email (VStr (customers.email r)) with
          | Some e => <[e := customers.customer_id r]> m
          | None => m
          end) cs m !! e).
Proof.
  revert m. induction cs as [|c cs IH]; intros m H.
  - destruct H as [H|(c & Hin & _)]; [exact H|inversion Hin].
  - cbn [fold_left]. apply IH. destruct H as [H|(c' & Hin & Hc)].
    + left. destruct (canonicalize_email (VStr (customers.email c))) as [e'|];
        [|exact H].
      destruct (decide (e' = e)) as [->|Hne].
      * rewrite lookup_insert_eq. eauto.
      * rewrite lookup_insert_ne by exact Hne. exact H.
    + apply elem_of_cons in Hin as [->|Hin].
      * left. rewrite Hc. rewrite lookup_insert_eq. eauto.
      * right. exists c'. split; assumption.
Qed.

(** A durable id the mapping gives is the id of a customer row. *)
Lemma email_to_id_Some cs e cid :
  email_to_id cs !! e = Some cid ->
  exists c, c ∈ cs /\ canonicalize_email (VStr (customers.email c)) = Some e /\
            customers.customer_id c = cid.
Proof.
  intros H. apply email_fold_Some in H as [H|H]; [|exact H].
  rewrite lookup_empty in H. discriminate.
Qed.

Lemma email_to_id_is_Some cs c e :
  c ∈ cs -> canonicalize_email (VStr (customers.email c)) = Some e ->
  is_Some (email_to_id cs !! e).
Proof. intros Hin Hc. apply email_fold_is_Some. right. eauto. Qed.

(** ** The merge of the sales lines with the customers *)


Lemma guard_or_Ok b e : guard_or b e = Ok tt -> b = true.
Proof. destruct b; [reflexivity|discriminate]. Qed.



Lemma resolved_present m l r :
  r ∈ l ->
  forall cid,
    <["customer_id" := VInt cid]> r ∈ resolved_lines m l <->
    exists e, r !!! "email" = VStr e /\ m !! e = Some cid.
Proof.
  intros Hin cid. rewrite resolved_lines_spec. split.
  - intros (r2 & e2 & cid2 & Hin2 & He2 & Hm2 & Heq).
    assert (cid2 = cid) as ->.
    { apply (f_equal (fun m : row => m !!! "customer_id")) in Heq.
      rewrite !lookup_total_insert_eq in Heq. injection Heq as Heq.
      symmetry. exact Heq. }
    exists e2. split; [|exact Hm2].
    apply (f_equal (fun m : row => m !!! "email")) in Heq.
    rewrite !(lookup_total_insert_ne _ "customer_id" "email") in Heq by discriminate.
    rewrite Heq. exact He2.
  - intros (e & He & Hm). exists r, e, cid. repeat split; assumption.
Qed.

Lemma existsb_lacks_email l i r :
  l !! i = Some r -> lacks_email r = true -> existsb lacks_email l = true.
Proof.
  intros Hi Hr. apply existsb_exists. exists r. split; [|exact Hr].
  apply list_elem_of_In. eapply list_elem_of_lookup_2. exact Hi.
Qed.

(** What becomes of line [i] of the frame when it reaches the resolver
    without an address. *)
Lemma remap_absent_line sales_df n c i r l stubs n' :
  aborted c = false -> rows sales_df !! i = Some r -> lacks_email r = true ->
  fill_stubs (rows sales_df) n = (l, stubs, n') ->
  let c1 := commit (fst (insert_stubs (remove_dups stubs) c)) in
  exists out,
    stub_email n (rows sales_df) i ∈ stubs /\
    remap_sales_customer_ids sales_df n c = (c1, Ok (out, n')) /\
    forall cid,
      <["customer_id" := VInt cid]>
        (<["email" := VStr (stub_email n (rows sales_df) i)]> r) ∈ rows out
      <-> email_to_id (customers (pending c1)) !! stub_email n (rows sales_df) i
          = Some cid.
Proof.
  intros Hc Hi Hr Hfill c1.
  pose proof (remap_with_absent sales_df n c l stubs n' Hc
                (existsb_lacks_email _ _ _ Hi Hr) Hfill) as Hremap.
  cbv zeta in Hremap. fold c1 in Hremap.
  eexists. split; [exact (fill_stubs_stub _ _ _ _ _ _ _ Hfill Hi Hr)|].
  split; [exact Hremap|].
  intros cid. cbn [rows resolved_frame].
  pose proof (fill_stubs_lookup _ _ _ _ _ _ _ Hfill Hi) as Hl. rewrite Hr in Hl.
  set (e := stub_email n (rows sales_df) i) in *.
  rewrite (resolved_present _ l (<["email" := VStr e]> r));
    [|eapply list_elem_of_lookup_2; exact Hl].
  rewrite lookup_total_insert_eq. split.
  - intros (e' & He & Hm). injection He as <-. exact Hm.
  - intros Hm. exists e. split; [reflexivity|exact Hm].
Qed.


(** ** Placeholder addresses *)

Lemma chars_app s1 s2 : chars (s1 ++ s2) = (chars s1 ++ chars s2)%list.
Proof.
  unfold chars. induction s1 as [|a s1 IH]; [reflexivity|].
  change (String a s1 ++ s2) with (String a (s1 ++ s2)).
  cbn [list_ascii_of_string]. rewrite IH. reflexivity.
Qed.

Lemma text_chars s : text (chars s) = s.
Proof. apply string_of_list_ascii_of_string. Qed.

Lemma hex_digit_plain n : (n < 16)%N -> plain (hex_digit n) = true.
Proof.
  intros H. destruct n as [|p]; [reflexivity|].
  do 5 (try (destruct p as [p|p|]; try reflexivity; try lia)).
Qed.

Lemma hex_digits_spec k x acc :
  Forall (fun a => plain a = true) acc ->
  Forall (fun a => plain a = true) (hex_digits k x acc) /\
  length (hex_digits k x acc) = (k + length acc)%nat.
Proof.
  revert x acc. induction k as [|k IH]; intros x acc Hacc; cbn [hex_digits].
  - split; [exact Hacc|reflexivity].
  - destruct (IH (x / 16)%N (hex_digit (x mod 16)%N :: acc)) as [H1 H2].
    + constructor; [|exact Hacc]. apply hex_digit_plain.
      apply N.mod_lt. discriminate.
    + split; [exact H1|]. rewrite H2. cbn. lia.
Qed.

Lemma chars_placeholder x :
  chars (placeholder_email (hex8 x)) =
  ("u"%char :: (chars "nknown+" ++ hex_digits 8 x [] ++ chars "@example.co")
     ++ ["m"%char])%list.
Proof.
  unfold placeholder_email, hex8. rewrite !chars_app.
  unfold chars at 2. unfold text. rewrite list_ascii_of_string_of_list_ascii.
  cbn [chars list_ascii_of_string app].
  rewrite <- !app_assoc. reflexivity.
Qed.

Lemma placeholder_plain x :
  Forall (fun a => plain a = true) (chars (placeholder_email (hex8 x))).
Proof.
  rewrite chars_placeholder.
  destruct (hex_digits_spec 8 x [] (List.Forall_nil _)) as [H _].
  constructor; [reflexivity|].
  repeat (apply Forall_app; split); try exact H;
    repeat (constructor; try reflexivity).
Qed.

Lemma placeholder_length x :
  length (chars (placeholder_email (hex8 x))) = 28%nat.
Proof.
  rewrite chars_placeholder.
  destruct (hex_digits_spec 8 x [] (List.Forall_nil _)) as [_ H].
  cbn [length]. rewrite !length_app, H. reflexivity.
Qed.

Lemma strip_plain_ends a l b :
  isspace a = false -> isspace b = false ->
  strip (a :: l ++ [b]) = (a :: l ++ [b])%list.
Proof.
  intros Ha Hb. unfold strip. cbn [lstrip]. rewrite Ha.
  replace (rev (a :: l ++ [b])) with (b :: rev l ++ [a])%list.
  - cbn [lstrip]. rewrite Hb.
    replace (b :: rev l ++ [a])%list with (rev (a :: l ++ [b])).
    + apply rev_involutive.
    + cbn [rev]. rewrite rev_app_distr. reflexivity.
  - cbn [rev]. rewrite rev_app_distr. reflexivity.
Qed.

Lemma lower_plain l :
  Forall (fun a => plain a = true) l -> lower l = l.
Proof.
  induction 1 as [|a l Ha _ IH]; [reflexivity|].
  unfold lower in *. cbn [map]. rewrite IH. f_equal.
  unfold lower_char. unfold plain in Ha.
  destruct (isupper a); [discriminate|reflexivity].
Qed.

Lemma filter_plain l :
  Forall (fun a => plain a = true) l ->
  filter (fun a => negb (isspace a)) l = l.
Proof.
  induction 1 as [|a l Ha _ IH]; [reflexivity|].
  rewrite filter_cons_True; [rewrite IH; reflexivity|].
  unfold plain in Ha. destruct (isupper a), (isspace a); try discriminate.
  exact I.
Qed.

(** A placeholder address is its own canonical form. *)
Lemma canonicalize_placeholder x :
  canonicalize_email (VStr (placeholder_email (hex8 x)))
  = Some (placeholder_email (hex8 x)).
Proof.
  unfold canonicalize_email. cbn [isna py_str].
  pose proof (placeholder_plain x) as Hp.
  set (e := placeholder_email (hex8 x)) in *.
  assert (strip (chars e) = chars e) as ->.
  { unfold e. rewrite chars_placeholder. apply strip_plain_ends; reflexivity. }
  rewrite (lower_plain _ Hp), (filter_plain _ Hp).
  destruct (chars e) as [|a l] eqn:E.
  - unfold e in E. rewrite chars_placeholder in E. discriminate.
  - rewrite <- E, text_chars. reflexivity.
Qed.

Lemma varchar_short n column s :
  (length (chars s) <= n)%nat -> varchar n column s = Ok s.
Proof.
  intros H. unfold varchar. apply Nat.leb_le in H. rewrite H. reflexivity.
Qed.

(** ** Guest customers *)

Lemma insert_stub_Ok em t q q' t' :
  (length (chars em) <= 100)%nat ->
  insert_stub em t q = (q', Ok t') ->
  (has_email t em = true /\ t' = t) \/
  (has_email t em = false /\
   exists cu, t' = add_customer cu t /\ is_guest em cu).
Proof.
  intros Hlen. unfold insert_stub, insert_customers.
  destruct (next_customer_id Default q) as [i q1].
  intros H. injection H as _ H. bind_inv H. fields_inv.
  repeat match goal with
         | H : varchar 100 "email" em = Ok _ |- _ =>
             rewrite (varchar_short _ _ _ Hlen) in H; injection H as <-
         | H : varchar _ _ (String _ _) = Ok _ |- _ =>
             vm_compute in H; injection H as <-
         | H : nullable _ None = Ok _ |- _ => injection H as <-
         | H : Some _ = Some _ |- _ => injection H as <-
         end.
  destruct (has_email t em) eqn:He.
  - left. injection H as <-. split; reflexivity.
  - right. split; [reflexivity|].
    match type of H with context [has_customer t ?e] =>
      destruct (has_customer t e); [discriminate|] end.
    injection H as <-. eexists. split; [reflexivity|].
    repeat split.
Qed.

Lemma insert_stub_grows em t q q' t' cu :
  insert_stub em t q = (q', Ok t') -> cu ∈ customers t -> cu ∈ customers t'.
Proof.
  intros H Hin. apply insert_customers_Ok in H as [->|(r & -> & _)]; [exact Hin|].
  cbn. apply elem_of_app. left. exact Hin.
Qed.

Lemma insert_stubs_cons em ems c :
  fst (insert_stubs (em :: ems) c)
  = fst (insert_stubs ems (fst (execute (insert_stub em) c))).
Proof.
  cbn [insert_stubs]. unfold mbind, io_bind, attempt. reflexivity.
Qed.

Lemma insert_stubs_aborted ems c :
  aborted c = true -> fst (insert_stubs ems c) = c.
Proof.
  revert c. induction ems as [|em ems IH]; intros c H; [reflexivity|].
  rewrite insert_stubs_cons. unfold execute. rewrite H. cbn [fst].
  apply IH, H.
Qed.

Lemma execute_cases stmt c :
  aborted c = false ->
  aborted (fst (execute stmt c)) = true \/
  exists q t', stmt (pending c) (seqs c) = (q, Ok t') /\
               fst (execute stmt c)
               = {| committed := committed c; pending := t'; aborted := false;
                    seqs := q |}.
Proof.
  intros H. unfold execute. rewrite H.
  destruct (stmt (pending c) (seqs c)) as [q [t'|e]]; cbn.
  - right. eauto.
  - left. reflexivity.
Qed.

Lemma insert_stubs_ok ems c :
  aborted c = false ->
  Forall (fun em => (length (chars em) <= 100)%nat) ems ->
  aborted (fst (insert_stubs ems c)) = false ->
  (forall cu, cu ∈ customers (pending c) ->
              cu ∈ customers (pending (fst (insert_stubs ems c)))) /\
  (forall em, em ∈ ems ->
     exists cu, cu ∈ customers (pending (fst (insert_stubs ems c))) /\
                customers.email cu = em /\
                (cu ∈ customers (pending c) \/ is_guest em cu)).
Proof.
  intros Hc Hshort. revert c Hc.
  induction Hshort as [|em ems Hlen _ IH]; intros c Hc Hok.
  - split; [intros cu H; exact H|]. intros em H. inversion H.
  - rewrite insert_stubs_cons in Hok |- *.
    destruct (execute_cases (insert_stub em) c Hc) as [Hab|(q & t' & Hst & Hc1)].
    { rewrite (insert_stubs_aborted _ _ Hab) in Hok. congruence. }
    set (c1 := fst (execute (insert_stub em) c)) in *.
    assert (aborted c1 = false) as Hc1a by (rewrite Hc1; reflexivity).
    assert (pending c1 = t') as Hp1 by (rewrite Hc1; reflexivity).
    destruct (IH c1 Hc1a Hok) as [Hmono Hall].
    assert (forall cu, cu ∈ customers (pending c) -> cu ∈ customers (pending c1))
      as Hgrow.
    { intros cu Hin. rewrite Hp1. eapply insert_stub_grows; eassumption. }
    split; [intros cu Hin; apply Hmono, Hgrow, Hin|].
    intros em' Hin. apply elem_of_cons in Hin as [->|Hin].
    + destruct (insert_stub_Ok _ _ _ _ _ Hlen Hst) as [[He _]|[_ (cu & -> & Hg)]].
      * apply has_email_spec in He as (cu & Hcu & Hem).
        exists cu. split; [apply Hmono, Hgrow, Hcu|]. split; [exact Hem|left; exact Hcu].
      * exists cu. split; [|split; [apply Hg|right; exact Hg]].
        apply Hmono. rewrite Hp1. cbn. apply elem_of_app. right. left.
    + destruct (Hall em' Hin) as (cu & Hcu & Hem & [Hold|Hg]).
      * exists cu. split; [exact Hcu|]. split; [exact Hem|].
        rewrite Hp1 in Hold.
        destruct (insert_stub_Ok _ _ _ _ _ Hlen Hst) as [[_ ->]|[_ (g & -> & Hg)]];
          [left; exact Hold|].
        cbn in Hold. apply elem_of_app in Hold as [Hold|Hold]; [left; exact Hold|].
        apply list_elem_of_singleton in Hold as ->. right.
        destruct Hg as (H1 & H2 & H3 & H4). rewrite <- Hem, H3.
        repeat split; try assumption; apply H4.
      * exists cu. split; [exact Hcu|]. split; [exact Hem|right; exact Hg].
Qed.

Lemma fill_stubs_placeholders l n l' stubs n' em :
  fill_stubs l n = (l', stubs, n') -> em ∈ stubs ->
  exists k, em = placeholder_email (hex8 (uuid4 k)).
Proof.
  revert n l' stubs n'. induction l as [|r l IH]; intros n l' stubs n' H Hin.
  - injection H as <- <- <-. inversion Hin.
  - cbn [fill_stubs] in H. destruct (isna (r !!! "email")).
    + destruct (fill_stubs l (S n)) as [[l1 stubs1] n1] eqn:E1.
      injection H as <- <- <-. apply elem_of_cons in Hin as [->|Hin]; [eauto|].
      eapply IH; eassumption.
    + destruct (fill_stubs l n) as [[l1 stubs1] n1] eqn:E1.
      injection H as <- <- <-. eapply IH; eassumption.
Qed.

Lemma commit_ok c :
  aborted c = false ->
  committed (commit c) = pending c /\ pending (commit c) = pending c.
Proof. intros H. unfold commit. rewrite H. split; reflexivity. Qed.

(** C4, amended (placeholders are made for absent addresses only).
    For a sales line that reaches the resolver without an address, the
    resolver draws a fresh placeholder address, runs the insert-ignore
    statement of a guest customer for it, commits, re-reads the mapping
    and resolves the line against it: unless a guest insert raised, the
    store then holds a customer with that address, who is a minimal
    guest row or was there before, and the line is among the resolved
    lines.  A line that has an address gets no placeholder: it is
    resolved as it is, and kept exactly when the mapping knows its
    address; if no line lacks an address, the store is not touched and
    nothing is drawn. *)
Theorem remap_placeholder_only_for_absent sales_df n c i r :
  aborted c = false ->
  rows sales_df !! i = Some r ->
  (lacks_email r = true ->
   exists stubs c1 out n',
     let c' := fst (insert_stubs (remove_dups stubs) c) in
     let e := stub_email n (rows sales_df) i in
     c1 = commit c' /\ e ∈ stubs /\
     remap_sales_customer_ids sales_df n c = (c1, Ok (out, n')) /\
     (aborted c' = false ->
      (exists cu, cu ∈ customers (committed c1) /\ customers.email cu = e /\
                  (cu ∈ customers (pending c) \/ is_guest e cu)) /\
      (exists cid,
         <["customer_id" := VInt cid]> (<["email" := VStr e]> r) ∈ rows out))) /\
  (lacks_email r = false ->
   exists c1 out n',
     remap_sales_customer_ids sales_df n c = (c1, Ok (out, n')) /\
     (existsb lacks_email (rows sales_df) = false -> c1 = c /\ n' = n) /\
     forall cid,
       <["customer_id" := VInt cid]> r ∈ rows out <->
       exists e, r !!! "email" = VStr e /\
                 email_to_id (customers (pending c1)) !! e = Some cid).
Proof.
  intros Hc Hi. split; intros Hr.
  - destruct (fill_stubs (rows sales_df) n) as [[l stubs] n'] eqn:Hfill.
    destruct (remap_absent_line sales_df n c i r l stubs n' Hc Hi Hr Hfill)
      as (out & Hin & Hremap & Hiff).
    exists stubs, (commit (fst (insert_stubs (remove_dups stubs) c))), out, n'.
    cbv zeta. split; [reflexivity|]. split; [exact Hin|]. split; [exact Hremap|].
    intros Hok.
    set (c' := fst (insert_stubs (remove_dups stubs) c)) in *.
    set (e := stub_email n (rows sales_df) i) in *.
    assert (Forall (fun em => (length (chars em) <= 100)%nat) (remove_dups stubs))
      as Hshort.
    { apply Forall_forall. intros em Hem. rewrite elem_of_remove_dups in Hem.
      destruct (fill_stubs_placeholders _ _ _ _ _ _ Hfill Hem) as (k & ->).
      rewrite placeholder_length. lia. }
    destruct (insert_stubs_ok _ c Hc Hshort Hok) as [_ Hall].
    destruct (Hall e) as (cu & Hcu & Hem & Horigin);
      [apply elem_of_remove_dups; exact Hin|].
    destruct (commit_ok c' Hok) as [Hcm Hpd].
    split.
    + exists cu. rewrite Hcm. split; [exact Hcu|]. split; [exact Hem|exact Horigin].
    + destruct (email_to_id_is_Some (customers (pending (commit c'))) cu e)
        as [cid Hcid].
      * rewrite Hpd. exact Hcu.
      * rewrite Hem. apply canonicalize_placeholder.
      * exists cid. apply Hiff. exact Hcid.
  - destruct (existsb lacks_email (rows sales_df)) eqn:Hany.
    + destruct (fill_stubs (rows sales_df) n) as [[l stubs] n'] eqn:Hfill.
      pose proof (remap_with_absent sales_df n c l stubs n' Hc Hany Hfill) as Hremap.
      cbv zeta in Hremap.
      eexists _, _, _. split; [exact Hremap|]. split; [discriminate|].
      cbn [rows resolved_frame]. apply resolved_present.
      pose proof (fill_stubs_lookup _ _ _ _ _ _ _ Hfill Hi) as Hl.
      rewrite Hr in Hl. eapply list_elem_of_lookup_2. exact Hl.
    + pose proof (remap_without_absent sales_df n c Hc Hany) as Hremap.
      eexists _, _, _. split; [exact Hremap|]. split; [intros _; split; reflexivity|].
      cbn [rows resolved_frame]. apply resolved_present.
      eapply list_elem_of_lookup_2. exact Hi.
Qed.

(** ** Customers: cleaning and deduplication *)

Lemma lookup_map {A B} (f : A -> B) (l : list A) (k : nat) :
  map f l !! k = f <$> (l !! k).
Proof.
  revert k. induction l as [|x l IH]; intros [|k]; cbn; try reflexivity.
  apply IH.
Qed.

Lemma notna_NaN : notna NaN = false.
Proof. reflexivity. Qed.

Lemma fill_emails_spec l n :
  Forall (fun r => (exists o, r !!! "customer_id" = of_id o) /\
                   (exists o, r !!! "email" = of_text o)) l ->
  exists l' n',
    fill_emails l n = Ok (l', n') /\
    Forall2 (fun r r' => exists e', r' = <["email" := VStr e']> r /\
                                    forall e, r !!! "email" = VStr e -> e' = e)
            l l'.
Proof.
  intros H. revert n. induction H as [|r l [[oc Hc] [oe He]] _ IH]; intros n.
  - exists [], n. split; [reflexivity|constructor].
  - cbn [fill_emails]. rewrite He. destruct oe as [e|]; cbn [of_text].
    + destruct (IH n) as (l' & n' & -> & HF). cbn.
      exists (<["email" := VStr e]> r :: l'), n'. split; [reflexivity|].
      constructor; [|exact HF]. exists e. split; [reflexivity|].
      intros e0 H0. rewrite He in H0. injection H0 as <-. reflexivity.
    + unfold synthesize_email. rewrite Hc.
      destruct oc as [z|]; cbn [of_id].
      * cbn. destruct (IH n) as (l' & n' & -> & HF). cbn.
        eexists _, n'. split; [reflexivity|].
        constructor; [|exact HF]. eexists. split; [reflexivity|].
        intros e0 H0. rewrite He in H0. discriminate.
      * rewrite notna_NaN. cbn. destruct (IH (S n)) as (l' & n' & -> & HF). cbn.
        eexists _, n'. split; [reflexivity|].
        constructor; [|exact HF]. eexists. split; [reflexivity|].
        intros e0 H0. rewrite He in H0. discriminate.
Qed.

(** The cleaning never raises; it keeps the rows in place, and a row
    whose raw address has the canonical form [e] carries [e]. *)
Lemma cleaned_customers_spec df n :
  exists cleaned n',
    cleaned_customers df n = Ok (cleaned, n') /\
    forall k rk, rows df !! k = Some rk ->
      exists rk' ek, rows cleaned !! k = Some rk' /\ rk' !!! "email" = VStr ek /\
        forall e, canonicalize_email (rk !!! "email") = Some e -> ek = e.
Proof.
  unfold cleaned_customers.
  set (f1 := fun r : row => <["customer_id" := of_id (clean_id (r !!! "customer_id"))]> r).
  set (f2 := fun r : row => <["email" := of_text (canonicalize_email (r !!! "email"))]> r).
  assert (rows (assign "email" (fun r => of_text (canonicalize_email (r !!! "email")))
                  (assign "customer_id"
                     (fun r => of_id (clean_id (r !!! "customer_id"))) df))
          = map f2 (map f1 (rows df))) as Hrows by reflexivity.
  rewrite Hrows.
  destruct (fill_emails_spec (map f2 (map f1 (rows df))) n) as (l & n' & Hfill & HF).
  { apply Forall_forall. intros r Hr.
    apply elem_of_map_inv in Hr as (r1 & -> & Hr).
    apply elem_of_map_inv in Hr as (r0 & -> & _). unfold f1, f2. split.
    - eexists. rewrite lookup_total_insert_ne by discriminate.
      apply lookup_total_insert_eq.
    - eexists. apply lookup_total_insert_eq. }
  rewrite Hfill. cbn. eexists _, n'. split; [reflexivity|].
  intros k rk Hk. cbn [rows assign with_rows].
  assert (map f2 (map f1 (rows df)) !! k = Some (f2 (f1 rk))) as Hk2.
  { rewrite !lookup_map, Hk. reflexivity. }
  destruct (Forall2_lookup_l _ _ _ _ _ HF Hk2) as (r' & Hl & e' & -> & He').
  eexists _, e'. split; [rewrite !lookup_map, Hl; reflexivity|]. split.
  - rewrite !lookup_total_insert_ne by discriminate. apply lookup_total_insert_eq.
  - intros e He. apply He'. unfold f2, f1. rewrite lookup_total_insert_eq.
    rewrite lookup_total_insert_ne by discriminate. rewrite He. reflexivity.
Qed.








(** ** Customers in the store *)

Lemma chars_text l : chars (text l) = l.
Proof. apply list_ascii_of_string_of_list_ascii. Qed.


Lemma varchar_no_space n column s s' :
  Forall (fun a => isspace a = false) (chars s) ->
  varchar n column s = Ok s' -> s' = s.
Proof.
  intros Hs. unfold varchar. destruct (length (chars s) <=? n)%nat eqn:Hlen.
  - congruence.
  - apply Nat.leb_gt in Hlen.
    destruct (skipn n (chars s)) as [|a l] eqn:Hskip.
    + apply (f_equal (@length ascii)) in Hskip. rewrite length_skipn in Hskip.
      cbn in Hskip. lia.
    + cbn [forallb]. assert (a ∈ chars s) as Ha.
      { rewrite <- (firstn_skipn n (chars s)), Hskip.
        apply elem_of_app. right. left. }
      pose proof (proj1 (Forall_forall _ _) Hs a Ha) as Hsp.
      unfold char_is. destruct (Ascii.eqb " " a) eqn:Heq.
      * apply Ascii.eqb_eq in Heq. subst a. discriminate.
      * cbn. discriminate.
Qed.

(** An insert into [customers] that succeeds leaves the address in the
    table, whether the row was entered or ignored. *)
Lemma insert_customers_establishes id fn ln e ph ci rd :
  Forall (fun a => isspace a = false) (chars e) ->
  establishes (fun t => has_email t e = true)
    (insert_customers id fn ln (Some e) ph ci rd).
Proof.
  intros He t q q' t'. unfold insert_customers.
  destruct (next_customer_id id q) as [i q1].
  intros H. injection H as _ H. bind_inv H. fields_inv.
  repeat match goal with
         | H : Some _ = Some _ |- _ => injection H as <-
         | H : varchar 100 "email" e = Ok _ |- _ =>
             apply (varchar_no_space _ _ _ _ He) in H; subst
         end.
  destruct (has_email t e) eqn:Hhas.
  - injection H as <-. exact Hhas.
  - match type of H with context [has_customer t ?x] =>
      destruct (has_customer t x); [discriminate|] end.
    injection H as <-. apply has_email_spec. eexists. split.
    + cbn. apply elem_of_app. right. left.
    + reflexivity.
Qed.

Lemma has_email_kept e stmt :
  loader_statement stmt -> statement_keeps (fun t => has_email t e = true) stmt.
Proof.
  intros Hs t q q' t' Hinv H. apply has_email_spec in Hinv as (c & Hc & Hem).
  apply has_email_spec. exists c. split; [|exact Hem]. destruct Hs.
  - apply insert_customers_Ok in H as [->|(r & -> & _)]; [exact Hc|].
    cbn. apply elem_of_app. left. exact Hc.
  - apply insert_products_Ok in H as [->|(r & -> & _)]; exact Hc.
  - apply insert_orders_Ok in H as [->|(r & -> & _)]; exact Hc.
  - apply insert_order_items_Ok in H as (r & -> & _). exact Hc.
Qed.



Lemma execute_batch_establishes I stmts c c' :
  Forall (statement_keeps I) stmts ->
  execute_batch stmts c = (c', Ok tt) ->
  aborted c = false ->
  I (pending c) \/ Exists (establishes I) stmts ->
  I (pending c') /\ aborted c' = false.
Proof.
  intros Hk. revert c. induction Hk as [|stmt stmts Hs _ IH]; intros c H Hc HI.
  - cbn in H. injection H as <-. split; [|exact Hc].
    destruct HI as [HI|HI]; [exact HI|inversion HI].
  - cbn [execute_batch] in H. unfold execute in H. rewrite Hc in H.
    destruct (stmt (pending c) (seqs c)) as [q [t'|e]] eqn:Hst; [|discriminate].
    apply IH in H; [exact H|reflexivity|]. cbn.
    destruct HI as [HI|HI].
    + left. eapply Hs; eassumption.
    + apply Exists_cons in HI as [HI|HI]; [left; eapply HI; eassumption|right; exact HI].
Qed.

Lemma execute_batch_not_aborted stmts c c' :
  execute_batch stmts c = (c', Ok tt) -> aborted c = false -> aborted c' = false.
Proof.
  intros H Hc.
  apply (execute_batch_establishes (fun _ => True) stmts c c'); auto.
  apply Forall_forall. intros stmt _ t q q' t' _ _. exact I.
Qed.

Lemma io_bind_Ok {A B} (m : io A) (f : A -> io B) c c' b :
  (m ≫= f) c = (c', Ok b) ->
  exists c1 a, m c = (c1, Ok a) /\ f a c1 = (c', Ok b).
Proof.
  unfold mbind, io_bind. destruct (m c) as [c1 [a|e]]; [eauto|discriminate].
Qed.

Lemma Forall2_elem_of_l {A B} (R : A -> B -> Prop) l k x :
  Forall2 R l k -> x ∈ l -> exists y, y ∈ k /\ R x y.
Proof.
  intros HF Hx. apply list_elem_of_lookup in Hx as (i & Hi).
  destruct (Forall2_lookup_l _ _ _ _ _ HF Hi) as (y & Hy & HR).
  exists y. split; [eapply list_elem_of_lookup_2; exact Hy|exact HR].
Qed.

(** When [upsert_customers] returns, every address of the frame is in
    the store, committed. *)
Lemma upsert_customers_Ok df c c' r e :
  upsert_customers df c = (c', Ok tt) -> aborted c = false ->
  r ∈ rows df -> r !!! "email" = VStr e ->
  Forall (fun a => isspace a = false) (chars e) ->
  holds (fun t => has_email t e = true) c'.
Proof.
  unfold upsert_customers. intros H Hc Hr He Hsp.
  apply io_bind_Ok in H as (c0 & sw & Hsw & H).
  unfold lift in Hsw. injection Hsw as <- Hsw.
  apply io_bind_Ok in H as (c1 & [] & H1 & H).
  apply io_bind_Ok in H as (c2 & [] & H2 & H).
  unfold do_commit in H. injection H as <-.
  set (I := fun t => has_email t e = true).
  assert (Forall (statement_keeps I) sw) as Hkw.
  { eapply Forall_impl; [|intros stmt; apply has_email_kept].
    eapply mapM_Ok_Forall; [|exact Hsw].
    intros r0 stmt Hr0. apply result_bind_Ok in Hr0 as (id & _ & Hr0).
    injection Hr0 as <-. constructor. }
  match type of H2 with execute_batch ?l _ = _ => set (so := l) in * end.
  assert (Forall (statement_keeps I) so) as Hko.
  { apply Forall_forall. intros stmt Hin.
    apply elem_of_map_inv in Hin as (r0 & -> & _).
    apply has_email_kept. constructor. }
  assert (I (pending c2) /\ aborted c2 = false) as [HI Hc2].
  { destruct (isna (r !!! "customer_id")) eqn:Hid.
    - pose proof (execute_batch_not_aborted _ _ _ H1 Hc) as Hc1.
      apply (execute_batch_establishes I so c1 c2 Hko H2 Hc1). right.
      apply Exists_exists. eexists. split.
      + apply elem_of_map_inv. exists r. split; [reflexivity|].
        apply list_elem_of_filter. split; [rewrite Hid; exact Logic.I|exact Hr].
      + cbv beta. rewrite He. cbn [sql_text].
        apply insert_customers_establishes. exact Hsp.
    - destruct (execute_batch_establishes I sw c c1 Hkw H1 Hc) as [HI1 Hc1].
      + right. apply mapM_Ok_Forall2 in Hsw.
        destruct (Forall2_elem_of_l _ _ _ r Hsw) as (stmt & Hin & Hst).
        { apply list_elem_of_filter. split; [|exact Hr].
          unfold notna. rewrite Hid. exact Logic.I. }
        apply Exists_exists. exists stmt. split; [exact Hin|].
        apply result_bind_Ok in Hst as (id & _ & Hst). injection Hst as <-.
        rewrite He. cbn [sql_text]. apply insert_customers_establishes. exact Hsp.
      + apply (execute_batch_establishes I so c1 c2 Hko H2 Hc1). left. exact HI1. }
  unfold holds, commit. rewrite Hc2. cbn. split; exact HI.
Qed.

Lemma load_Ok_has_email etl n c c' r e :
  load etl n c = (c', Ok tt) -> aborted c = false ->
  r ∈ rows (df_customers etl) -> r !!! "email" = VStr e ->
  Forall (fun a => isspace a = false) (chars e) ->
  holds (fun t => has_email t e = true) c'.
Proof.
  unfold load. intros H Hc Hr He Hsp.
  apply io_bind_Ok in H as (c1 & [] & H1 & H).
  pose proof (upsert_customers_Ok _ _ _ _ _ H1 Hc Hr He Hsp) as Hh.
  match type of H with ?rest c1 = _ =>
    assert (keeps (holds (fun t => has_email t e = true)) rest) as Hk end.
  { apply keeps_bind; [apply keeps_load_products; apply has_email_kept|]. intros _.
    apply keeps_bind; [apply keeps_remap; apply has_email_kept|]. intros [df k].
    apply keeps_bind; [apply keeps_load_orders_and_items; apply has_email_kept|].
    intros _. apply keeps_ret. }
  specialize (Hk c1 Hh). rewrite H in Hk. exact Hk.
Qed.



(** ** Characters, digits and decimal numerals *)

Lemma lower_char_space a : isspace (lower_char a) = isspace a.
Proof. destruct a as [[] [] [] [] [] [] [] []]; reflexivity. Qed.

Lemma upper_char_space a : isspace (upper_char a) = isspace a.
Proof. destruct a as [[] [] [] [] [] [] [] []]; reflexivity. Qed.

Lemma lower_char_not_upper a : isupper (lower_char a) = false.
Proof. destruct a as [[] [] [] [] [] [] [] []]; reflexivity. Qed.

Lemma lower_char_idem a : lower_char (lower_char a) = lower_char a.
Proof. destruct a as [[] [] [] [] [] [] [] []]; reflexivity. Qed.

Lemma upper_lower_idem a :
  upper_char (lower_char (upper_char (lower_char a))) = upper_char (lower_char a).
Proof. destruct a as [[] [] [] [] [] [] [] []]; reflexivity. Qed.

Lemma isdigit_range a :
  isdigit a = true <-> (48 <= nat_of_ascii a <= 57)%nat.
Proof.
  unfold isdigit. rewrite andb_true_iff, !Nat.leb_le. reflexivity.
Qed.

Lemma isdigit_plain a : isdigit a = true -> plain a = true.
Proof.
  intros H. apply isdigit_range in H. unfold plain, isupper, isspace.
  destruct (65 <=? nat_of_ascii a)%nat eqn:E1; [apply Nat.leb_le in E1; lia|].
  destruct (nat_of_ascii a <=? 13)%nat eqn:E2; [apply Nat.leb_le in E2; lia|].
  destruct (28 <=? nat_of_ascii a)%nat eqn:E3;
    destruct (nat_of_ascii a <=? 32)%nat eqn:E4;
    try (apply Nat.leb_le in E4; lia);
    cbn; rewrite ?andb_false_r; reflexivity.
Qed.

Lemma plain_not_space a : plain a = true -> isspace a = false.
Proof. unfold plain. destruct (isupper a), (isspace a); cbn; congruence. Qed.

Lemma digits_of_Forall l : Forall (fun a => isdigit a = true) (digits_of l).
Proof.
  apply Forall_forall. intros a Ha. apply list_elem_of_filter in Ha as [Ha _].
  apply Is_true_eq_true, Ha.
Qed.

Lemma digits_of_digits l :
  Forall (fun a => isdigit a = true) l -> digits_of l = l.
Proof.
  induction 1 as [|a l Ha _ IH]; [reflexivity|].
  unfold digits_of in *. rewrite filter_cons_True by (rewrite Ha; exact I).
  rewrite IH. reflexivity.
Qed.

Lemma fold_digits_nonneg l acc :
  Forall (fun a => isdigit a = true) l -> 0 <= acc ->
  0 <= fold_left (fun acc a => 10 * acc + digit_val a) l acc.
Proof.
  intros H. revert acc. induction H as [|a l Ha _ IH]; intros acc Hacc; [exact Hacc|].
  cbn [fold_left]. apply IH. apply isdigit_range in Ha. unfold digit_val. lia.
Qed.

Lemma int_of_digits_nonneg l :
  Forall (fun a => isdigit a = true) l -> 0 <= int_of_digits l.
Proof. intros H. apply fold_digits_nonneg; [exact H|lia]. Qed.

(** The characters of a decimal numeral, read back most significant
    digit first. *)
Lemma uint_chars_digits u :
  Forall (fun a => isdigit a = true) (chars (NilEmpty.string_of_uint u)).
Proof. induction u; cbn; constructor; try reflexivity; assumption. Qed.

Lemma fold_uint_pos u acc :
  fold_left (fun acc a => 10 * acc + digit_val a)
            (chars (NilEmpty.string_of_uint u)) (Z.pos acc)
  = Z.pos (Pos.of_uint_acc u acc).
Proof.
  revert acc. induction u; intros acc; cbn [NilEmpty.string_of_uint Pos.of_uint_acc];
    [reflexivity|..];
    unfold chars; cbn [list_ascii_of_string fold_left]; fold (chars (NilEmpty.string_of_uint u));
    rewrite <- IHu; f_equal;
    match goal with
    | |- context [digit_val ?c] =>
        let v := eval vm_compute in (digit_val c) in change (digit_val c) with v
    end; lia.
Qed.

Lemma fold_uint u :
  int_of_digits (chars (NilEmpty.string_of_uint u)) = Z.of_N (Pos.of_uint u).
Proof.
  unfold int_of_digits. induction u; cbn [NilEmpty.string_of_uint Pos.of_uint];
    [reflexivity|..];
    unfold chars; cbn [list_ascii_of_string fold_left]; fold (chars (NilEmpty.string_of_uint u));
    try exact IHu; apply (fold_uint_pos u).
Qed.

Lemma uint_chars_nonempty p : chars (NilEmpty.string_of_uint (Pos.to_uint p)) <> [].
Proof.
  pose proof (DecimalPos.Unsigned.to_uint_nonnil p) as H.
  destruct (Pos.to_uint p); [contradiction|..]; discriminate.
Qed.

Lemma string_of_uint_nonnil u :
  u <> Decimal.Nil -> NilZero.string_of_uint u = NilEmpty.string_of_uint u.
Proof. destruct u; [contradiction|..]; reflexivity. Qed.

(** [str(n)] is a run of digits that reads back as the magnitude of
    [n], behind a minus sign when [n] is negative. *)
Lemma str_of_int_digits z :
  digits_of (chars (str_of_int z)) <> [] /\
  int_of_digits (digits_of (chars (str_of_int z))) = Z.abs z.
Proof.
  unfold str_of_int. destruct z as [|p|p]; cbn [Z.to_int NilZero.string_of_int Z.abs].
  - split; [discriminate|reflexivity].
  - rewrite (string_of_uint_nonnil _ (DecimalPos.Unsigned.to_uint_nonnil p)).
    rewrite (digits_of_digits _ (uint_chars_digits _)). split.
    + apply uint_chars_nonempty.
    + rewrite fold_uint, DecimalPos.Unsigned.of_to. reflexivity.
  - rewrite (string_of_uint_nonnil _ (DecimalPos.Unsigned.to_uint_nonnil p)).
    assert (digits_of (chars (String "-" (NilEmpty.string_of_uint (Pos.to_uint p))))
            = chars (NilEmpty.string_of_uint (Pos.to_uint p))) as ->.
    { unfold chars at 1. cbn [list_ascii_of_string]. unfold digits_of.
      rewrite filter_cons_False by (cbn; exact id).
      apply (digits_of_digits _ (uint_chars_digits _)). }
    split.
    + apply uint_chars_nonempty.
    + rewrite fold_uint, DecimalPos.Unsigned.of_to. reflexivity.
Qed.

Lemma str_of_int_plain z :
  Forall (fun a => plain a = true) (chars (str_of_int z)).
Proof.
  assert (forall u, Forall (fun a => plain a = true) (chars (NilZero.string_of_uint u)))
    as Hu.
  { intros u. destruct u; try (repeat constructor; fail);
      (eapply Forall_impl; [apply (uint_chars_digits (_ u))|apply isdigit_plain]). }
  unfold str_of_int. destruct (Z.to_int z) as [u|u]; cbn [NilZero.string_of_int].
  - apply Hu.
  - unfold chars. cbn [list_ascii_of_string]. constructor; [reflexivity|apply Hu].
Qed.

(** ** Stripping *)

(** A text that neither starts nor ends with whitespace. *)
Lemma lstrip_head l a l' : lstrip l = a :: l' -> isspace a = false.
Proof.
  induction l as [|b l IH]; cbn; [discriminate|].
  destruct (isspace b) eqn:E; [exact IH|]. intros H. injection H as <- _. exact E.
Qed.

Lemma lstrip_suffix l : exists p, l = (p ++ lstrip l)%list.
Proof.
  induction l as [|b l [p IH]]; [exists []; reflexivity|]. cbn.
  destruct (isspace b); [exists (b :: p); cbn; f_equal; exact IH | exists []; reflexivity].
Qed.

Lemma lstrip_trimmed l : trimmed l -> lstrip l = l.
Proof.
  intros [H _]. destruct l as [|a l]; [reflexivity|]. cbn. rewrite H. reflexivity.
Qed.

Lemma strip_trimmed l : trimmed l -> strip l = l.
Proof.
  intros H. unfold strip. rewrite (lstrip_trimmed l H).
  assert (lstrip (rev l) = rev l) as ->.
  { destruct H as [_ H]. destruct (rev l) as [|b l']; [reflexivity|].
    cbn. rewrite H. reflexivity. }
  apply rev_involutive.
Qed.

Lemma strip_is_trimmed l : trimmed (strip l).
Proof.
  unfold strip. set (l1 := lstrip l).
  destruct (lstrip_suffix (rev l1)) as [p Hp]. set (l2 := lstrip (rev l1)) in *.
  split.
  - destruct (rev l2) as [|x t] eqn:E; [exact I|].
    assert (l1 = (x :: t) ++ rev p)%list as H1.
    { rewrite <- E, <- rev_app_distr, <- Hp, rev_involutive. reflexivity. }
    apply (lstrip_head l x (t ++ rev p)). exact H1.
  - rewrite rev_involutive. destruct l2 as [|b t] eqn:E; [exact I|].
    apply (lstrip_head (rev l1) b t). exact E.
Qed.

Lemma trimmed_no_space l :
  Forall (fun a => isspace a = false) l -> trimmed l.
Proof.
  intros H. split.
  - destruct l as [|a l]; [exact I|]. inversion H; assumption.
  - destruct (rev l) as [|b t] eqn:E; [exact I|].
    apply (proj1 (Forall_forall _ _) H). apply list_elem_of_In, in_rev.
    rewrite E. left. reflexivity.
Qed.

Lemma Forall2_rev {A B} (R : A -> B -> Prop) l l' :
  Forall2 R l l' -> Forall2 R (rev l) (rev l').
Proof.
  induction 1 as [|a b l l' Hab _ IH]; [constructor|].
  cbn [rev]. apply Forall2_app; [exact IH|]. constructor; [exact Hab|constructor].
Qed.

Lemma trimmed_alike l l' :
  Forall2 (fun a b => isspace a = isspace b) l l' -> trimmed l -> trimmed l'.
Proof.
  intros HF [H1 H2]. split.
  - destruct HF as [|a b l l' Hab _]; [exact I|]. rewrite <- Hab. exact H1.
  - apply Forall2_rev in HF.
    destruct HF as [|a b t t' Hab _]; [exact I|]. rewrite <- Hab. exact H2.
Qed.

(** ** The cleaning utilities *)

Lemma clean_phone_Some num cc p :
  clean_phone num cc = Some p ->
  exists d, p = cc ++ text d /\ length d = 10%nat /\
            Forall (fun a => isdigit a = true) d /\
            d `suffix_of` digits_of (py_str num).
Proof.
  unfold clean_phone. destruct (isna num); [discriminate|].
  destruct (10 <=? length (digits_of (py_str num)))%nat eqn:E; [|discriminate].
  apply Nat.leb_le in E. intros H. injection H as <-.
  eexists. split; [reflexivity|]. split; [|split].
  - rewrite length_skipn. lia.
  - apply Forall_drop, digits_of_Forall.
  - apply suffix_drop.
Qed.

(** [clean_phone]: a phone number comes out as the country code
    followed by exactly ten digits, the last ten digits of the input;
    an input that is missing or has fewer than ten digits gives
    nothing. *)
Theorem clean_phone_ten_digits num cc :
  (clean_phone num cc = None /\
   (isna num = true \/ (length (digits_of (py_str num)) < 10)%nat)) \/
  (exists d,
     clean_phone num cc = Some (cc ++ text d) /\
     length d = 10%nat /\ Forall (fun a => isdigit a = true) d /\
     d `suffix_of` digits_of (py_str num)).
Proof.
  destruct (clean_phone num cc) as [p|] eqn:E.
  - right. destruct (clean_phone_Some _ _ _ E) as (d & -> & H). exists d.
    split; [reflexivity|exact H].
  - left. split; [reflexivity|]. unfold clean_phone in E.
    destruct (isna num); [left; reflexivity|]. right.
    destruct (10 <=? length (digits_of (py_str num)))%nat eqn:E'; [discriminate|].
    apply Nat.leb_gt in E'. exact E'.
Qed.

(** A cleaned phone number fits the [VARCHAR(20)] column [phone] as
    long as the country code has at most ten characters. *)
Theorem clean_phone_fits_column num cc p :
  (length (chars cc) <= 10)%nat ->
  clean_phone num cc = Some p -> varchar 20 "phone" p = Ok p.
Proof.
  intros Hcc H. destruct (clean_phone_Some _ _ _ H) as (d & -> & Hd & _).
  apply varchar_short. rewrite chars_app, chars_text, length_app. lia.
Qed.

Lemma clean_id_VInt z : clean_id (VInt z) = Some (Z.abs z).
Proof.
  unfold clean_id. cbn [isna py_str].
  destruct (str_of_int_digits z) as [Hne Hval].
  destruct (digits_of (chars (str_of_int z))) as [|a l] eqn:E; [contradiction|].
  rewrite Hval. reflexivity.
Qed.

Lemma clean_id_Some val z : clean_id val = Some z -> 0 <= z.
Proof.
  unfold clean_id. destruct (isna val); [discriminate|].
  pose proof (digits_of_Forall (py_str val)) as H.
  destruct (digits_of (py_str val)) as [|a l]; [discriminate|].
  intros E. injection E as <-. apply int_of_digits_nonneg, H.
Qed.

(** [clean_id] on an integer: the digits of [str(n)] are kept and the
    minus sign is not, so the result is the magnitude of [n]. *)
Theorem clean_id_of_int z : clean_id (VInt z) = Some (Z.abs z).
Proof. apply clean_id_VInt. Qed.

(** An id that [clean_id] returns is never negative, and cleaning a
    cleaned id (or the missing value it left) changes nothing. *)
Theorem clean_id_stable val :
  (forall z, clean_id val = Some z -> 0 <= z) /\
  clean_id (of_id (clean_id val)) = clean_id val.
Proof.
  split; [intros z; apply clean_id_Some|].
  destruct (clean_id val) as [z|] eqn:E; cbn [of_id].
  - rewrite clean_id_VInt. apply clean_id_Some in E. f_equal. lia.
  - reflexivity.
Qed.

Lemma capitalize_lower_alike l :
  Forall2 (fun a b => isspace a = isspace b) l (capitalize (lower l)).
Proof.
  destruct l as [|a l]; [constructor|]. cbn. constructor.
  - rewrite upper_char_space, lower_char_space. reflexivity.
  - induction l as [|b l IH]; cbn; constructor; [|exact IH].
    rewrite !lower_char_space. reflexivity.
Qed.

Lemma lower_idem l : lower (lower l) = lower l.
Proof.
  unfold lower. rewrite map_map. apply map_ext. intros a. apply lower_char_idem.
Qed.

Lemma capitalize_lower_idem l :
  capitalize (lower (capitalize (lower l))) = capitalize (lower l).
Proof.
  destruct l as [|a l]; [reflexivity|]. cbn [lower map capitalize].
  fold (lower l). rewrite upper_lower_idem. rewrite !lower_idem. reflexivity.
Qed.

(** [clean_category] is idempotent: a cleaned category, cleaned again,
    is unchanged (and so is the default ['Unknown']). *)
Theorem clean_category_idempotent cat :
  clean_category (VStr (clean_category cat)) = clean_category cat.
Proof.
  unfold clean_category at 1. cbn [isna py_str].
  unfold clean_category. destruct (isna cat); [reflexivity|].
  rewrite chars_text. set (s := strip (py_str cat)).
  rewrite (strip_trimmed (capitalize (lower s))).
  - rewrite capitalize_lower_idem. reflexivity.
  - eapply trimmed_alike; [apply capitalize_lower_alike|]. apply strip_is_trimmed.
Qed.

Lemma canonicalize_plain c e :
  canonicalize_email c = Some e ->
  e <> "" /\ Forall (fun a => plain a = true) (chars e).
Proof.
  unfold canonicalize_email. destruct (isna c); [discriminate|].
  set (l := filter _ _). intros H.
  assert (e = text l /\ l <> []) as [-> Hne].
  { destruct l; [discriminate|]. injection H as <-. split; [reflexivity|discriminate]. }
  split.
  - intros E. apply (f_equal chars) in E. rewrite chars_text in E. contradiction.
  - rewrite chars_text. apply Forall_forall. intros a Ha.
    apply list_elem_of_filter in Ha as [Hsp Ha].
    apply elem_of_map_inv in Ha as (b & -> & _).
    unfold plain. rewrite lower_char_not_upper.
    destruct (isspace (lower_char b)); [contradiction|reflexivity].
Qed.

Lemma canonicalize_plain_text e :
  e <> "" -> Forall (fun a => plain a = true) (chars e) ->
  canonicalize_email (VStr e) = Some e.
Proof.
  intros Hne Hp. unfold canonicalize_email. cbn [isna py_str].
  rewrite (strip_trimmed (chars e)).
  - rewrite (lower_plain _ Hp), (filter_plain _ Hp).
    destruct (chars e) as [|a l] eqn:E.
    + exfalso. apply Hne. rewrite <- (text_chars e), E. reflexivity.
    + rewrite <- E, text_chars. reflexivity.
  - apply trimmed_no_space. eapply Forall_impl; [exact Hp|]. apply plain_not_space.
Qed.

(** [canonicalize_email] returns a canonical address: it is not empty,
    holds no capital letter and no whitespace, and canonicalising it
    again returns it unchanged. *)
Theorem canonicalize_email_canonical c e :
  canonicalize_email c = Some e ->
  e <> "" /\ Forall (fun a => plain a = true) (chars e) /\
  canonicalize_email (VStr e) = Some e.
Proof.
  intros H. destruct (canonicalize_plain c e H) as [Hne Hp].
  split; [exact Hne|]. split; [exact Hp|]. apply canonicalize_plain_text; assumption.
Qed.

Lemma placeholder_email_plain suffix :
  Forall (fun a => plain a = true) (chars suffix) ->
  placeholder_email suffix <> "" /\
  Forall (fun a => plain a = true) (chars (placeholder_email suffix)).
Proof.
  intros H. unfold placeholder_email. split; [discriminate|].
  rewrite !chars_app. repeat (apply Forall_app; split); try exact H;
    repeat (constructor; try reflexivity).
Qed.

(** The placeholder address [synthesize_email] makes, from the customer
    id or from a random suffix, is already canonical: the
    canonicalisations that follow leave it as it is. *)
Theorem synthesize_email_canonical r n e n' :
  synthesize_email r n = Ok (e, n') ->
  canonicalize_email (VStr e) = Some e.
Proof.
  unfold synthesize_email. destruct (notna (r !!! "customer_id")).
  - destruct (py_int (r !!! "customer_id")) as [z|]; [|discriminate].
    intros H. injection H as <- _.
    destruct (placeholder_email_plain _ (str_of_int_plain z)) as [H1 H2].
    apply canonicalize_plain_text; assumption.
  - intros H. injection H as <- _.
    assert (Forall (fun a => plain a = true) (chars (hex8 (uuid4 n)))) as Hh.
    { unfold hex8. rewrite chars_text.
      apply (hex_digits_spec 8 (uuid4 n) [] (List.Forall_nil _)). }
    destruct (placeholder_email_plain _ Hh) as [H1 H2].
    apply canonicalize_plain_text; assumption.
Qed.

(** ** Dates *)

Lemma zero_pad_year_all :
  forallb
    (fun y =>
       match chars (zero_pad 4 y) with
       | [a; b; c; d] =>
           isdigit a && isdigit b && isdigit c && isdigit d &&
           (int_of_digits [a; b; c; d] =? y)
       | _ => false
       end)
    (map Z.of_nat (seq 1 (Z.to_nat 9999))) = true.
Proof. vm_compute. reflexivity. Qed.

(** The year of a date, written by [strftime]: four digits that read
    back as the year. *)
Lemma zero_pad_year y :
  1 <= y <= 9999 ->
  exists a b c d,
    chars (zero_pad 4 y) = [a; b; c; d] /\
    isdigit a = true /\ isdigit b = true /\ isdigit c = true /\ isdigit d = true /\
    int_of_digits [a; b; c; d] = y.
Proof.
  intros Hy. pose proof zero_pad_year_all as H.
  rewrite forallb_forall in H.
  assert (In y (map Z.of_nat (seq 1 (Z.to_nat 9999)))) as Hin.
  { apply in_map_iff. exists (Z.to_nat y). split; [lia|apply in_seq; lia]. }
  specialize (H y Hin).
  destruct (chars (zero_pad 4 y)) as [|a [|b [|c [|d [|e l]]]]]; try discriminate H.
  rewrite !andb_true_iff, Z.eqb_eq in H.
  destruct H as [[[[Ha Hb] Hc] Hd] He]. exists a, b, c, d. repeat split; assumption.
Qed.

(** The rest of a date written by [strftime], read back by [strptime]
    with [-%m-%d], and its shape. *)
Lemma month_day_round_trip y m d :
  1 <= m <= 12 -> 1 <= d <= 31 ->
  let tail := chars ("-" ++ zero_pad 2 m ++ "-" ++ zero_pad 2 d) in
  match_format [DLit "-"; Dm; DLit "-"; Dd] tail {| year := y; month := 1; day := 1 |}
  = Some ({| year := y; month := m; day := d |}, []) /\
  take_classes [char_is "-"; isdigit; isdigit; char_is "-"; isdigit; isdigit] tail
  = Some (tail, []) /\
  forallb (fun a => negb (isspace a)) tail = true.
Proof.
  intros Hm Hd.
  assert (exists n, m = Z.of_nat n /\ (1 <= n <= 12)%nat) as (n & -> & Hn)
    by (exists (Z.to_nat m); lia).
  assert (exists k, d = Z.of_nat k /\ (1 <= k <= 31)%nat) as (k & -> & Hk)
    by (exists (Z.to_nat d); lia).
  clear Hm Hd.
  do 13 (try (destruct n as [|n]; [try lia|])); try lia;
    do 32 (try (destruct k as [|k]; [try lia|])); try lia;
    repeat split; vm_compute; reflexivity.
Qed.

Lemma valid_date_range dt :
  valid_date dt = true ->
  1 <= year dt <= 9999 /\ 1 <= month dt <= 12 /\ 1 <= day dt <= 31.
Proof.
  unfold valid_date. rewrite !andb_true_iff, !Z.leb_le.
  intros [[[[[H1 H2] H3] H4] H5] H6].
  assert (days_in_month (year dt) (month dt) <= 31).
  { unfold days_in_month. destruct (month dt =? 2); [destruct (is_leap _); lia|].
    destruct (_ || _); lia. }
  lia.
Qed.

Lemma chars_strftime dt :
  chars (strftime dt) =
  (chars (zero_pad 4 (year dt)) ++
   chars ("-" ++ zero_pad 2 (month dt) ++ "-" ++ zero_pad 2 (day dt)))%list.
Proof. unfold strftime. rewrite chars_app. reflexivity. Qed.

Lemma match_format_year a b c d fmt rest dt :
  isdigit a = true -> isdigit b = true -> isdigit c = true -> isdigit d = true ->
  match_format (DY :: fmt) (a :: b :: c :: d :: rest) dt
  = match_format fmt rest (set_field DY (int_of_digits [a; b; c; d]) dt).
Proof.
  intros Ha Hb Hc Hd. cbn [match_format alternatives first_some take_classes].
  rewrite Ha, Hb, Hc, Hd.
  assert (digits_of [a; b; c; d] = [a; b; c; d]) as ->.
  { apply digits_of_digits. repeat constructor; assumption. }
  destruct (match_format fmt rest _) as [[dt' rest']|]; reflexivity.
Qed.

(** A valid date written by [strftime] is read back by [strptime] with
    [%Y-%m-%d], and has the shape YYYY-MM-DD. *)
Lemma strptime_strftime dt :
  valid_date dt = true ->
  strptime (chars (strftime dt)) [DY; DLit "-"; Dm; DLit "-"; Dd] = Some dt /\
  matches_iso (chars (strftime dt)) = true /\
  Forall (fun a => isspace a = false) (chars (strftime dt)).
Proof.
  intros Hv. destruct (valid_date_range dt Hv) as (Hy & Hm & Hd).
  destruct dt as [y m dd]. cbn [year month day] in Hy, Hm, Hd.
  destruct (zero_pad_year y Hy) as (a & b & c & d & Hpad & Ha & Hb & Hc & Hdd & Hval).
  destruct (month_day_round_trip y m dd Hm Hd) as (Hfmt & Hshape & Hsp).
  rewrite chars_strftime. cbn [year month day]. rewrite Hpad.
  set (tail := chars ("-" ++ zero_pad 2 m ++ "-" ++ zero_pad 2 dd)) in *.
  cbv zeta in Hfmt, Hshape, Hsp. split; [|split].
  - unfold strptime. cbn [app].
    rewrite (match_format_year a b c d _ tail _ Ha Hb Hc Hdd), Hval.
    cbn [set_field year month day]. rewrite Hfmt, Hv. reflexivity.
  - unfold matches_iso, iso_pattern. cbn [app take_classes]. rewrite Ha, Hb, Hc, Hdd.
    cbn [take_classes] in Hshape.
    destruct tail as [|x1 [|x2 [|x3 [|x4 [|x5 [|x6 tl]]]]]]; try discriminate Hshape;
      repeat match type of Hshape with
             | context [if ?b then _ else _] => destruct b; try discriminate Hshape
             end.
    injection Hshape; intros; subst; reflexivity.
  - apply Forall_app. split.
    + repeat constructor; apply plain_not_space, isdigit_plain; assumption.
    + apply Forall_forall. intros x Hx. apply list_elem_of_In in Hx.
      rewrite forallb_forall in Hsp. specialize (Hsp x Hx).
      destruct (isspace x); [discriminate|reflexivity].
Qed.

Lemma first_some_Some {A B} (f : A -> option B) l y :
  first_some f l = Some y -> exists x, x ∈ l /\ f x = Some y.
Proof.
  induction l as [|x l IH]; cbn; [discriminate|].
  destruct (f x) as [y'|] eqn:E.
  - intros H. injection H as <-. exists x. split; [left|exact E].
  - intros H. destruct (IH H) as (x' & Hin & Hx'). exists x'. split; [right; exact Hin|exact Hx'].
Qed.

Lemma strptime_valid s fmt dt : strptime s fmt = Some dt -> valid_date dt = true.
Proof.
  unfold strptime. destruct (match_format fmt s _) as [[dt' [|a rest]]|]; try discriminate.
  destruct (valid_date dt') eqn:E; [|discriminate]. intros H. injection H as <-. exact E.
Qed.

Lemma clean_date_iso_text s :
  trimmed s -> matches_iso s = true -> clean_date (VStr (text s)) = Some (text s).
Proof.
  intros Ht Hm. unfold clean_date. cbn [isna py_str].
  rewrite chars_text, (strip_trimmed s Ht).
  destruct s as [|a l]; [discriminate|]. rewrite Hm. reflexivity.
Qed.

(** What [clean_date] returns.  Unless the fallback [pd.to_datetime]
    produced it, the result is stable under [clean_date], and it is
    either the input itself, stripped, when that has the shape
    YYYY-MM-DD, or the ISO rendering of a calendar date read by one of
    the explicit formats, which every [DATE] column accepts. *)
Theorem clean_date_result d out :
  clean_date d = Some out ->
  let s := strip (py_str d) in
  (clean_date (VStr out) = Some out /\
   ((matches_iso s = true /\ out = text s) \/
    (exists dt, first_some (strptime s) explicit_formats = Some dt /\
                out = strftime dt /\ valid_date dt = true /\
                forall column, date_in column out = Ok out))) \/
  (exists dt, to_datetime (text s) (_infer_dayfirst_from_string s) = Some dt /\
              out = strftime dt).
Proof.
  intros H s. unfold clean_date in H. fold s in H.
  destruct (isna d); [discriminate|].
  pose proof (strip_is_trimmed (py_str d)) as Ht. fold s in Ht.
  destruct s as [|a l] eqn:Es; [discriminate|]. rewrite <- Es in *.
  destruct (matches_iso s) eqn:Hiso.
  - injection H as <-. left. split; [apply clean_date_iso_text; assumption|].
    left. split; reflexivity.
  - destruct (first_some (strptime s) explicit_formats) as [dt|] eqn:Hfmt.
    + injection H as <-. left.
      apply first_some_Some in Hfmt as Hx. destruct Hx as (fmt & _ & Hx).
      apply strptime_valid in Hx.
      destruct (strptime_strftime dt Hx) as (Hback & Hshape & Hsp).
      split.
      * rewrite <- (text_chars (strftime dt)).
        apply clean_date_iso_text; [apply trimmed_no_space, Hsp|exact Hshape].
      * right. exists dt. split; [reflexivity|]. split; [reflexivity|].
        split; [exact Hx|]. intros column. unfold date_in. rewrite Hback, Hshape.
        reflexivity.
    + right. destruct (to_datetime (text s) (_infer_dayfirst_from_string s)) as [dt|] eqn:Hto;
        [|discriminate].
      injection H as <-. exists dt. split; reflexivity.
Qed.

(** A date that is missing or blank gives nothing. *)
Theorem clean_date_blank d :
  isna d = true \/ Forall (fun a => isspace a = true) (py_str d) ->
  clean_date d = None.
Proof.
  intros [H|H]; unfold clean_date; [rewrite H; reflexivity|].
  destruct (isna d); [reflexivity|].
  assert (lstrip (py_str d) = []) as Hl.
  { induction H as [|a l Ha _ IH]; [reflexivity|]. cbn. rewrite Ha. exact IH. }
  unfold strip. rewrite Hl. reflexivity.
Qed.

(** *** Day first or month first *)

Lemma literal_step a fmt r dt :
  match_format (DLit a :: fmt) (a :: r) dt = match_format fmt r dt.
Proof.
  cbn [match_format alternatives first_some take_classes]. unfold char_is.
  rewrite Ascii.eqb_refl. cbn [set_field].
  destruct (match_format fmt r dt) as [[dt' rest']|]; reflexivity.
Qed.

Lemma year_end a b c d dt :
  isdigit a = true -> isdigit b = true -> isdigit c = true -> isdigit d = true ->
  match_format [DY] [a; b; c; d] dt
  = Some (set_field DY (int_of_digits [a; b; c; d]) dt, []).
Proof. intros Ha Hb Hc Hd. rewrite match_format_year by assumption. reflexivity. Qed.

Ltac closed_char c :=
  lazymatch c with Ascii _ _ _ _ _ _ _ _ => idtac end.

Ltac eval_tests :=
  repeat match goal with
         | |- context [char_in ?a ?b ?c] =>
             closed_char c;
             let v := eval vm_compute in (char_in a b c) in
             change (char_in a b c) with v
         | |- context [char_is ?a ?c] =>
             closed_char c;
             let v := eval vm_compute in (char_is a c) in
             change (char_is a c) with v
         | |- context [isdigit ?c] =>
             closed_char c;
             let v := eval vm_compute in (isdigit c) in
             change (isdigit c) with v
         end.

(** A two-digit day at the head of the text is taken whole by [%d], and
    a two-digit month by [%m]. *)
Lemma day_step d fmt r dt res :
  1 <= d <= 31 ->
  match_format fmt r (set_field Dd d dt) = Some res ->
  match_format (Dd :: fmt) (chars (zero_pad 2 d) ++ r) dt = Some res.
Proof.
  intros Hd.
  assert (exists k, d = Z.of_nat k /\ (1 <= k <= 31)%nat) as (k & -> & Hk)
    by (exists (Z.to_nat d); lia).
  clear Hd. do 32 (try (destruct k as [|k]; [try lia|])); try lia;
    match goal with
    | |- context [Z.of_nat ?n] =>
        let v := eval vm_compute in (Z.of_nat n) in change (Z.of_nat n) with v
    end;
    intros H; cbn; repeat (progress (eval_tests; cbn));
    match goal with
    | |- match ?X with _ => _ end = _ =>
        assert (X = Some res) as -> by exact H; reflexivity
    end.
Qed.

Lemma month_step m fmt r dt res :
  1 <= m <= 12 ->
  match_format fmt r (set_field Dm m dt) = Some res ->
  match_format (Dm :: fmt) (chars (zero_pad 2 m) ++ r) dt = Some res.
Proof.
  intros Hm.
  assert (exists k, m = Z.of_nat k /\ (1 <= k <= 12)%nat) as (k & -> & Hk)
    by (exists (Z.to_nat m); lia).
  clear Hm. do 13 (try (destruct k as [|k]; [try lia|])); try lia;
    match goal with
    | |- context [Z.of_nat ?n] =>
        let v := eval vm_compute in (Z.of_nat n) in change (Z.of_nat n) with v
    end;
    intros H; cbn; repeat (progress (eval_tests; cbn));
    match goal with
    | |- match ?X with _ => _ end = _ =>
        assert (X = Some res) as -> by exact H; reflexivity
    end.
Qed.


Lemma zero_pad_two_all :
  forallb
    (fun d =>
       match chars (zero_pad 2 d) with
       | [a; b] => negb (isspace a) && negb (isspace b)
       | _ => false
       end)
    (map Z.of_nat (seq 1 31)) = true.
Proof. vm_compute. reflexivity. Qed.

Lemma zero_pad_two d :
  1 <= d <= 31 ->
  exists a b, chars (zero_pad 2 d) = [a; b] /\ isspace a = false /\ isspace b = false.
Proof.
  intros Hd. pose proof zero_pad_two_all as H. rewrite forallb_forall in H.
  assert (In d (map Z.of_nat (seq 1 31))) as Hin.
  { apply in_map_iff. exists (Z.to_nat d). split; [lia|apply in_seq; lia]. }
  specialize (H d Hin).
  destruct (chars (zero_pad 2 d)) as [|a [|b [|c l]]]; try discriminate H.
  apply andb_true_iff in H as [Ha Hb]. exists a, b.
  destruct (isspace a), (isspace b); try discriminate. repeat split.
Qed.

(** A text whose third character is a slash is not read year first. *)
Lemma year_first_fails a b r fmt :
  strptime (a :: b :: "/"%char :: r) (DY :: fmt) = None /\
  matches_iso (a :: b :: "/"%char :: r) = false.
Proof.
  split.
  - unfold strptime. cbn [match_format alternatives first_some take_classes].
    destruct (isdigit a); [|reflexivity]. destruct (isdigit b); reflexivity.
  - unfold matches_iso, iso_pattern. cbn [take_classes].
    destruct (isdigit a); [|reflexivity]. destruct (isdigit b); reflexivity.
Qed.

(** The text [dd/mm/yyyy] read by [%d/%m/%Y], and [mm/dd/yyyy] read by
    [%m/%d/%Y]. *)
Lemma strptime_slashes (d1 d2 : directive) v1 v2 y a b c e :
  (d1 = Dd /\ d2 = Dm /\ 1 <= v1 <= 31 /\ 1 <= v2 <= 12) \/
  (d1 = Dm /\ d2 = Dd /\ 1 <= v1 <= 12 /\ 1 <= v2 <= 31) ->
  chars (zero_pad 4 y) = [a; b; c; e] ->
  isdigit a = true -> isdigit b = true -> isdigit c = true -> isdigit e = true ->
  int_of_digits [a; b; c; e] = y ->
  let dt := set_field DY y (set_field d2 v2 (set_field d1 v1
              {| year := 1900; month := 1; day := 1 |})) in
  valid_date dt = true ->
  strptime (chars (zero_pad 2 v1) ++ "/"%char :: chars (zero_pad 2 v2)
              ++ "/"%char :: chars (zero_pad 4 y))
           [d1; DLit "/"; d2; DLit "/"; DY] = Some dt.
Proof.
  intros Hd Hpad Ha Hb Hc He Hval dt Hv. unfold strptime. rewrite Hpad.
  set (dt0 := {| year := 1900; month := 1; day := 1 |}) in *.
  assert (match_format [DLit "/"; DY] ("/"%char :: [a; b; c; e])
            (set_field d2 v2 (set_field d1 v1 dt0)) = Some (dt, [])) as E2.
  { rewrite literal_step, (year_end a b c e _ Ha Hb Hc He), Hval. reflexivity. }
  assert (match_format [DLit "/"; d2; DLit "/"; DY]
            ("/"%char :: chars (zero_pad 2 v2) ++ "/"%char :: [a; b; c; e])
            (set_field d1 v1 dt0) = Some (dt, [])) as E4.
  { rewrite literal_step.
    destruct Hd as [(_ & -> & _ & H2)|(_ & -> & _ & H2)];
      [apply month_step|apply day_step]; assumption. }
  assert (match_format [d1; DLit "/"; d2; DLit "/"; DY]
            (chars (zero_pad 2 v1) ++ "/"%char :: chars (zero_pad 2 v2)
               ++ "/"%char :: [a; b; c; e]) dt0 = Some (dt, [])) as ->.
  { destruct Hd as [(-> & _ & H1 & _)|(-> & _ & H1 & _)];
      [apply day_step|apply month_step]; assumption. }
  rewrite Hv. reflexivity.
Qed.

(** A date written [dd/mm/yyyy] is read day first whenever that is a
    calendar date, also when the month-first reading would be one too:
    [03/04/2023] is the third of April. *)
Theorem clean_date_day_first y m d :
  valid_date {| year := y; month := m; day := d |} = true ->
  clean_date (VStr (zero_pad 2 d ++ "/" ++ zero_pad 2 m ++ "/" ++ zero_pad 4 y))
  = Some (strftime {| year := y; month := m; day := d |}).
Proof.
  intros Hv. destruct (valid_date_range _ Hv) as (Hy & Hm & Hd).
  cbn [year month day] in Hy, Hm, Hd.
  destruct (zero_pad_year y Hy) as (a & b & c & e & Hpad & Ha & Hb & Hc & He & Hval).
  destruct (zero_pad_two d Hd) as (d1 & d2 & Hdd & Hd1 & Hd2).
  destruct (zero_pad_two m) as (m1 & m2 & Hmm & Hm1 & Hm2); [lia|].
  pose proof (strptime_slashes Dd Dm d m y a b c e) as Hparse.
  cbv zeta in Hparse. cbn [set_field year month day] in Hparse.
  specialize (Hparse (or_introl (conj eq_refl (conj eq_refl (conj Hd Hm))))
                Hpad Ha Hb Hc He Hval Hv).
  unfold clean_date. cbn [isna py_str]. rewrite !chars_app.
  change (chars "/") with ["/"%char]. cbn [app] in Hparse |- *.
  set (s := (chars (zero_pad 2 d) ++ "/"%char :: chars (zero_pad 2 m)
               ++ "/"%char :: chars (zero_pad 4 y))%list) in *.
  assert (s = d1 :: d2 :: "/"%char :: m1 :: m2 :: "/"%char :: [a; b; c; e]) as Es.
  { unfold s. rewrite Hdd, Hmm, Hpad. reflexivity. }
  rewrite (strip_trimmed s).
  2:{ apply trimmed_no_space. rewrite Es.
      repeat constructor; try assumption;
        apply plain_not_space, isdigit_plain; assumption. }
  destruct (year_first_fails d1 d2 (m1 :: m2 :: "/"%char :: [a; b; c; e]))
    with (fmt := @nil directive) as [_ Hiso].
  rewrite <- Es in Hiso. rewrite Hiso.
  assert (first_some (strptime s) explicit_formats
          = Some {| year := y; month := m; day := d |}) as ->.
  { assert (forall fmt, strptime s (DY :: fmt) = None) as Hfail
      by (intros fmt; rewrite Es; apply year_first_fails).
    unfold explicit_formats. cbn [first_some]. rewrite !Hfail, Hparse. reflexivity. }
  rewrite Es. reflexivity.
Qed.


(** A text [mm/dd/...] whose second number exceeds 12 is not read day
    first, and no text [mm/...] is read with another separator. *)
Lemma day_first_fails m d r :
  1 <= m <= 12 -> 13 <= d <= 31 ->
  strptime (chars (zero_pad 2 m) ++ "/"%char :: chars (zero_pad 2 d) ++ "/"%char :: r)
           [Dd; DLit "/"; Dm; DLit "/"; DY] = None.
Proof.
  intros Hm Hd.
  assert (exists n, m = Z.of_nat n /\ (1 <= n <= 12)%nat) as (n & -> & Hn)
    by (exists (Z.to_nat m); lia).
  assert (exists k, d = Z.of_nat (13 + k) /\ (k <= 18)%nat) as (k & -> & Hk)
    by (exists (Z.to_nat d - 13)%nat; lia).
  clear Hm Hd. unfold strptime.
  do 13 (try (destruct n as [|n]; [try lia|])); try lia;
    do 19 (try (destruct k as [|k]; [|])); try lia;
    cbn; repeat (progress (eval_tests; cbn)); reflexivity.
Qed.

Lemma other_separator_fails m r fmt :
  1 <= m <= 12 ->
  strptime (chars (zero_pad 2 m) ++ "/"%char :: r) (Dd :: DLit "-" :: fmt) = None /\
  strptime (chars (zero_pad 2 m) ++ "/"%char :: r) (Dd :: DLit "." :: fmt) = None.
Proof.
  intros Hm.
  assert (exists n, m = Z.of_nat n /\ (1 <= n <= 12)%nat) as (n & -> & Hn)
    by (exists (Z.to_nat m); lia).
  clear Hm. unfold strptime.
  do 13 (try (destruct n as [|n]; [try lia|])); try lia;
    split; cbn; repeat (progress (eval_tests; cbn)); reflexivity.
Qed.

(** A date written [mm/dd/yyyy] is read month first when its second
    number is above 12, so that the day-first reading is no date:
    [12/25/2023] is the 25th of December. *)
Theorem clean_date_month_first y m d :
  valid_date {| year := y; month := m; day := d |} = true -> 12 < d ->
  clean_date (VStr (zero_pad 2 m ++ "/" ++ zero_pad 2 d ++ "/" ++ zero_pad 4 y))
  = Some (strftime {| year := y; month := m; day := d |}).
Proof.
  intros Hv H12. destruct (valid_date_range _ Hv) as (Hy & Hm & Hd).
  cbn [year month day] in Hy, Hm, Hd.
  destruct (zero_pad_year y Hy) as (a & b & c & e & Hpad & Ha & Hb & Hc & He & Hval).
  destruct (zero_pad_two d Hd) as (d1 & d2 & Hdd & Hd1 & Hd2).
  destruct (zero_pad_two m) as (m1 & m2 & Hmm & Hm1 & Hm2); [lia|].
  pose proof (strptime_slashes Dm Dd m d y a b c e) as Hparse.
  cbv zeta in Hparse. cbn [set_field year month day] in Hparse.
  specialize (Hparse (or_intror (conj eq_refl (conj eq_refl (conj Hm Hd))))
                Hpad Ha Hb Hc He Hval Hv).
  unfold clean_date. cbn [isna py_str]. rewrite !chars_app.
  change (chars "/") with ["/"%char]. cbn [app] in Hparse |- *.
  pose proof (day_first_fails m d (chars (zero_pad 4 y)) Hm ltac:(lia)) as Hf4.
  destruct (other_separator_fails m
              (chars (zero_pad 2 d) ++ "/"%char :: chars (zero_pad 4 y))
              [Dm; DLit "-"; DY] Hm) as [Hf5 _].
  destruct (other_separator_fails m
              (chars (zero_pad 2 d) ++ "/"%char :: chars (zero_pad 4 y))
              [Dm; DLit "."; DY] Hm) as [_ Hf6].
  set (s := (chars (zero_pad 2 m) ++ "/"%char :: chars (zero_pad 2 d)
               ++ "/"%char :: chars (zero_pad 4 y))%list) in *.
  assert (s = m1 :: m2 :: "/"%char :: d1 :: d2 :: "/"%char :: [a; b; c; e]) as Es.
  { unfold s. rewrite Hdd, Hmm, Hpad. reflexivity. }
  rewrite (strip_trimmed s).
  2:{ apply trimmed_no_space. rewrite Es.
      repeat constructor; try assumption;
        apply plain_not_space, isdigit_plain; assumption. }
  destruct (year_first_fails m1 m2 (d1 :: d2 :: "/"%char :: [a; b; c; e]))
    with (fmt := @nil directive) as [_ Hiso].
  rewrite <- Es in Hiso. rewrite Hiso.
  assert (first_some (strptime s) explicit_formats
          = Some {| year := y; month := m; day := d |}) as ->.
  { assert (forall fmt, strptime s (DY :: fmt) = None) as Hfail
      by (intros fmt; rewrite Es; apply year_first_fails).
    unfold explicit_formats. cbn [first_some].
    rewrite !Hfail, Hf4, Hf5, Hf6, Hparse. reflexivity. }
  rewrite Es. reflexivity.
Qed.

(** ** What the loader does to the store *)

Lemma has_order_item_spec t id :
  has_order_item t id = true <->
  exists i, i ∈ order_items t /\ order_items.order_item_id i = id.
Proof.
  unfold has_order_item. rewrite existsb_exists. split.
  - intros (c & Hc & E). exists c. split; [apply list_elem_of_In, Hc | lia].
  - intros (c & Hc & E). exists c. split; [apply list_elem_of_In, Hc | lia].
Qed.

Lemma insert_order_items_fresh oid pid qty up su t q q' t' :
  insert_order_items oid pid qty up su t q = (q', Ok t') ->
  exists r, t' = add_order_item r t /\
            has_order_item t (order_items.order_item_id r) = false.
Proof.
  unfold insert_order_items. destruct (next_order_item_id q) as [i q1].
  intros H. injection H as _ H. bind_inv H. fields_inv.
  match type of H with context [has_order_item t ?e] =>
    destruct (has_order_item t e) eqn:Hi; [discriminate|] end.
  match type of H with context [has_order t ?e] =>
    destruct (has_order t e) eqn:Ho; [|discriminate] end.
  match type of H with context [has_product t ?e] =>
    destruct (has_product t e) eqn:Hp; [|discriminate] end.
  injection H as <-. eexists. split; [reflexivity|]. exact Hi.
Qed.

Lemma prefix_snoc {A} (l0 l : list A) x : l0 `prefix_of` l -> l0 `prefix_of` (l ++ [x])%list.
Proof. intros H. etransitivity; [exact H|]. apply prefix_app_r. reflexivity. Qed.

Lemma extends_kept t0 stmt :
  loader_statement stmt -> statement_keeps (extends t0) stmt.
Proof.
  intros Hs t q q' t' (Hc & Hp & Ho & Hi) H. destruct Hs.
  - apply insert_customers_Ok in H as [->|(r & -> & _)]; [repeat split; assumption|].
    repeat split; try assumption. cbn. apply prefix_snoc, Hc.
  - apply insert_products_Ok in H as [->|(r & -> & _)]; [repeat split; assumption|].
    repeat split; try assumption. cbn. apply prefix_snoc, Hp.
  - apply insert_orders_Ok in H as [->|(r & -> & _)]; [repeat split; assumption|].
    repeat split; try assumption. cbn. apply prefix_snoc, Ho.
  - apply insert_order_items_Ok in H as (r & -> & _).
    repeat split; try assumption. cbn. apply prefix_snoc, Hi.
Qed.

(** The pipeline only ever adds rows: whatever the files hold and
    however the run ends, every row the store held before the run is
    still there after it, unchanged and in its place, in all four
    tables. *)
Theorem run_only_adds_rows f s :
  extends (data s) (data (final (run f s))).
Proof.
  apply (run_keeps (extends (data s))).
  - intros stmt. apply extends_kept.
  - repeat split; reflexivity.
Qed.

Lemma NoDup_snoc_fresh {A B} (f : A -> B) (l : list A) x :
  NoDup (map f l) -> (forall y, y ∈ l -> f y <> f x) -> NoDup (map f (l ++ [x])).
Proof.
  intros Hnd Hfresh. rewrite map_app. apply NoDup_app. split; [exact Hnd|]. split.
  - intros b Hb Hb'. cbn in Hb'. apply list_elem_of_singleton in Hb'. subst b.
    apply elem_of_map_inv in Hb as (y & Hy & Hin). apply (Hfresh y Hin). congruence.
  - cbn. apply NoDup_singleton.
Qed.

Lemma keys_unique_kept stmt :
  loader_statement stmt -> statement_keeps keys_unique stmt.
Proof.
  intros Hs t q q' t' (Hc & He & Hp & Ho & Hi) H. destruct Hs.
  - apply insert_customers_Ok in H as [->|(r & -> & Hem & Hid & _)];
      [repeat split; assumption|].
    repeat split; try assumption; cbn; apply NoDup_snoc_fresh; try assumption.
    + intros y Hy E. assert (has_customer t (customers.customer_id r) = true) as Hyes
        by (apply has_customer_spec; eauto). congruence.
    + intros y Hy E. assert (has_email t (customers.email r) = true) as Hyes
        by (apply has_email_spec; eauto). congruence.
  - apply insert_products_Ok in H as [->|(r & -> & Hid)]; [repeat split; assumption|].
    repeat split; try assumption; cbn; apply NoDup_snoc_fresh; try assumption.
    intros y Hy E. assert (has_product t (products.product_id r) = true) as Hyes
      by (apply has_product_spec; eauto). congruence.
  - apply insert_orders_Ok in H as [->|(r & -> & Hid & _)]; [repeat split; assumption|].
    repeat split; try assumption; cbn; apply NoDup_snoc_fresh; try assumption.
    intros y Hy E. assert (has_order t (orders.order_id r) = true) as Hyes
      by (apply has_order_spec; eauto). congruence.
  - apply insert_order_items_fresh in H as (r & -> & Hid).
    repeat split; try assumption; cbn; apply NoDup_snoc_fresh; try assumption.
    intros y Hy E. assert (has_order_item t (order_items.order_item_id r) = true) as Hyes
      by (apply has_order_item_spec; eauto). congruence.
Qed.

(** The run keeps the keys of the schema unique: if no two rows of the
    store share a primary key, and no two customers an address, before
    the run, then none do after it. *)
Theorem run_keeps_keys_unique f s :
  keys_unique (data s) -> keys_unique (data (final (run f s))).
Proof. apply run_keeps. exact keys_unique_kept. Qed.

(** ** Failed statements and the transaction *)

Lemma execute_Raise stmt c c' e :
  execute stmt c = (c', Raise e) -> committed c' = committed c /\ aborted c' = true.
Proof.
  unfold execute. destruct (aborted c) eqn:Hc.
  - intros H. injection H as <- _. split; [reflexivity|exact Hc].
  - destruct (stmt (pending c) (seqs c)) as [q [t|e']]; [discriminate|].
    intros H. injection H as <- _. split; reflexivity.
Qed.

Lemma execute_Ok stmt c c' :
  execute stmt c = (c', Ok tt) ->
  committed c' = committed c /\ aborted c = false /\ aborted c' = false /\
  exists q, stmt (pending c) (seqs c) = (q, Ok (pending c')).
Proof.
  unfold execute. destruct (aborted c) eqn:Hc; [discriminate|].
  destruct (stmt (pending c) (seqs c)) as [q [t|e']]; [|discriminate].
  intros H. injection H as <-. cbn. repeat split. eauto.
Qed.

Lemma execute_batch_Raise stmts c c' e :
  execute_batch stmts c = (c', Raise e) ->
  committed c' = committed c /\ aborted c' = true.
Proof.
  revert c. induction stmts as [|stmt stmts IH]; intros c H; [discriminate|].
  cbn [execute_batch] in H. destruct (execute stmt c) as [c1 [[]|e1]] eqn:E.
  - apply execute_Ok in E as (Hcm & _). apply IH in H as [H1 H2].
    split; [congruence|exact H2].
  - injection H as <- <-. eapply execute_Raise. exact E.
Qed.

Lemma execute_batch_committed stmts c c' r :
  execute_batch stmts c = (c', r) -> committed c' = committed c.
Proof.
  revert c. induction stmts as [|stmt stmts IH]; intros c H.
  - injection H as <- _. reflexivity.
  - cbn [execute_batch] in H. destruct (execute stmt c) as [c1 [[]|e1]] eqn:E.
    + apply execute_Ok in E as (Hcm & _). apply IH in H. congruence.
    + injection H as <- _. apply execute_Raise in E as [E _]. exact E.
Qed.

(** A loader step that raises leaves the connection as it found it, or
    with the transaction aborted; what is committed is not touched. *)
Lemma io_bind_Raise {A B} (m : io A) (f : A -> io B) c c' e :
  (m ≫= f) c = (c', Raise e) ->
  m c = (c', Raise e) \/ exists c1 a, m c = (c1, Ok a) /\ f a c1 = (c', Raise e).
Proof.
  unfold mbind, io_bind. destruct (m c) as [c1 [a|e1]]; [right; eauto|].
  intros H. injection H as <- <-. left. reflexivity.
Qed.

Lemma io_bind_Raise_l {A B} (m : io A) (f : A -> io B) c c' e :
  m c = (c', Raise e) -> (m ≫= f) c = (c', Raise e).
Proof. intros H. unfold mbind, io_bind. rewrite H. reflexivity. Qed.

Lemma two_batches_Raise (sw so : list statement) c c' e :
  (execute_batch sw ;; execute_batch so ;; do_commit) c = (c', Raise e) ->
  committed c' = committed c /\ aborted c' = true.
Proof.
  intros H. apply io_bind_Raise in H as [H|(c1 & [] & H1 & H)].
  - eapply execute_batch_Raise. exact H.
  - apply execute_batch_committed in H1.
    apply io_bind_Raise in H as [H|(c2 & [] & H2 & H)].
    + apply execute_batch_Raise in H as [H Ha]. split; [congruence|exact Ha].
    + discriminate.
Qed.

Lemma upsert_customers_Raise df c c' e :
  upsert_customers df c = (c', Raise e) ->
  c' = c \/ (committed c' = committed c /\ aborted c' = true).
Proof.
  unfold upsert_customers. intros H.
  apply io_bind_Raise in H as [H|(c1 & sw & H1 & H)].
  - left. unfold lift in H. injection H as <- _. reflexivity.
  - right. unfold lift in H1. injection H1 as <- _.
    eapply two_batches_Raise. exact H.
Qed.

Lemma load_products_Raise df c c' e :
  load_products df c = (c', Raise e) ->
  c' = c \/ (committed c' = committed c /\ aborted c' = true).
Proof.
  unfold load_products. intros H.
  apply io_bind_Raise in H as [H|(c1 & sw & H1 & H)].
  - left. unfold lift in H. injection H as <- _. reflexivity.
  - unfold lift in H1. injection H1 as <- _.
    apply io_bind_Raise in H as [H|(c2 & so & H2 & H)].
    + left. unfold lift in H. injection H as <- _. reflexivity.
    + right. unfold lift in H2. injection H2 as <- _.
      eapply two_batches_Raise. exact H.
Qed.

Lemma commit_after_failure c c' :
  pending c = committed c ->
  c' = c \/ (committed c' = committed c /\ aborted c' = true) ->
  committed (commit c') = committed c /\ pending (commit c') = committed c.
Proof.
  intros Hp [->|[Hc Ha]]; unfold commit; cbn.
  - destruct (aborted c); split; congruence.
  - rewrite Ha. split; exact Hc.
Qed.

(** The batches of customers and of products are all or nothing.  When
    [upsert_customers] or [load_products] raises, on a connection with
    nothing pending, the next commit (that of [Loader.close]) leaves
    the tables exactly as they were committed before the step: no row
    of the failed batch is kept. *)
Theorem failed_batch_rolled_back df c c' e :
  upsert_customers df c = (c', Raise e) \/ load_products df c = (c', Raise e) ->
  pending c = committed c ->
  committed (commit c') = committed c /\ pending (commit c') = committed c.
Proof.
  intros [H|H] Hp; apply commit_after_failure; try exact Hp.
  - eapply upsert_customers_Raise. exact H.
  - eapply load_products_Raise. exact H.
Qed.

Lemma run_upsert_Raise f s etl n c e :
  extract_transform f = Ok (etl, n) ->
  upsert_customers (df_customers etl) (commit (connect s)) = (c, Raise e) ->
  raised (run f s) = Some e /\ data (final (run f s)) = data s.
Proof.
  intros Het Hup.
  assert (load etl n (commit (connect s)) = (c, Raise e)) as Hl
    by (apply io_bind_Raise_l, Hup).
  unfold run. rewrite Het, Hl. cbn [raised final data disconnect].
  split; [reflexivity|].
  apply upsert_customers_Raise in Hup.
  apply (commit_after_failure (commit (connect s)) c eq_refl) in Hup as [Hup _].
  exact Hup.
Qed.

(** When the customers batch fails, the run persists nothing: it ends
    with the error of the batch and the tables are those it found. *)
Theorem run_customers_failure_persists_nothing f s etl n c e :
  extract_transform f = Ok (etl, n) ->
  upsert_customers (df_customers etl) (commit (connect s)) = (c, Raise e) ->
  raised (run f s) = Some e /\ data (final (run f s)) = data s.
Proof. apply run_upsert_Raise. Qed.

(** *** A date the store refuses *)

Lemma execute_batch_Exists_raises stmts c :
  Exists always_raises stmts -> exists c' e, execute_batch stmts c = (c', Raise e).
Proof.
  intros H. revert c. induction stmts as [|stmt stmts IH]; intros c; [inversion H|].
  cbn [execute_batch]. destruct (execute stmt c) as [c1 [[]|e1]] eqn:E; [|eauto].
  apply Exists_cons in H as [H|H]; [|apply IH, H].
  apply execute_Ok in E as (_ & _ & _ & q & E).
  destruct (H (pending c) (seqs c)) as (q' & e & E'). congruence.
Qed.

Lemma result_bind_Raise {A B} (m : result A) (f : A -> result B) :
  (forall a, exists e, f a = Raise e) -> exists e, m ≫= f = Raise e.
Proof. intros H. destruct m as [a|e]; cbn; eauto. Qed.

Lemma insert_customers_bad_date id fn ln em ph ci d :
  strptime (chars d) [DY; DLit "-"; Dm; DLit "-"; Dd] = None ->
  always_raises (insert_customers id fn ln em ph ci (Some d)).
Proof.
  intros Hd t q. unfold insert_customers. destruct (next_customer_id id q) as [i q1].
  exists q1.
  match goal with
  | |- exists e, (_, ?r) = _ =>
      assert (exists e, r = Raise e) as [e He]; [|exists e; rewrite He; reflexivity]
  end.
  do 6 (apply result_bind_Raise; intros ?).
  unfold nullable, date_in. rewrite Hd. cbn. eauto.
Qed.

Lemma upsert_customers_bad_date df c r d :
  r ∈ rows df -> r !!! "registration_date" = VStr d ->
  strptime (chars d) [DY; DLit "-"; Dm; DLit "-"; Dd] = None ->
  exists c' e, upsert_customers df c = (c', Raise e).
Proof.
  intros Hr Hrd Hd. unfold upsert_customers.
  unfold mbind at 1. unfold io_bind, lift.
  match goal with |- context [mapM ?f ?l] => destruct (mapM f l) as [sw|e] eqn:Hsw end;
    [|eauto].
  destruct (isna (r !!! "customer_id")) eqn:Hid.
  - unfold mbind at 1. unfold io_bind.
    destruct (execute_batch sw c) as [c1 [[]|e1]]; [|eauto].
    unfold mbind at 1. unfold io_bind.
    match goal with |- context [execute_batch ?l c1] =>
      destruct (execute_batch_Exists_raises l c1) as (c2 & e2 & ->); [|eauto] end.
    apply Exists_exists. eexists. split.
    + apply elem_of_map_inv. exists r. split; [reflexivity|].
      apply list_elem_of_filter. split; [rewrite Hid; exact I|exact Hr].
    + cbv beta. rewrite Hrd. cbn [sql_text]. apply insert_customers_bad_date, Hd.
  - unfold mbind at 1. unfold io_bind.
    destruct (execute_batch_Exists_raises sw c) as (c1 & e1 & ->); [|eauto].
    apply mapM_Ok_Forall2 in Hsw.
    destruct (Forall2_elem_of_l _ _ _ r Hsw) as (stmt & Hin & Hst).
    { apply list_elem_of_filter. split; [|exact Hr].
      unfold notna. rewrite Hid. exact I. }
    apply Exists_exists. exists stmt. split; [exact Hin|].
    apply result_bind_Ok in Hst as (id & _ & Hst). injection Hst as <-.
    rewrite Hrd. cbn [sql_text]. apply insert_customers_bad_date, Hd.
Qed.

(** A registration date that has the shape YYYY-MM-DD but is no
    calendar date passes [clean_date] and is refused by the [DATE]
    column: if one transformed customer carries such a date, the run
    raises and persists nothing, not even the other customers. *)
Theorem run_impossible_date_fatal f s r d :
  r ∈ customers_after_transform f ->
  r !!! "registration_date" = VStr d ->
  strptime (chars d) [DY; DLit "-"; Dm; DLit "-"; Dd] = None ->
  (exists e, raised (run f s) = Some e) /\ data (final (run f s)) = data s.
Proof.
  unfold customers_after_transform. intros Hr Hrd Hd.
  destruct (extract_transform f) as [[etl n]|e0] eqn:Het; [|inversion Hr].
  destruct (upsert_customers_bad_date (df_customers etl) (commit (connect s)) r d
              Hr Hrd Hd) as (c & e & Hup).
  destruct (run_upsert_Raise f s etl n c e Het Hup) as [H1 H2].
  split; [eauto|exact H2].
Qed.

(** ** How many rows a load adds *)

Lemma execute_batch_measure (mu : tables -> nat) (lo hi : nat) stmts c c' :
  Forall (fun stmt : statement =>
            forall t q q' t', stmt t q = (q', Ok t') ->
                              (mu t + lo <= mu t' <= mu t + hi)%nat) stmts ->
  execute_batch stmts c = (c', Ok tt) -> aborted c = false ->
  (mu (pending c) + lo * length stmts <= mu (pending c')
   <= mu (pending c) + hi * length stmts)%nat /\ aborted c' = false.
Proof.
  intros HF. revert c. induction HF as [|stmt stmts Hs _ IH]; intros c H Hc.
  - injection H as <-. cbn [length]. rewrite !Nat.mul_0_r. split; [lia|exact Hc].
  - cbn [execute_batch] in H. destruct (execute stmt c) as [c1 [[]|e1]] eqn:E;
      [|discriminate].
    apply execute_Ok in E as (_ & _ & Hc1 & q & E).
    specialize (Hs _ _ _ _ E). destruct (IH c1 H Hc1) as [Hm Ha].
    split; [|exact Ha]. cbn [length]. rewrite !Nat.mul_succ_r. lia.
Qed.

Lemma insert_products_plain_Ok id pn ca pr sq t q q' t' :
  insert_products false id pn ca pr sq t q = (q', Ok t') ->
  exists r, t' = add_product r t.
Proof.
  unfold insert_products. destruct (next_product_id id q) as [i q1].
  intros H. injection H as _ H. bind_inv H. fields_inv.
  match type of H with context [has_product t ?e] =>
    destruct (has_product t e); [discriminate|] end.
  injection H as <-. eauto.
Qed.

Lemma mapM_Ok_length {A B} (f : A -> result B) l k :
  mapM f l = Ok k -> length k = length l.
Proof. intros H. apply mapM_Ok_Forall2, Forall2_length in H. congruence. Qed.

(** Products without a [product_id] column are inserted as new rows
    every time: when [load_products] returns, the table has exactly
    one more row for every row of the frame, whatever it held before. *)
Theorem load_products_without_ids_appends df c c' :
  has_column "product_id" df = false -> aborted c = false ->
  load_products df c = (c', Ok tt) ->
  length (products (committed c'))
  = (length (products (pending c)) + length (rows df))%nat.
Proof.
  intros Hcol Hc. unfold load_products. rewrite Hcol. intros H.
  apply io_bind_Ok in H as (c0 & sw & Hsw & H).
  unfold lift in Hsw. cbn in Hsw. injection Hsw as <- <-.
  apply io_bind_Ok in H as (c1 & so & Hso & H).
  unfold lift in Hso. injection Hso as <- Hso.
  apply io_bind_Ok in H as (c2 & [] & H1 & H). cbn in H1. injection H1 as <-.
  apply io_bind_Ok in H as (c3 & [] & H2 & H).
  unfold do_commit in H. injection H as <-.
  destruct (execute_batch_measure (fun t => length (products t)) 1 1 so c c3)
    as [Hm Ha]; [|exact H2|exact Hc|].
  - eapply mapM_Ok_Forall; [|exact Hso]. intros r stmt Hr.
    apply result_bind_Ok in Hr as (pr & _ & Hr).
    apply result_bind_Ok in Hr as (sq & _ & Hr). injection Hr as <-.
    intros t q q' t' Hst. apply insert_products_plain_Ok in Hst as (p & ->).
    cbn. rewrite length_app. cbn. lia.
  - unfold commit. rewrite Ha. cbn. rewrite (mapM_Ok_length _ _ _ Hso) in Hm. lia.
Qed.

Lemma order_statement_measure r stmt :
  order_statement r = Ok stmt ->
  forall t q q' t', stmt t q = (q', Ok t') ->
    (length (orders t) + 0 <= length (orders t') <= length (orders t) + 1)%nat /\
    length (order_items t') = length (order_items t).
Proof.
  unfold order_statement. intros H.
  apply result_bind_Ok in H as (oid & _ & H).
  apply result_bind_Ok in H as (cid & _ & H).
  apply result_bind_Ok in H as (tot & _ & H). injection H as <-.
  intros t q q' t' Hst. apply insert_orders_Ok in Hst as [->|(o & -> & _)].
  - split; [lia|reflexivity].
  - cbn. rewrite length_app. cbn. split; [lia|reflexivity].
Qed.

Lemma item_statement_measure r stmt :
  item_statement r = Ok stmt ->
  forall t q q' t', stmt t q = (q', Ok t') ->
    length (order_items t') = S (length (order_items t)) /\
    length (orders t') = length (orders t).
Proof.
  unfold item_statement. intros H.
  apply result_bind_Ok in H as (oid & _ & H).
  apply result_bind_Ok in H as (pid & _ & H).
  apply result_bind_Ok in H as (qty & _ & H).
  apply result_bind_Ok in H as (up & _ & H).
  apply result_bind_Ok in H as (st & _ & H). injection H as <-.
  intros t q q' t' Hst. apply insert_order_items_Ok in Hst as (i & -> & _).
  cbn. rewrite length_app. cbn. split; [lia|reflexivity].
Qed.

(** The counts [load_orders_and_items] returns.  The first is the
    number of orders built and sent, one per transaction id, which is
    an upper bound on the rows added to [orders] (an order whose id is
    in the table already is skipped); the second is exactly the number
    of rows added to [order_items]. *)
Theorem load_orders_and_items_counts sales_df c c' loaded_orders loaded_items :
  aborted c = false ->
  load_orders_and_items sales_df c = (c', Ok (loaded_orders, loaded_items)) ->
  loaded_orders = length (build_orders (rows sales_df)) /\
  (length (orders (pending c)) <= length (orders (committed c'))
   <= length (orders (pending c)) + loaded_orders)%nat /\
  length (order_items (committed c'))
  = (length (order_items (pending c)) + loaded_items)%nat.
Proof.
  intros Hc. unfold load_orders_and_items. intros H.
  apply io_bind_Ok in H as (c0 & so & Hso & H).
  unfold lift in Hso. injection Hso as <- Hso.
  apply io_bind_Ok in H as (c1 & [] & H1 & H).
  apply io_bind_Ok in H as (c2 & [] & H2 & H).
  unfold do_commit in H2. injection H2 as <-.
  apply io_bind_Ok in H as (c3 & existing & H3 & H).
  unfold fetchall in H3. cbn [aborted commit] in H3. injection H3 as <- <-.
  apply io_bind_Ok in H as (c4 & si & Hsi & H).
  unfold lift in Hsi. injection Hsi as <- Hsi.
  apply io_bind_Ok in H as (c5 & [] & H5 & H).
  apply io_bind_Ok in H as (c6 & [] & H6 & H).
  unfold do_commit in H6. injection H6 as <-.
  injection H as <- <- <-.
  destruct (execute_batch_measure (fun t => length (orders t)) 0 1 so c c1)
    as [Ho1 Ha1]; [|exact H1|exact Hc|].
  { eapply mapM_Ok_Forall; [|exact Hso]. intros r stmt Hr t q q' t' Hst.
    apply (order_statement_measure r stmt Hr t q q' t' Hst). }
  destruct (execute_batch_measure (fun t => length (order_items t)) 0 0 so c c1)
    as [Hi1 _]; [|exact H1|exact Hc|].
  { eapply mapM_Ok_Forall; [|exact Hso]. intros r stmt Hr t q q' t' Hst.
    destruct (order_statement_measure r stmt Hr t q q' t' Hst) as [_ E]. lia. }
  assert (pending (commit c1) = pending c1) as Hp1
    by (unfold commit; rewrite Ha1; reflexivity).
  destruct (execute_batch_measure (fun t => length (order_items t)) 1 1 si
              (commit c1) c5) as [Hi2 Ha5]; [|exact H5|reflexivity|].
  { eapply mapM_Ok_Forall; [|exact Hsi]. intros r stmt Hr t q q' t' Hst.
    destruct (item_statement_measure r stmt Hr t q q' t' Hst) as [E _]. lia. }
  destruct (execute_batch_measure (fun t => length (orders t)) 0 0 si
              (commit c1) c5) as [Ho2 _]; [|exact H5|reflexivity|].
  { eapply mapM_Ok_Forall; [|exact Hsi]. intros r stmt Hr t q q' t' Hst.
    destruct (item_statement_measure r stmt Hr t q q' t' Hst) as [_ E]. lia. }
  rewrite Hp1 in Hi2, Ho2.
  assert (committed (commit c5) = pending c5) as ->
    by (unfold commit; rewrite Ha5; reflexivity).
  split; [apply (mapM_Ok_length _ _ _ Hso)|]. lia.
Qed.

(** ** Resolved customer ids *)

(** Every sales line the resolver returns carries an address and the
    durable id of a customer of the store who has that address (in its
    canonical form): no line is passed on with an id the store does not
    know. *)
Theorem remap_resolves_to_store_customers sales_df n c c' out n' r :
  aborted c = false ->
  remap_sales_customer_ids sales_df n c = (c', Ok (out, n')) ->
  r ∈ rows out ->
  exists cid e cu,
    r !!! "customer_id" = VInt cid /\ r !!! "email" = VStr e /\
    cu ∈ customers (pending c') /\ customers.customer_id cu = cid /\
    canonicalize_email (VStr (customers.email cu)) = Some e.
Proof.
  intros Hc H Hr.
  assert (exists l, rows out = resolved_lines (email_to_id (customers (pending c'))) l)
    as (l & Hout).
  { destruct (existsb lacks_email (rows sales_df)) eqn:Hany.
    - destruct (fill_stubs (rows sales_df) n) as [[l stubs] k] eqn:Hfill.
      pose proof (remap_with_absent sales_df n c l stubs k Hc Hany Hfill) as E.
      cbv zeta in E. rewrite E in H. injection H as <- <- _. exists l. reflexivity.
    - rewrite (remap_without_absent sales_df n c Hc Hany) in H.
      injection H as <- <- _. eexists. reflexivity. }
  rewrite Hout in Hr. apply resolved_lines_spec in Hr as (r0 & e & cid & _ & He & Hm & ->).
  apply email_to_id_Some in Hm as (cu & Hcu & Hcan & Hid).
  exists cid, e, cu. split; [apply lookup_total_insert_eq|].
  split; [rewrite lookup_total_insert_ne by discriminate; exact He|].
  repeat split; assumption.
Qed.

(** ** Extraction and the customers transform *)

Lemma assert_required_columns_Ok df required name :
  assert_required_columns df required name = Ok tt <->
  forall c, c ∈ required -> has_column c df = true.
Proof.
  unfold assert_required_columns. split.
  - intros H c Hin. destruct (has_column c df) eqn:Hc; [reflexivity|].
    destruct (assert_required_columns_missing df required name c Hin Hc) as (m & Hm).
    unfold assert_required_columns in Hm. congruence.
  - intros H. destruct (filter _ required) as [|m l] eqn:E; [reflexivity|].
    assert (m ∈ filter (fun c => negb (has_column c df)) required) as Hm
      by (rewrite E; left).
    apply list_elem_of_filter in Hm as [Hm Hin]. rewrite (H m Hin) in Hm. contradiction.
Qed.

(** [extract] succeeds exactly when no required column is missing from
    any of the three files, and then hands the three frames on as they
    were read, columns beyond the required ones included. *)
Theorem extract_succeeds_iff f :
  extract f = Ok {| df_customers := customers_file f;
                    df_products := products_file f;
                    df_sales := sales_file f |}
  <-> ~ missing_required_column f.
Proof.
  unfold extract, missing_required_column. split.
  - intros H.
    apply result_bind_Ok in H as ([] & Hc & H).
    apply result_bind_Ok in H as ([] & Hp & H).
    apply result_bind_Ok in H as ([] & Hs & _).
    rewrite assert_required_columns_Ok in Hc, Hp, Hs.
    intros [(c & Hin & E)|[(c & Hin & E)|(c & Hin & E)]];
      [rewrite (Hc c Hin) in E|rewrite (Hp c Hin) in E|rewrite (Hs c Hin) in E];
      discriminate.
  - intros Hno.
    assert (forall df required name,
              (forall c, c ∈ required -> has_column c df <> false) ->
              assert_required_columns df required name = Ok tt) as Hok.
    { intros df required name H. apply assert_required_columns_Ok.
      intros c Hin. specialize (H c Hin). destruct (has_column c df); congruence. }
    rewrite !Hok; [reflexivity|..]; intros c Hin E; apply Hno; eauto.
Qed.

Lemma synthesized_canonical r n e n' :
  synthesize_email r n = Ok (e, n') -> canonicalize_email (VStr e) = Some e.
Proof.
  unfold synthesize_email. destruct (notna (r !!! "customer_id")).
  - destruct (py_int (r !!! "customer_id")) as [z|]; [|discriminate].
    intros H. injection H as <- _.
    destruct (placeholder_email_plain _ (str_of_int_plain z)) as [H1 H2].
    apply canonicalize_plain_text; assumption.
  - intros H. injection H as <- _.
    assert (Forall (fun a => plain a = true) (chars (hex8 (uuid4 n)))) as Hh.
    { unfold hex8. rewrite chars_text.
      apply (hex_digits_spec 8 (uuid4 n) [] (List.Forall_nil _)). }
    destruct (placeholder_email_plain _ Hh) as [H1 H2].
    apply canonicalize_plain_text; assumption.
Qed.

Lemma fill_emails_canonical l n l' n' :
  Forall (fun r : row => exists o, r !!! "email" = of_text (canonicalize_email o)) l ->
  fill_emails l n = Ok (l', n') ->
  length l' = length l /\
  Forall (fun r' : row =>
            exists e, r' !!! "email" = VStr e /\ canonicalize_email (VStr e) = Some e) l'.
Proof.
  intros H. revert n l' n'. induction H as [|r l [o Ho] _ IH]; intros n l' n' E.
  - injection E as <- _. split; [reflexivity|constructor].
  - cbn [fill_emails] in E. rewrite Ho in E.
    destruct (canonicalize_email o) as [e|] eqn:Hcan; cbn [of_text] in E.
    + destruct (fill_emails l n) as [[l1 n1]|e1] eqn:E1; [|discriminate].
      cbn in E. injection E as <- <-. destruct (IH _ _ _ E1) as [Hlen HF].
      split; [cbn; congruence|]. constructor; [|exact HF].
      exists e. split; [apply lookup_total_insert_eq|].
      apply canonicalize_plain in Hcan as [Hne Hp]. apply canonicalize_plain_text; assumption.
    + destruct (synthesize_email r n) as [[e n0]|e0] eqn:Hs; [|discriminate].
      cbn in E. destruct (fill_emails l n0) as [[l1 n1]|e1] eqn:E1; [|discriminate].
      cbn in E. injection E as <- <-. destruct (IH _ _ _ E1) as [Hlen HF].
      split; [cbn; congruence|]. constructor; [|exact HF].
      exists e. split; [apply lookup_total_insert_eq|].
      eapply synthesized_canonical. exact Hs.
Qed.

Lemma drop_duplicates_length {A} (same : A -> A -> bool) l :
  (length (drop_duplicates same l) <= length l)%nat.
Proof.
  induction l as [|x l IH]; [reflexivity|]. cbn [drop_duplicates length].
  pose proof (length_filter (fun y => negb (same x y)) (drop_duplicates same l)). lia.
Qed.

Lemma NoDup_map_filter {A B} (f : A -> B) (P : A -> bool) l :
  NoDup (map f l) -> NoDup (map f (filter (fun x => P x) l)).
Proof.
  induction l as [|x l IH]; [intros; constructor|]. cbn [map]. intros H.
  apply NoDup_cons in H as [Hx Hnd]. rewrite filter_cons.
  destruct (decide _); [|apply IH, Hnd]. cbn [map]. apply NoDup_cons.
  split; [|apply IH, Hnd]. intros Hin. apply Hx.
  apply elem_of_map_inv in Hin as (y & Hy & Hin). apply list_elem_of_filter in Hin as [_ Hin].
  apply elem_of_map_inv. eauto.
Qed.

Lemma drop_duplicates_emails l :
  Forall (fun r : row => exists e, r !!! "email" = VStr e) l ->
  NoDup (map (fun r : row => r !!! "email") (drop_duplicates email_eqb l)).
Proof.
  induction 1 as [|x l [e He] _ IH]; [constructor|]. cbn [drop_duplicates map].
  apply NoDup_cons. split.
  - intros Hin. apply elem_of_map_inv in Hin as (y & Hy & Hin).
    apply list_elem_of_filter in Hin as [Hne _]. unfold email_eqb in Hne.
    rewrite <- Hy, He in Hne. cbn in Hne. rewrite String.eqb_refl in Hne. exact Hne.
  - apply (NoDup_map_filter _ (fun y => negb (email_eqb x y))). exact IH.
Qed.

(** The customers transform never raises, and what it returns is ready
    for the unique column [email]: it has no more rows than the file,
    every row carries an address, in canonical form, and no two rows
    carry the same one. *)
Theorem transform_customers_emails df n :
  exists df' n',
    transform_customers df n = Ok (df', n') /\
    (length (rows df') <= length (rows df))%nat /\
    (forall r, r ∈ rows df' ->
       exists e, r !!! "email" = VStr e /\ canonicalize_email (VStr e) = Some e) /\
    NoDup (map (fun r : row => r !!! "email") (rows df')).
Proof.
  unfold transform_customers.
  set (df1 := assign "email" _ (assign "customer_id" _ df)).
  assert (Forall (fun r : row => exists o, r !!! "email" = of_text (canonicalize_email o))
                 (rows df1)) as H1.
  { apply Forall_forall. intros r Hr. apply elem_of_assign in Hr as (r0 & -> & _).
    eexists. apply lookup_total_insert_eq. }
  assert (length (rows df1) = length (rows df)) as Hlen1
    by (unfold df1, assign; cbn; rewrite !length_map; reflexivity).
  destruct (fill_emails (rows df1) n) as [[l n']|e] eqn:Hfill.
  2:{ exfalso. destruct (cleaned_customers_spec df n) as (cl & k & Hcl & _).
      unfold cleaned_customers in Hcl. fold df1 in Hcl. rewrite Hfill in Hcl. discriminate. }
  destruct (fill_emails_canonical _ _ _ _ H1 Hfill) as [Hlen HF].
  cbn. eexists _, n'. split; [reflexivity|]. cbn [rows with_rows assign].
  set (l2 := map _ (map _ l)).
  assert (Forall (fun r' : row =>
            exists e, r' !!! "email" = VStr e /\ canonicalize_email (VStr e) = Some e) l2)
    as HF2.
  { apply Forall_forall. intros r Hr. unfold l2 in Hr.
    apply elem_of_map_inv in Hr as (r1 & -> & Hr).
    apply elem_of_map_inv in Hr as (r0 & -> & Hr).
    rewrite !lookup_total_insert_ne by discriminate.
    apply (proj1 (Forall_forall _ _) HF r0 Hr). }
  split; [|split].
  - etransitivity; [apply drop_duplicates_length|]. unfold l2.
    rewrite !length_map. lia.
  - intros r Hr. apply elem_of_drop_duplicates in Hr.
    apply (proj1 (Forall_forall _ _) HF2 r Hr).
  - apply drop_duplicates_emails. eapply Forall_impl; [exact HF2|].
    intros r (e & He & _). eauto.
Qed.

(** ** The sales transform *)

Lemma has_column_snoc x df c :
  has_column x df = true ->
  existsb (String.eqb x)
    (if has_column c df then columns df else (columns df ++ [c])%list) = true.
Proof.
  unfold has_column. intros H. destruct (existsb (String.eqb c) (columns df)); [exact H|].
  rewrite existsb_app, H. reflexivity.
Qed.

Lemma has_column_assign x c g df :
  has_column x df = true -> has_column x (assign c g df) = true.
Proof. intros H. unfold assign. apply (has_column_snoc x df c H). Qed.

Lemma has_column_try_assign x c g df df' :
  try_assign c g df = Ok df' -> has_column x df = true -> has_column x df' = true.
Proof.
  unfold try_assign. intros H Hx. apply result_bind_Ok in H as (l & _ & H).
  injection H as <-. apply (has_column_snoc x df c Hx).
Qed.

Lemma transform_sales_email_column customers_df df :
  has_column "email" df = true ->
  exists e, transform_sales_initial customers_df df = Raise e.
Proof.
  intros H. unfold transform_sales_initial.
  match goal with |- context [try_assign "quantity" ?g ?d] =>
    destruct (try_assign "quantity" g d) as [df1|e] eqn:E; [|cbn; eauto];
    assert (has_column "email" df1 = true) as H1
  end.
  { eapply has_column_try_assign; [exact E|].
    apply has_column_assign. unfold with_rows, has_column. cbn [columns].
    apply (has_column_assign "email" "transaction_id").
    apply (has_column_assign "email" "product_id").
    apply (has_column_assign "email" "customer_id"). exact H. }
  cbn -[assign has_column merge_left].
  match goal with |- context [guard_or (negb (has_column "email" ?d)) _] =>
    assert (has_column "email" d = true) as ->
      by (apply has_column_assign, has_column_assign, H1)
  end.
  cbn. eauto.
Qed.

(** A sales file that brings its own [email] column stops the run
    before anything is loaded: the merge with the customers' addresses
    then leaves no column called [email], the lookup that follows
    raises, and the store is not even opened. *)
Theorem run_sales_email_column_fatal f s :
  has_column "email" (sales_file f) = true ->
  (exists e, raised (run f s) = Some e) /\
  final (run f s) = s /\ opened (run f s) = false.
Proof.
  intros H. unfold run.
  assert (exists e, extract_transform f = Raise e) as (e & ->).
  { unfold extract_transform. destruct (extract f) as [etl|e] eqn:Hex; [|cbn; eauto].
    assert (df_sales etl = sales_file f) as Hs.
    { unfold extract in Hex.
      apply result_bind_Ok in Hex as (? & _ & Hex).
      apply result_bind_Ok in Hex as (? & _ & Hex).
      apply result_bind_Ok in Hex as (? & _ & Hex).
      injection Hex as <-. reflexivity. }
    cbn -[transform_customers transform_products transform_sales_initial].
    destruct (transform_customers (df_customers etl) 1) as [[cdf n]|e]; [|cbn; eauto].
    cbn -[transform_customers transform_products transform_sales_initial].
    destruct (transform_products (df_products etl)) as [pdf|e]; [|cbn; eauto].
    cbn -[transform_customers transform_products transform_sales_initial].
    rewrite Hs.
    destruct (transform_sales_email_column cdf (sales_file f) H) as (e & ->).
    cbn. eauto. }
  cbn. eauto.
Qed.

Ltac lookups :=
  repeat (rewrite lookup_total_insert_eq ||
          (rewrite lookup_total_insert_ne by discriminate)).

Lemma merge_left_elem key c left right rm :
  rm ∈ merge_left key c left right -> exists r v, r ∈ left /\ rm = <[c := v]> r.
Proof.
  unfold merge_left. intros H. apply list_elem_of_In, in_flat_map in H as (r & Hr & H).
  apply list_elem_of_In in Hr, H. exists r.
  destruct (filter _ right) as [|k ms].
  - apply list_elem_of_singleton in H as ->. eauto.
  - apply elem_of_map_inv in H as (k' & -> & _). eauto.
Qed.

Lemma notna_of_id o : notna (of_id o) = true -> exists z, o = Some z.
Proof. destruct o as [z|]; [eauto|discriminate]. Qed.

(** Where a line of the transformed sales comes from: a line of the
    file whose customer and product ids have digits, with its fields
    cleaned and the merged address [v] canonicalised. *)
Lemma transform_sales_initial_lines customers_df df df' r' :
  transform_sales_initial customers_df df = Ok df' -> r' ∈ rows df' ->
  exists r0 c p q v,
    r0 ∈ rows df /\
    clean_id (r0 !!! "customer_id") = Some c /\
    clean_id (r0 !!! "product_id") = Some p /\
    coerce_int (r0 !!! "quantity") = Ok q /\
    r' !!! "customer_id" = VInt c /\
    r' !!! "product_id" = VInt p /\
    r' !!! "transaction_id" = of_id (clean_id (r0 !!! "transaction_id")) /\
    r' !!! "transaction_date" = of_text (clean_date (r0 !!! "transaction_date")) /\
    r' !!! "quantity" = VInt q /\
    r' !!! "unit_price" = VFloat (coerce_float (r0 !!! "unit_price")) /\
    r' !!! "subtotal" = VFloat (float_of_Z q * coerce_float (r0 !!! "unit_price")) /\
    r' !!! "email" = of_text (canonicalize_email v).
Proof.
  unfold transform_sales_initial. intros H Hin.
  apply result_bind_Ok in H as (df1 & H1 & H).
  apply result_bind_Ok in H as ([] & _ & H). injection H as <-.
  apply elem_of_assign in Hin as (rm & -> & Hin). cbn [rows] in Hin.
  apply merge_left_elem in Hin as (r6 & v & Hin & ->).
  apply elem_of_map_inv in Hin as (r5 & -> & Hin).
  apply elem_of_map_inv in Hin as (r4 & -> & Hin).
  unfold try_assign in H1. apply result_bind_Ok in H1 as (l & Hl & H1).
  injection H1 as <-. cbn [rows] in Hin.
  destruct (elem_of_assign_rows _ _ _ _ _ Hl Hin) as (r3 & vq & H3 & Hv & ->).
  apply result_bind_Ok in Hv as (q & Hq & Hv). injection Hv as <-.
  apply elem_of_assign in H3 as (r2 & -> & H3). cbn [rows with_rows] in H3.
  apply elem_of_drop_duplicates in H3. unfold dropna in H3.
  apply list_elem_of_filter in H3 as [Hna H3].
  apply elem_of_assign in H3 as (r1 & -> & H3).
  apply elem_of_assign in H3 as (rp & -> & H3).
  apply elem_of_assign in H3 as (r0 & -> & H3).
  cbn [forallb] in Hna. apply Is_true_eq_true in Hna.
  rewrite andb_true_r in Hna. apply andb_true_iff in Hna as [Hc Hp].
  revert Hc Hp Hq. lookups. intros Hc Hp Hq.
  apply notna_of_id in Hc as (c & Hc). apply notna_of_id in Hp as (p & Hp).
  exists r0, c, p, q, v.
  split; [exact H3|]. split; [exact Hc|]. split; [exact Hp|]. split; [exact Hq|].
  repeat split; lookups; rewrite ?Hc, ?Hp; reflexivity.
Qed.

(** Every line the sales transform returns has a customer id and a
    product id, both integers that are not negative, an integer
    quantity, a float unit price and, as subtotal, their product in
    floating point; its address is missing or canonical. *)
Theorem transform_sales_initial_line customers_df df df' r' :
  transform_sales_initial customers_df df = Ok df' -> r' ∈ rows df' ->
  exists c p q u,
    r' !!! "customer_id" = VInt c /\ 0 <= c /\
    r' !!! "product_id" = VInt p /\ 0 <= p /\
    r' !!! "quantity" = VInt q /\ r' !!! "unit_price" = VFloat u /\
    r' !!! "subtotal" = VFloat (float_of_Z q * u) /\
    (r' !!! "email" = VNone \/
     exists e, r' !!! "email" = VStr e /\ canonicalize_email (VStr e) = Some e).
Proof.
  intros H Hin.
  destruct (transform_sales_initial_lines _ _ _ _ H Hin)
    as (r0 & c & p & q & v & _ & Hc & Hp & _ & Ec & Ep & _ & _ & Eq & Eu & Es & Ee).
  exists c, p, q, (coerce_float (r0 !!! "unit_price")).
  split; [exact Ec|]. split; [eapply clean_id_Some; exact Hc|].
  split; [exact Ep|]. split; [eapply clean_id_Some; exact Hp|].
  split; [exact Eq|]. split; [exact Eu|]. split; [exact Es|].
  rewrite Ee. destruct (canonicalize_email v) as [e|] eqn:Hv; [right|left; reflexivity].
  exists e. split; [reflexivity|].
  apply canonicalize_plain in Hv as [Hne Hpl]. apply canonicalize_plain_text; assumption.
Qed.

(** *** No line is doubled when customer ids are unique *)

Lemma filter_at_most_one {A} (P : A -> bool) (l : list A) :
  (forall i j x y, l !! i = Some x -> l !! j = Some y -> i <> j ->
                   P x = true -> P y = false) ->
  (length (filter (fun x => P x) l) <= 1)%nat.
Proof.
  induction l as [|x l IH]; intros H; [cbn; lia|].
  rewrite filter_cons. destruct (decide (P x)) as [Hx|Hx].
  - assert (filter (fun x => P x) l = []) as ->; [|cbn; lia].
    apply Is_true_eq_true in Hx. clear IH.
    assert (forall j y, l !! j = Some y -> P y = false) as Hno
      by (intros j y Hy; apply (H 0%nat (S j) x y eq_refl Hy); [lia|exact Hx]).
    clear H. induction l as [|y l IH]; [reflexivity|].
    rewrite filter_cons_False.
    + apply IH. intros j z Hz. apply (Hno (S j) z Hz).
    + rewrite (Hno 0%nat y eq_refl). exact id.
  - apply IH. intros i j y z Hy Hz Hne. apply (H (S i) (S j) y z Hy Hz). lia.
Qed.

Lemma merge_left_length key c left right :
  (forall r, r ∈ left ->
     (length (filter (fun k : row => cell_eqb (k !!! key) (r !!! key)) right) <= 1)%nat) ->
  length (merge_left key c left right) = length left.
Proof.
  unfold merge_left. induction left as [|r left IH]; intros H; [reflexivity|].
  cbn [flat_map]. rewrite length_app, IH by (intros r' Hr'; apply H; right; exact Hr').
  specialize (H r ltac:(left)).
  destruct (filter _ right) as [|k [|k' ms]]; cbn in H |- *; lia.
Qed.

Lemma assign_rows_length c g l l' : assign_rows c g l = Ok l' -> length l' = length l.
Proof.
  revert l'. induction l as [|r l IH]; intros l' H; cbn in H.
  - injection H as <-. reflexivity.
  - apply result_bind_Ok in H as (v & _ & H).
    apply result_bind_Ok in H as (l1 & Hl & H). injection H as <-.
    cbn. rewrite (IH l1 Hl). reflexivity.
Qed.

Lemma cell_eqb_VInt_r a z : cell_eqb a (VInt z) = true -> a = VInt z.
Proof.
  destruct a as [|y|x|s]; cbn; try discriminate.
  intros H. apply Z.eqb_eq in H. congruence.
Qed.

Lemma cell_eqb_VInt_sym z b : cell_eqb (VInt z) b = cell_eqb b (VInt z).
Proof. destruct b as [|y|y|y]; cbn; try reflexivity. apply Z.eqb_sym. Qed.

(** When no two customers share a customer id, no sales line is
    doubled by the merge that attaches the addresses: the transform
    returns at most as many lines as the file has. *)
Theorem transform_sales_no_duplication customers_df df df' :
  (forall i j ri rj,
     rows customers_df !! i = Some ri -> rows customers_df !! j = Some rj ->
     i <> j -> notna (ri !!! "customer_id") = true ->
     cell_eqb (ri !!! "customer_id") (rj !!! "customer_id") = false) ->
  transform_sales_initial customers_df df = Ok df' ->
  (length (rows df') <= length (rows df))%nat.
Proof.
  intros Huniq. unfold transform_sales_initial. intros H.
  apply result_bind_Ok in H as (df1 & H1 & H).
  apply result_bind_Ok in H as ([] & _ & H). injection H as <-.
  unfold try_assign in H1. apply result_bind_Ok in H1 as (l & Hl & H1).
  injection H1 as <-. cbn [rows assign with_rows] in *.
  rewrite length_map, merge_left_length.
  - rewrite !length_map, (assign_rows_length _ _ _ _ Hl), length_map.
    etransitivity; [apply drop_duplicates_length|].
    unfold dropna. etransitivity; [apply length_filter|].
    rewrite !length_map. reflexivity.
  - intros r Hr.
    apply elem_of_map_inv in Hr as (r5 & -> & Hr).
    apply elem_of_map_inv in Hr as (r4 & -> & Hr).
    destruct (elem_of_assign_rows _ _ _ _ _ Hl Hr) as (r3 & vq & H3 & _ & ->).
    apply elem_of_map_inv in H3 as (r2 & -> & H3).
    apply elem_of_drop_duplicates in H3. unfold dropna in H3.
    apply list_elem_of_filter in H3 as [Hna H3].
    apply elem_of_map_inv in H3 as (r1 & -> & H3).
    apply elem_of_map_inv in H3 as (rp & -> & H3).
    apply elem_of_map_inv in H3 as (r0 & -> & H3).
    cbn [forallb] in Hna. apply Is_true_eq_true in Hna.
    apply andb_true_iff in Hna as [Hc _]. revert Hc.
    lookups. intros Hc. apply notna_of_id in Hc as (c & ->). cbn [of_id].
    apply (filter_at_most_one (fun k : row => cell_eqb (k !!! "customer_id") (VInt c))).
    intros i j x y Hx Hy Hne Hpx. apply cell_eqb_VInt_r in Hpx.
    rewrite <- cell_eqb_VInt_sym, <- Hpx.
    apply (Huniq i j x y Hx Hy Hne). rewrite Hpx. reflexivity.
Qed.

(** ** What a load that succeeds has stored *)

Lemma customers_after_transform_Ok f r :
  r ∈ customers_after_transform f ->
  exists etl n, extract_transform f = Ok (etl, n) /\ r ∈ rows (df_customers etl) /\
    exists e, r !!! "email" = VStr e /\ canonicalize_email (VStr e) = Some e.
Proof.
  unfold customers_after_transform, extract_transform.
  destruct (extract f) as [etl0|e0]; [|intros H; inversion H].
  cbn -[transform_customers transform_products transform_sales_initial].
  destruct (transform_customers_emails (df_customers etl0) 1)
    as (cdf & n & Ht & _ & Hem & _).
  rewrite Ht. cbn -[transform_customers transform_products transform_sales_initial].
  destruct (transform_products (df_products etl0)) as [pdf|e1]; [|intros H; inversion H].
  cbn -[transform_customers transform_products transform_sales_initial].
  destruct (transform_sales_initial cdf (df_sales etl0)) as [sdf|e2];
    [|intros H; inversion H].
  cbn. intros Hr. eexists _, n. split; [reflexivity|]. split; [exact Hr|].
  apply Hem, Hr.
Qed.

(** No customer is lost: when the run ends without an error, the
    address of every customer the transform returned is the address of
    a customer of the store (a row the run entered, or one that was
    there already, which is then left as it was). *)
Theorem run_persists_every_customer f s r :
  raised (run f s) = None ->
  r ∈ customers_after_transform f ->
  exists e cu,
    r !!! "email" = VStr e /\
    cu ∈ customers (data (final (run f s))) /\ customers.email cu = e.
Proof.
  intros Hdone Hr.
  destruct (customers_after_transform_Ok f r Hr) as (etl & n & Het & Hin & e & He & Hcan).
  exists e. unfold run in *. rewrite Het in *.
  destruct (load etl n (commit (connect s))) as [c [[]|e1]] eqn:Hload; [|discriminate].
  destruct (canonicalize_plain _ _ Hcan) as [_ Hpl].
  pose proof (load_Ok_has_email etl n _ c r e Hload eq_refl Hin He) as [Hcm Hpd].
  { eapply Forall_impl; [exact Hpl|]. apply plain_not_space. }
  cbn [final data disconnect].
  assert (has_email (committed (commit c)) e = true) as Hhas
    by (unfold commit; cbn; destruct (aborted c); assumption).
  apply has_email_spec in Hhas as (cu & Hcu & Hem). exists cu. repeat split; assumption.
Qed.

Lemma has_order_kept k stmt :
  loader_statement stmt -> statement_keeps (fun t => has_order t k = true) stmt.
Proof.
  intros Hs t q q' t' Hinv H. apply has_order_spec in Hinv as (o & Ho & Hid).
  apply has_order_spec. exists o. split; [|exact Hid]. destruct Hs.
  - apply insert_customers_Ok in H as [->|(r & -> & _)]; exact Ho.
  - apply insert_products_Ok in H as [->|(r & -> & _)]; exact Ho.
  - apply insert_orders_Ok in H as [->|(r & -> & _)]; [exact Ho|].
    cbn. apply elem_of_app. left. exact Ho.
  - apply insert_order_items_Ok in H as (r & -> & _). exact Ho.
Qed.

Lemma insert_orders_establishes k cid da tot st :
  establishes (fun t => has_order t k = true) (insert_orders (Some k) cid da tot st).
Proof.
  intros t q q' t' H. apply insert_orders_Ok in H as Hcases.
  destruct Hcases as [->|(r & -> & _ & _ & Hid & _)].
  - unfold insert_orders in H. injection H as _ H. bind_inv H. fields_inv.
    destruct (has_order t k) eqn:Hk; [reflexivity|].
    match type of H with context [has_customer t ?x] =>
      destruct (has_customer t x); [|discriminate] end.
    injection H as H. exfalso.
    apply (f_equal (fun t => length (orders t))) in H. cbn in H.
    rewrite length_app in H. cbn in H. lia.
  - injection Hid as Hid. apply has_order_spec. exists r. split.
    + cbn. apply elem_of_app. right. left.
    + symmetry. exact Hid.
Qed.

Lemma order_statement_establishes l k stmt :
  order_statement (build_order l k) = Ok stmt ->
  establishes (fun t => has_order t k = true) stmt.
Proof.
  unfold order_statement. rewrite build_order_id. intros H.
  apply result_bind_Ok in H as (oid & Hoid & H).
  apply result_bind_Ok in H as (cid & _ & H).
  apply result_bind_Ok in H as (tot & _ & H). injection H as <-.
  cbn in Hoid. injection Hoid as <-. apply insert_orders_establishes.
Qed.

Lemma filter_ext_in {A} (P Q : A -> bool) (l : list A) :
  (forall x, x ∈ l -> P x = Q x) ->
  filter (fun x => P x) l = filter (fun x => Q x) l.
Proof.
  induction l as [|x l IH]; intros H; [reflexivity|].
  rewrite !filter_cons, (H x ltac:(left)), IH by (intros y Hy; apply H; right; exact Hy).
  reflexivity.
Qed.

Lemma existsb_map_id (t : tables) k :
  existsb (Z.eqb k) (map orders.order_id (orders t)) = has_order t k.
Proof.
  unfold has_order. induction (orders t) as [|o l IH]; [reflexivity|].
  cbn. rewrite IH, (Z.eqb_sym k). reflexivity.
Qed.

(** When [load_orders_and_items] returns, the order of every
    transaction id among the lines is in the store, and every line
    that has a transaction id was inserted as an order item: the count
    of items it returns is the number of those lines.  A line without
    a transaction id is in no order and is passed over. *)
Theorem load_orders_and_items_complete sales_df c c' loaded_orders loaded_items :
  aborted c = false ->
  load_orders_and_items sales_df c = (c', Ok (loaded_orders, loaded_items)) ->
  (forall r k, r ∈ rows sales_df -> group_key r = Some k ->
               has_order (committed c') k = true) /\
  loaded_items = length (filter (fun r => has_transaction_id r) (rows sales_df)).
Proof.
  intros Hc. unfold load_orders_and_items. intros H.
  apply io_bind_Ok in H as (c0 & so & Hso & H).
  unfold lift in Hso. injection Hso as <- Hso.
  apply io_bind_Ok in H as (c1 & [] & H1 & H).
  apply io_bind_Ok in H as (c2 & [] & H2 & H).
  unfold do_commit in H2. injection H2 as <-.
  apply io_bind_Ok in H as (c3 & existing & H3 & H).
  unfold fetchall in H3. cbn [aborted commit] in H3. injection H3 as <- <-.
  apply io_bind_Ok in H as (c4 & si & Hsi & H).
  unfold lift in Hsi. injection Hsi as <- Hsi.
  apply io_bind_Ok in H as (c5 & [] & H5 & H).
  apply io_bind_Ok in H as (c6 & [] & H6 & H).
  unfold do_commit in H6. injection H6 as <-.
  injection H as <- _ <-.
  pose proof (execute_batch_not_aborted _ _ _ H1 Hc) as Ha1.
  assert (pending (commit c1) = pending c1) as Hp1
    by (unfold commit; rewrite Ha1; reflexivity).
  assert (forall r k, r ∈ rows sales_df -> group_key r = Some k ->
                      has_order (pending c1) k = true) as Hall.
  { intros r k Hr Hk.
    apply (execute_batch_establishes (fun t => has_order t k = true) so c c1);
      [|exact H1|exact Hc|].
    - eapply mapM_Ok_Forall; [|exact Hso]. intros o stmt Ho.
      apply has_order_kept. eapply order_statement_loader. exact Ho.
    - right. apply mapM_Ok_Forall2 in Hso.
      destruct (Forall2_elem_of_l _ _ _ (build_order (rows sales_df) k) Hso)
        as (stmt & Hin & Hst).
      { unfold build_orders. apply elem_of_map_inv. exists k. split; [reflexivity|].
        apply group_keys_spec. eauto. }
      apply Exists_exists. exists stmt. split; [exact Hin|].
      eapply order_statement_establishes. exact Hst. }
  split.
  - intros r k Hr Hk.
    pose proof (execute_batch_not_aborted _ _ _ H5 eq_refl) as Ha5.
    assert (committed (commit c5) = pending c5) as ->
      by (unfold commit; rewrite Ha5; reflexivity).
    apply (execute_batch_establishes (fun t => has_order t k = true) si (commit c1) c5);
      [|exact H5|reflexivity|].
    + eapply mapM_Ok_Forall; [|exact Hsi]. intros o stmt Ho.
      apply has_order_kept. eapply item_statement_loader. exact Ho.
    + left. rewrite Hp1. eapply Hall; eassumption.
  - rewrite (mapM_Ok_length _ _ _ Hsi). f_equal. rewrite Ha1.
    apply filter_ext_in. intros r Hr. unfold isin_orders, has_transaction_id.
    destruct (group_key r) as [k|] eqn:Hk; [|reflexivity].
    rewrite existsb_map_id. exact (Hall r k Hr Hk).
Qed.

End Pipeline.

(** * Closed examples *)

(** ** Re-running the pipeline *)

(** C2 (row counts under re-runs), evaluated.  On the files [shop] the
    pipeline is run three times in a row, starting from the empty store.
    The customers and the orders stay at one row, but the products and
    the order items are inserted again by every run: two rows of each
    after the second run, three after the third. *)
Theorem rerun_row_counts_differ repr_float parse_number to_datetime u1 u2 u3 :
  let go u := run repr_float parse_number to_datetime u default_config shop in
  let s1 := final (go u1 empty_store) in
  let s2 := final (go u2 s1) in
  let s3 := final (go u3 s2) in
  raised (go u1 empty_store) = None /\ raised (go u2 s1) = None /\
  raised (go u3 s2) = None /\
  row_counts s1 = (1, 1, 1, 1)%nat /\
  row_counts s2 = (1, 2, 1, 2)%nat /\
  row_counts s3 = (1, 3, 1, 3)%nat.
Proof. repeat split; vm_compute; reflexivity. Qed.

(** ** Referential integrity, on an example *)

Lemma run_referential_integrity_witness :
  referential_integrity (data empty_store) /\
  referential_integrity
    (data (final (run ex_repr_float ex_parse_number ex_to_datetime ex_uuid4
                    default_config shop empty_store))).
Proof.
  assert (referential_integrity (data empty_store)) as H.
  { split; intros x Hx; inversion Hx. }
  split; [exact H|].
  apply (run_referential_integrity ex_repr_float ex_parse_number ex_to_datetime
           ex_uuid4 default_config shop empty_store H).
Defined.

(** ** A missing column, on an example *)

Lemma run_missing_column_fatal_witness :
  missing_required_column shop_without_email_column /\
  final (run ex_repr_float ex_parse_number ex_to_datetime ex_uuid4
           default_config shop_without_email_column empty_store) = empty_store.
Proof.
  assert (missing_required_column shop_without_email_column) as H.
  { left. exists "email". split; [|reflexivity]. right. right. left. }
  split; [exact H|].
  apply (run_missing_column_fatal ex_repr_float ex_parse_number ex_to_datetime
           ex_uuid4 default_config shop_without_email_column empty_store H).
Defined.

(** ** Prices *)

(** C8 as stated fails: the product transform keeps a negative price.
    The raw price -5.0 is a number, so nothing is substituted, and the
    transformed row carries -5.0, which is below 0. *)
Lemma negative_price_survives_transform :
  exists df',
    transform_products ex_repr_float ex_parse_number products_negative = Ok df' /\
    map (fun r => r !!! "price") (rows df') = [VFloat (-5)] /\
    ((-5) <? 0)%float = true.
Proof. eexists. split; [reflexivity|]. split; vm_compute; reflexivity. Qed.

Lemma transform_products_price_stock_witness :
  exists df' r',
    transform_products ex_repr_float ex_parse_number products_negative = Ok df' /\
    r' ∈ rows df' /\
    exists r, r ∈ rows products_negative /\
      r' !!! "price" =
        VFloat (if isna (to_numeric ex_parse_number (r !!! "price")) then 0%float
                else as_float (to_numeric ex_parse_number (r !!! "price"))) /\
      exists z, r' !!! "stock_quantity" = VInt z /\
                coerce_int ex_parse_number (r !!! "stock_quantity") = Ok z /\
                (isna (to_numeric ex_parse_number (r !!! "stock_quantity")) = true
                 -> z = 0).
Proof.
  destruct (transform_products ex_repr_float ex_parse_number products_negative) as [df'|e] eqn:E;
    [|vm_compute in E; discriminate].
  assert (exists r', rows df' = [r']) as (r' & Hr).
  { vm_compute in E. injection E as <-. eexists. reflexivity. }
  exists df', r'.
  assert (r' ∈ rows df') as Hin by (rewrite Hr; left).
  split; [reflexivity|]. split; [exact Hin|].
  exact (transform_products_price_stock ex_repr_float ex_parse_number products_negative df' r' E Hin).
Defined.

(** ** Order dates *)


(** ** A sale of an unknown customer *)



(** ** An address the store does not know *)

(** C4 as stated fails: a sales line whose address is present but not
    in the mapping gets no placeholder and no guest customer.  Against
    the empty store the resolver leaves the customers table empty, draws
    nothing, and returns no line. *)
Lemma unmapped_address_gets_no_guest :
  let '(c1, res) :=
    remap_sales_customer_ids ex_repr_float ex_uuid4 sales_unknown_email 0
      (connect empty_store) in
  map (fun r => r !!! "email") (rows sales_unknown_email) = [VStr "ghost@x.com"] /\
  c1 = connect empty_store /\
  customers (pending c1) = [] /\
  exists out, res = Ok (out, 0%nat) /\ rows out = [].
Proof.
  vm_compute. repeat split. eexists. split; reflexivity.
Qed.

Lemma remap_placeholder_only_for_absent_witness :
  exists r,
    rows sales_unknown_email !! 0%nat = Some r /\ lacks_email r = false /\
    exists c1 out n',
      remap_sales_customer_ids ex_repr_float ex_uuid4 sales_unknown_email 0
        (connect empty_store) = (c1, Ok (out, n')) /\
      c1 = connect empty_store /\ n' = 0%nat.
Proof.
  assert (exists r, rows sales_unknown_email !! 0%nat = Some r) as (r & Hr).
  { eexists. reflexivity. }
  exists r. split; [exact Hr|].
  assert (lacks_email r = false) as Hl.
  { cbn in Hr. injection Hr as <-. vm_compute. reflexivity. }
  split; [exact Hl|].
  destruct (remap_placeholder_only_for_absent ex_repr_float ex_uuid4
              sales_unknown_email 0 (connect empty_store) 0 r eq_refl Hr)
    as [_ HB].
  destruct (HB Hl) as (c1 & out & n' & Hremap & Hsame & _).
  exists c1, out, n'. split; [exact Hremap|]. apply Hsame.
  vm_compute. reflexivity.
Defined.

(** ** One order per transaction, on an example *)


(** ** Deduplication, on an example *)

